(** * sql-identity-oss: the resolution pipeline, embedded and verified

    A shallow embedding of the identity-resolution core of [idr_core]:
    the metadata validators ([config.py]), identifier canonicalization
    ([stages/extraction.py]), edge building, label propagation and fuzzy
    pairing ([stages/graph.py]), confidence scoring and the dry-run
    analysis ([stages/output.py]), and the preflight/run orchestration
    ([stages/preflight.py], [runner.py]).

    Conventions of the embedding.
    - A SQL table is the list of its rows; a row is a record whose fields
      carry the column names.  [GROUP BY], [DISTINCT], [JOIN], [MIN],
      [COUNT] are the list functions of [Module Sql].
    - VARCHAR values are [string]s compared lexicographically
      ([String.compare]), which is what [MIN(entity_key)] and
      [MIN(candidate_label)] use.
    - Python exceptions are values of a sum type; a function that may
      raise returns [result]. *)

From Stdlib Require Import List String Ascii Bool Arith ZArith QArith Qround Qabs Qminmax Lia Relations.
From Stdlib Require Import DecimalString Lqa.
Import ListNotations.

Close Scope Q_scope.
Close Scope Z_scope.
Open Scope string_scope.
Open Scope list_scope.
Open Scope nat_scope.

Set Implicit Arguments.

(* ================================================================== *)
(** * Part I. The embedding *)

(* ================================================================== *)
(** ** Lexicographic order on VARCHAR values *)

Module StrOrd.

Definition le (a b : string) : Prop := String.leb a b = true.

(** [LEAST(a, b)] on strings; the binary step of [MIN]. *)
Definition str_min (a b : string) : string :=
  if String.leb a b then a else b.

End StrOrd.

(* ================================================================== *)
(** ** The SQL fragment the stages use, on lists of rows *)

Module Sql.

(** [SELECT DISTINCT]: one row per value, in order of first occurrence. *)
Fixpoint distinct {A : Type} (eqb : A -> A -> bool) (l : list A) : list A :=
  match l with
  | [] => []
  | x :: t => x :: filter (fun y => negb (eqb y x)) (distinct eqb t)
  end.

(** [MIN(col)] over a group; [None] is SQL's NULL for the empty group. *)
Fixpoint sql_min (l : list string) : option string :=
  match l with
  | [] => None
  | x :: t =>
      match sql_min t with
      | None => Some x
      | Some m => Some (StrOrd.str_min x m)
      end
  end.

(** [MAX(col)] over integers, [None] on the empty group. *)
Fixpoint sql_max (l : list Z) : option Z :=
  match l with
  | [] => None
  | x :: t =>
      match sql_max t with
      | None => Some x
      | Some m => Some (Z.max x m)
      end
  end.

End Sql.

(* ================================================================== *)
(** ** Rows of the working tables ([idr_work]) *)

(** [idr_work.entities_delta] *)
Record entity_delta_row := mk_entity_delta {
  ed_run_id : string;
  ed_table_id : string;
  ed_entity_key : string;
  ed_watermark_value : Z
}.

(** [idr_work.identifiers_all] *)
Record identifier_row := mk_identifier {
  i_entity_key : string;
  i_identifier_type : string;
  i_identifier_value_norm : string;
  i_max_group_size : Z
}.

(** [idr_work.edges_new] *)
Record edge_row := mk_edge {
  left_entity_key : string;
  right_entity_key : string;
  e_identifier_type : string;
  e_identifier_value_norm : string
}.

(** [idr_work.lp_labels] (and [candidate_labels], whose second column is
    called [candidate_label]) *)
Record label_row := mk_label {
  l_entity_key : string;
  l_label : string
}.

(** [idr_work.lp_edges] *)
Record lp_edge_row := mk_lp_edge {
  src : string;
  dst : string
}.

(** The [identifier_groups] common table expression of [build_edges]. *)
Record identifier_group := mk_group {
  g_identifier_type : string;
  g_identifier_value_norm : string;
  g_group_size : nat;
  g_anchor_key : string;
  g_max_allowed : Z
}.

(** [idr_out.skipped_identifier_groups], with the columns the INSERT of
    [build_edges] names. *)
Record skipped_group_row := mk_skipped {
  sk_run_id : string;
  sk_identifier_type : string;
  sk_identifier_value_norm : string;
  sk_group_size : nat;
  sk_max_allowed : Z;
  sk_sample_entity_keys : string;
  sk_reason : string;
  sk_skipped_at : Z
}.

(** [idr_out.edge_evidence] *)
Record edge_evidence_row := mk_evidence {
  ev_run_id : string;
  ev_entity_key_a : string;
  ev_entity_key_b : string;
  ev_rule_id : string;
  ev_identifier_type : string;
  ev_match_value : string;
  ev_score : Q;
  ev_created_at : Z
}.

(* ================================================================== *)
(** ** GraphStage.build_edges *)

Module BuildEdges.

Definition key_eqb (a b : string * string) : bool :=
  String.eqb (fst a) (fst b) && String.eqb (snd a) (snd b).

Definition group_key (i : identifier_row) : string * string :=
  (i_identifier_type i, i_identifier_value_norm i).

(** The rows of one [GROUP BY identifier_type, identifier_value_norm]
    group. *)
Definition group_rows (k : string * string) (identifiers_all : list identifier_row)
  : list identifier_row :=
  filter (fun i => key_eqb (group_key i) k) identifiers_all.

(** [identifier_groups]: one row per group, [HAVING COUNT( * ) > 1]. *)
Definition identifier_groups (identifiers_all : list identifier_row)
  : list identifier_group :=
  flat_map
    (fun k =>
       let rows := group_rows k identifiers_all in
       if 1 <? List.length rows then
         match Sql.sql_min (map i_entity_key rows),
               Sql.sql_max (map i_max_group_size rows) with
         | Some anchor_key, Some max_allowed =>
             [mk_group (fst k) (snd k) (List.length rows) anchor_key max_allowed]
         | _, _ => []
         end
       else [])
    (Sql.distinct key_eqb (map group_key identifiers_all)).

(** [valid_groups]: [WHERE group_size <= max_allowed]. *)
Definition valid_groups (identifiers_all : list identifier_row) :=
  filter (fun g => Z.of_nat (g_group_size g) <=? g_max_allowed g)%Z
         (identifier_groups identifiers_all).

(** The [skipped_groups] CTE: [WHERE group_size > max_allowed]. *)
Definition skipped_groups (identifiers_all : list identifier_row) :=
  filter (fun g => g_max_allowed g <? Z.of_nat (g_group_size g))%Z
         (identifier_groups identifiers_all).

(** The SELECT that fills [idr_work.edges_new]:
    [identifiers_all i JOIN valid_groups g ON type and value
     WHERE i.entity_key != g.anchor_key]. *)
Definition edges_new (identifiers_all : list identifier_row) : list edge_row :=
  flat_map
    (fun i =>
       flat_map
         (fun g =>
            if String.eqb (i_identifier_type i) (g_identifier_type g)
               && String.eqb (i_identifier_value_norm i) (g_identifier_value_norm g)
               && negb (String.eqb (i_entity_key i) (g_anchor_key g))
            then [mk_edge (i_entity_key i) (g_anchor_key g)
                          (i_identifier_type i) (i_identifier_value_norm i)]
            else [])
         (valid_groups identifiers_all))
    identifiers_all.

(** The rows of the audit INSERT: the subquery groups again, with
    [HAVING COUNT( * ) > MAX(max_group_size)]. *)
Definition skipped_log_rows (run_id : string) (current_timestamp : Z)
           (identifiers_all : list identifier_row) : list skipped_group_row :=
  flat_map
    (fun k =>
       let rows := group_rows k identifiers_all in
       match Sql.sql_max (map i_max_group_size rows) with
       | Some max_allowed =>
           if (max_allowed <? Z.of_nat (List.length rows))%Z then
             [mk_skipped run_id (fst k) (snd k) (List.length rows) max_allowed
                         "" "EXCEEDED_MAX_GROUP_SIZE" current_timestamp]
           else []
       | None => []
       end)
    (Sql.distinct key_eqb (map group_key identifiers_all)).

(** An optional table: [None] when the statement against it raises (the
    table is missing, or lacks a column the statement names). *)
Definition optional_table (row : Type) := option (list row).

Definition insert_into {row} (t : optional_table row) (rows : list row)
  : option (optional_table row) :=
  match t with
  | Some old => Some (Some (old ++ rows))
  | None => None
  end.

(** What [build_edges] reads and writes. *)
Record tables := mk_tables {
  identifiers_all : list identifier_row;
  t_edges_new : list edge_row;
  skipped_identifier_groups : optional_table skipped_group_row;
  edge_evidence : optional_table edge_evidence_row;
  warnings : list string
}.

Definition evidence_rows (run_id : string) (current_timestamp : Z)
           (edges : list edge_row) : list edge_evidence_row :=
  map (fun e => mk_evidence run_id (left_entity_key e) (right_entity_key e)
                            ("exact_" ++ e_identifier_type e)%string
                            (e_identifier_type e) (e_identifier_value_norm e)
                            1%Q current_timestamp)
      edges.

(** [build_edges]: returns the table state and [count or 0]. *)
Definition build_edges (run_id : string) (current_timestamp : Z)
           (generate_evidence : bool) (t : tables) : tables * nat :=
  let edges := edges_new (identifiers_all t) in
  (* try: INSERT INTO idr_out.skipped_identifier_groups ... except: pass *)
  let skipped :=
    match insert_into (skipped_identifier_groups t)
                      (skipped_log_rows run_id current_timestamp (identifiers_all t)) with
    | Some t' => t'
    | None => skipped_identifier_groups t
    end in
  let count := List.length edges in
  let '(evidence, warns) :=
    if generate_evidence && (0 <? count) then
      match insert_into (edge_evidence t)
                        (evidence_rows run_id current_timestamp edges) with
      | Some t' => (t', warnings t)
      | None => (edge_evidence t,
                 warnings t ++ ["Edge evidence generation failed"])
      end
    else (edge_evidence t, warnings t) in
  (mk_tables (identifiers_all t) edges skipped evidence warns, count).

(** The edges, and the audit rows, that belong to one identifier group. *)
Definition edges_of_group (k : string * string) (edges : list edge_row)
  : list edge_row :=
  filter (fun e => key_eqb (e_identifier_type e, e_identifier_value_norm e) k) edges.

Definition log_rows_of_group (k : string * string) (rows : list skipped_group_row)
  : list skipped_group_row :=
  filter (fun r => key_eqb (sk_identifier_type r, sk_identifier_value_norm r) k) rows.

(** The edge [build_edges] draws from a member of a group to its anchor. *)
Definition edge_to_anchor (anchor_key : string) (i : identifier_row) : edge_row :=
  mk_edge (i_entity_key i) anchor_key (i_identifier_type i) (i_identifier_value_norm i).

Definition is_anchor (anchor_key : string) (i : identifier_row) : bool :=
  String.eqb (i_entity_key i) anchor_key.

End BuildEdges.

(* ================================================================== *)
(** ** GraphStage.label_propagation *)

Module LabelPropagation.

(** [CREATE TABLE idr_work.lp_labels AS
     SELECT DISTINCT entity_key, entity_key AS label
     FROM idr_work.entities_delta WHERE run_id = '{run_id}'] *)
Definition init_labels (run_id : string) (entities_delta : list entity_delta_row)
  : list label_row :=
  map (fun k => mk_label k k)
      (Sql.distinct String.eqb
         (map ed_entity_key
              (filter (fun e => String.eqb (ed_run_id e) run_id) entities_delta))).

(** [idr_work.lp_edges]: both directions of every edge, [UNION ALL]. *)
Definition build_lp_edges (edges_new : list edge_row) : list lp_edge_row :=
  map (fun e => mk_lp_edge (left_entity_key e) (right_entity_key e)) edges_new
  ++ map (fun e => mk_lp_edge (right_entity_key e) (left_entity_key e)) edges_new.

(** The [candidate_labels] CTE: every entity's own label, and for every
    edge the label of its [dst], offered to its [src]. *)
Definition candidate_labels (lp_labels : list label_row) (lp_edges : list lp_edge_row)
  : list label_row :=
  lp_labels
  ++ flat_map
       (fun e =>
          map (fun l2 => mk_label (src e) (l_label l2))
              (filter (fun l2 => String.eqb (dst e) (l_entity_key l2)) lp_labels))
       lp_edges.

(** [SELECT entity_key, MIN(candidate_label) AS label
     FROM candidate_labels GROUP BY entity_key] *)
Definition propagate (lp_edges : list lp_edge_row) (lp_labels : list label_row)
  : list label_row :=
  let candidates := candidate_labels lp_labels lp_edges in
  flat_map
    (fun k =>
       match Sql.sql_min
               (map l_label
                    (filter (fun c => String.eqb (l_entity_key c) k) candidates)) with
       | Some m => [mk_label k m]
       | None => []
       end)
    (Sql.distinct String.eqb (map l_entity_key candidates)).

(** [SELECT COUNT( * ) FROM lp_labels prev JOIN lp_labels_new curr
     ON prev.entity_key = curr.entity_key WHERE prev.label != curr.label] *)
Definition count_changes (prev curr : list label_row) : nat :=
  List.length
    (flat_map
       (fun p =>
          filter (fun c => String.eqb (l_entity_key p) (l_entity_key c)
                           && negb (String.eqb (l_label p) (l_label c)))
                 curr)
       prev).

(** Why the [for] loop ended: the [break] on [changes == 0], or the end
    of [range(max_iters)]. *)
Inductive stop_reason := NoLabelChanged | MaxItersReached.

Record lp_state := mk_lp_state {
  iterations : nat;
  lp_labels : list label_row;
  stopped : stop_reason
}.

(** The loop, with [remaining] iterations of [range(max_iters)] left and
    [iterations] already done. *)
Fixpoint lp_loop (lp_edges : list lp_edge_row) (remaining iterations : nat)
         (labels : list label_row) : lp_state :=
  match remaining with
  | 0 => mk_lp_state iterations labels MaxItersReached
  | S remaining' =>
      let labels_new := propagate lp_edges labels in
      let changes := count_changes labels labels_new in
      if changes =? 0
      then mk_lp_state (S iterations) labels_new NoLabelChanged
      else lp_loop lp_edges remaining' (S iterations) labels_new
  end.

Definition run_loop (max_iters : nat) (run_id : string)
           (entities_delta : list entity_delta_row) (edges_new : list edge_row)
  : lp_state :=
  lp_loop (build_lp_edges edges_new) max_iters 0 (init_labels run_id entities_delta).

(** [SELECT COUNT(DISTINCT label) FROM idr_work.lp_labels] *)
Definition count_clusters (labels : list label_row) : nat :=
  List.length (Sql.distinct String.eqb (map l_label labels)).

(** [label_propagation(max_iters)]: returns [(iterations, clusters)];
    the labels stay behind in [idr_work.lp_labels]. *)
Definition label_propagation (max_iters : nat) (run_id : string)
           (entities_delta : list entity_delta_row) (edges_new : list edge_row)
  : nat * nat :=
  let s := run_loop max_iters run_id entities_delta edges_new in
  (iterations s, count_clusters (lp_labels s)).

(** The labels after [n] supersteps. *)
Fixpoint labels_after (lp_edges : list lp_edge_row) (n : nat)
         (labels : list label_row) : list label_row :=
  match n with
  | 0 => labels
  | S n' => propagate lp_edges (labels_after lp_edges n' labels)
  end.

End LabelPropagation.

(* ================================================================== *)
(** ** What label propagation is meant to compute *)

Module GraphSpec.
Import LabelPropagation.

(** The entities of the run: the keys [init_labels] gives a row to. *)
Definition entity_keys (run_id : string) (entities_delta : list entity_delta_row)
  : list string :=
  map l_entity_key (init_labels run_id entities_delta).

Definition is_entity (run_id : string) (entities_delta : list entity_delta_row)
           (k : string) : Prop :=
  In k (entity_keys run_id entities_delta).

(** The undirected view of [edges_new]. *)
Definition adjacent (edges_new : list edge_row) (u v : string) : Prop :=
  exists e, In e edges_new /\
            ((left_entity_key e = u /\ right_entity_key e = v) \/
             (left_entity_key e = v /\ right_entity_key e = u)).

(** [v] is in the connected component of [u]. *)
Definition connected (edges_new : list edge_row) : string -> string -> Prop :=
  clos_refl_trans string (adjacent edges_new).

(** Both ends of every edge are entities of the run, as edges built from
    [identifiers_all] of the same run are. *)
Definition edges_over_entities (run_id : string)
           (entities_delta : list entity_delta_row) (edges_new : list edge_row) : Prop :=
  forall e, In e edges_new ->
            is_entity run_id entities_delta (left_entity_key e) /\
            is_entity run_id entities_delta (right_entity_key e).

(** [m] is the least entity key of the connected component of [k]. *)
Definition component_min (edges_new : list edge_row) (k m : string) : Prop :=
  connected edges_new k m /\
  forall v, connected edges_new k v -> StrOrd.le m v.

(** The candidates of [k] in one superstep: its own label and the labels
    of its neighbours. *)
Definition candidate (lp_edges : list lp_edge_row) (labels : list label_row)
           (k x : string) : Prop :=
  In (mk_label k x) labels \/
  exists e l2, In e lp_edges /\ In l2 labels /\
               dst e = l_entity_key l2 /\ src e = k /\ l_label l2 = x.

(** What every superstep keeps: one row per entity, in the order of
    [init_labels]; each label is a key of the entity's component and is
    not above the entity's own key. *)
Definition labels_invariant (run_id : string)
           (entities_delta : list entity_delta_row) (edges_new : list edge_row)
           (labels : list label_row) : Prop :=
  map l_entity_key labels = entity_keys run_id entities_delta /\
  forall r, In r labels ->
            connected edges_new (l_entity_key r) (l_label r) /\
            StrOrd.le (l_label r) (l_entity_key r).

(** Two tables hold the same rows, in any order and multiplicity. *)
Definition same_rows {A : Type} (t1 t2 : list A) : Prop :=
  forall r, In r t1 <-> In r t2.

End GraphSpec.

(* ================================================================== *)
(** ** Sample tables *)

Module Examples.

(** Four entities of run [run_1]. *)
Definition sample_entities : list entity_delta_row :=
  [ mk_entity_delta "run_1" "A" "A:1" 0;
    mk_entity_delta "run_1" "B" "B:2" 0;
    mk_entity_delta "run_1" "C" "C:3" 0;
    mk_entity_delta "run_1" "D" "D:4" 0 ].

(** [A:1] and [B:2] share an email, [B:2] and [C:3] a phone number. *)
Definition sample_identifiers : list identifier_row :=
  [ mk_identifier "B:2" "EMAIL" "x@y.com" 10000;
    mk_identifier "A:1" "EMAIL" "x@y.com" 10000;
    mk_identifier "C:3" "PHONE" "5550100" 10000;
    mk_identifier "B:2" "PHONE" "5550100" 10000;
    mk_identifier "D:4" "EMAIL" "d@y.com" 10000 ].

Definition sample_tables : BuildEdges.tables :=
  BuildEdges.mk_tables sample_identifiers [] (Some []) None [].

(** The same entity extracted twice with the same email, and one more
    entity. *)
Definition repeated_identifiers : list identifier_row :=
  [ mk_identifier "A:1" "EMAIL" "x@y.com" 10;
    mk_identifier "A:1" "EMAIL" "x@y.com" 10;
    mk_identifier "B:2" "EMAIL" "x@y.com" 10 ].

(** A hub: three entities on one support address, under a rule with
    [max_group_size = 2]; the audit table rejects the INSERT. *)
Definition hub_identifiers : list identifier_row :=
  [ mk_identifier "A:1" "EMAIL" "support@y.com" 2;
    mk_identifier "B:2" "EMAIL" "support@y.com" 2;
    mk_identifier "C:3" "EMAIL" "support@y.com" 2 ].

Definition hub_tables_without_audit : BuildEdges.tables :=
  BuildEdges.mk_tables hub_identifiers [] None None [].

Definition hub_tables_with_audit : BuildEdges.tables :=
  BuildEdges.mk_tables hub_identifiers [] (Some []) None [].

End Examples.

(* ================================================================== *)
(** ** Python values and exceptions *)

(** The exceptions the modelled code raises or lets through. *)
Inductive exn :=
| ValueError (msg : string)
| TypeError (msg : string)
| OverflowError (msg : string)
| RuntimeError (msg : string).

(** The outcome of a call that may raise. *)
Inductive result (A : Type) :=
| Ok (a : A)
| Raise (e : exn).

Arguments Ok {A} a.
Arguments Raise {A} e.

(** A Python [float]: every finite double is a rational. *)
Inductive pyfloat :=
| Finite (q : Q)
| PosInf
| NegInf
| NaN.

(** The values a metadata field can hold when it reaches a validator. *)
Inductive pyvalue :=
| PyInt (n : Z)
| PyFloat (f : pyfloat)
| PyStr (s : string)
| PyNone.

(* ================================================================== *)
(** ** Characters, as [re] and [str] see them

    A character is a code point below 256.  The classes are those of
    Python's [re] on [str] patterns restricted to that range. *)

Module Chars.

Definition code (c : ascii) : N := N_of_ascii c.

Definition between (lo hi : N) (c : ascii) : bool :=
  (lo <=? code c)%N && (code c <=? hi)%N.

(** [\s] *)
Definition is_space (c : ascii) : bool :=
  between 9 13 c || between 28 32 c || (code c =? 133)%N || (code c =? 160)%N.

(** [\w] *)
Definition is_word (c : ascii) : bool :=
  between 48 57 c || between 65 90 c || between 97 122 c || (code c =? 95)%N
  || (code c =? 170)%N || between 178 179 c || (code c =? 181)%N
  || between 185 186 c || between 188 190 c
  || between 192 214 c || between 216 246 c || between 248 255 c.

(** ASCII case mapping: [str.upper] / SQL [UPPER], [str.lower] / SQL
    [LOWER], on the letters A-Z and a-z; other code points are kept. *)
Definition upper (c : ascii) : ascii :=
  if between 97 122 c then ascii_of_N (code c - 32) else c.

Definition lower (c : ascii) : ascii :=
  if between 65 90 c then ascii_of_N (code c + 32) else c.

Fixpoint map_string (f : ascii -> ascii) (s : string) : string :=
  match s with
  | EmptyString => EmptyString
  | String c t => String (f c) (map_string f t)
  end.

Definition str_upper : string -> string := map_string upper.
Definition str_lower : string -> string := map_string lower.

End Chars.

(* ================================================================== *)
(** ** config.py: the expression validator *)

Module Validators.
Import Chars.

(** [\s*]: the rest of the text after the longest run of whitespace. *)
Fixpoint skip_spaces (s : string) : string :=
  match s with
  | String c t => if is_space c then skip_spaces t else s
  | EmptyString => EmptyString
  end.

(** A literal of the pattern, matched under [re.IGNORECASE]; the literal
    is given in upper case.  Returns the text after the match. *)
Fixpoint match_literal (literal s : string) : option string :=
  match literal with
  | EmptyString => Some s
  | String k literal' =>
      match s with
      | String c t =>
          if Ascii.eqb (upper c) k then match_literal literal' t else None
      | EmptyString => None
      end
  end.

(** [\b] after a keyword: the keyword ends in a word character, so the
    next character must not be one. *)
Definition boundary_after (s : string) : bool :=
  match s with
  | EmptyString => true
  | String c _ => negb (is_word c)
  end.

(** [\b] before a keyword: the keyword starts with a word character, so
    the previous character must not be one. *)
Definition boundary_before (prev : option ascii) : bool :=
  match prev with
  | None => true
  | Some c => negb (is_word c)
  end.

(** The one-word alternatives of the keyword group. *)
Definition keywords : list string :=
  ["INSERT"; "UPDATE"; "DELETE"; "DROP"; "CREATE"; "ALTER"; "GRANT";
   "REVOKE"; "TRUNCATE"; "EXEC"; "EXECUTE"].

(** [KEYWORD\b] *)
Definition match_keyword (kw s : string) : bool :=
  match match_literal kw s with
  | Some rest => boundary_after rest
  | None => false
  end.

(** [UNION\s+second\b] *)
Definition match_union (second s : string) : bool :=
  match match_literal "UNION" s with
  | Some (String c t) =>
      is_space c &&
      match match_literal second (skip_spaces t) with
      | Some rest => boundary_after rest
      | None => false
      end
  | _ => false
  end.

(** [;\s*$] and [;\s*\w]: after the semicolon and the whitespace, the
    end of the text or a word character. *)
Definition match_terminator (s : string) : bool :=
  match match_literal ";" s with
  | Some rest =>
      match skip_spaces rest with
      | EmptyString => true
      | String c _ => is_word c
      end
  | None => false
  end.

(** [--\s] *)
Definition match_line_comment (s : string) : bool :=
  match match_literal "--" s with
  | Some (String c _) => is_space c
  | _ => false
  end.

(** [/\*] and [\*/] *)
Definition match_token (token s : string) : bool :=
  match match_literal token s with
  | Some _ => true
  | None => false
  end.

(** [\b(INSERT|...|UNION\s+ALL|UNION\s+SELECT)\b] *)
Definition match_keywords (prev : option ascii) (s : string) : bool :=
  boundary_before prev &&
  (existsb (fun kw => match_keyword kw s) keywords
   || match_union "ALL" s || match_union "SELECT" s).

(** The pattern [_DANGEROUS_SQL_RE] matched at one position: [prev] is the
    character before the position, [s] the text from it. *)
Definition dangerous_at (prev : option ascii) (s : string) : bool :=
  match_terminator s
  || match_line_comment s
  || match_token "/*" s
  || match_token "*/" s
  || match_keywords prev s.

(** [_DANGEROUS_SQL_RE.search(value)]: a match at some position. *)
Fixpoint search_from (prev : option ascii) (s : string) : bool :=
  dangerous_at prev s ||
  match s with
  | EmptyString => false
  | String c t => search_from (Some c) t
  end.

Definition dangerous_sql_search (value : string) : bool := search_from None value.

Definition validate_sql_expr (value name : string) : result string :=
  if String.eqb value "" then
    Raise (ValueError (name ++ " cannot be empty"))
  else if dangerous_sql_search value then
    Raise (ValueError
             ("Unsafe SQL detected in " ++ name ++ ": '" ++ value ++ "'. "
              ++ "Expressions must not contain DDL/DML statements, "
              ++ "semicolons, or SQL comments."))
  else Ok value.

(** *** The same pattern, said in words *)

(** The character before the position reached after reading [p]. *)
Fixpoint last_char (prev : option ascii) (p : string) : option ascii :=
  match p with
  | EmptyString => prev
  | String c t => last_char (Some c) t
  end.

Definition all_space (ws : string) : Prop := skip_spaces ws = EmptyString.

(** [w] spells the upper-case literal [kw], in any case. *)
Definition spells (kw w : string) : Prop := match_literal kw w = Some EmptyString.

Definition ends_in_word (p : string) : Prop :=
  exists p' c, p = (p' ++ String c EmptyString)%string /\ is_word c = true.

Definition starts_with_word (s : string) : Prop :=
  exists c t, s = String c t /\ is_word c = true.

(** The text of a blocked keyword: one of [keywords], or UNION, at least
    one whitespace character, then ALL or SELECT. *)
Inductive keyword_text : string -> Prop :=
| kw_single kw w :
    In kw keywords -> spells kw w -> keyword_text w
| kw_union u c ws second w :
    spells "UNION" u -> is_space c = true -> all_space ws ->
    (second = "ALL" \/ second = "SELECT") -> spells second w ->
    keyword_text (u ++ String c ws ++ w)%string.

(** What the pattern blocks. *)
Inductive dangerous_sql : string -> Prop :=
| d_terminator p ws rest :
    all_space ws -> rest = EmptyString \/ starts_with_word rest ->
    dangerous_sql (p ++ ";" ++ ws ++ rest)%string
| d_line_comment p c rest :
    is_space c = true ->
    dangerous_sql (p ++ "--" ++ String c rest)%string
| d_comment_open p rest : dangerous_sql (p ++ "/*" ++ rest)%string
| d_comment_close p rest : dangerous_sql (p ++ "*/" ++ rest)%string
| d_keyword p w rest :
    ~ ends_in_word p -> keyword_text w -> ~ starts_with_word rest ->
    dangerous_sql (p ++ w ++ rest)%string.

(** *** config.py: the numeric validators *)

Definition Qlt_bool (x y : Q) : bool := negb (Qle_bool y x).

(** [a < b] on Python floats: false as soon as one side is NaN. *)
Definition float_lt (a b : pyfloat) : bool :=
  match a, b with
  | NaN, _ | _, NaN => false
  | Finite x, Finite y => Qlt_bool x y
  | NegInf, NegInf => false
  | NegInf, _ => true
  | _, NegInf => false
  | PosInf, _ => false
  | Finite _, PosInf => true
  end.

(** The float literal [1e15]; it is a double, exactly. *)
Definition sanity_bound : Q := inject_Z (10 ^ 15).

(** The least magnitude of an [int] that [float()] refuses to convert:
    the integers that round to a double are those below it. *)
Definition float_overflow_threshold : Z := 2 ^ 1024 - 2 ^ 970.

(** A float whose magnitude is at least [1e15]. *)
Definition magnitude_at_least_bound (f : pyfloat) : Prop :=
  match f with
  | Finite q => (sanity_bound <= Qabs q)%Q
  | PosInf | NegInf => True
  | NaN => False
  end.

Section Coercions.

(** The interpreter's [int(s)] and [float(s)] on a [str] ([None] when they
    raise ValueError) and its [str(f)] on a float. *)
Variable int_of_str : string -> option Z.
Variable float_of_str : string -> option pyfloat.
Variable float_repr : pyfloat -> string.

(** [str(value)], as the f-strings of the messages use it. *)
Definition py_str (value : pyvalue) : string :=
  match value with
  | PyInt n => NilZero.string_of_int (Z.to_int n)
  | PyFloat f => float_repr f
  | PyStr s => s
  | PyNone => "None"
  end.

(** [int(value)] *)
Definition py_int (value : pyvalue) : result Z :=
  match value with
  | PyInt n => Ok n
  | PyFloat (Finite q) => Ok (Z.quot (Qnum q) (Zpos (Qden q)))
  | PyFloat NaN => Raise (ValueError "cannot convert float NaN to integer")
  | PyFloat _ => Raise (OverflowError "cannot convert float infinity to integer")
  | PyStr s =>
      match int_of_str s with
      | Some n => Ok n
      | None => Raise (ValueError ("invalid literal for int() with base 10: " ++ s))
      end
  | PyNone => Raise (TypeError "int() argument must be a string or a real number")
  end.

(** [float(value)].  The double nearest to an [int] is given as the
    integer itself; the two agree below [2^53], and rounding is monotone
    and keeps [1e15], so the range test below is not affected. *)
Definition py_float (value : pyvalue) : result pyfloat :=
  match value with
  | PyInt n =>
      if (Z.abs n <? float_overflow_threshold)%Z
      then Ok (Finite (inject_Z n))
      else Raise (OverflowError "int too large to convert to float")
  | PyFloat f => Ok f
  | PyStr s =>
      match float_of_str s with
      | Some f => Ok f
      | None => Raise (ValueError ("could not convert string to float: " ++ s))
      end
  | PyNone => Raise (TypeError "float() argument must be a string or a real number")
  end.

(** [validate_integer]: [except (TypeError, ValueError)] turns the two
    into a ValueError; any other exception passes through. *)
Definition validate_integer (value : pyvalue) (name : string) : result Z :=
  match py_int value with
  | Ok result => Ok result
  | Raise (TypeError _) | Raise (ValueError _) =>
      Raise (ValueError ("Invalid integer for " ++ name ++ ": '"
                         ++ py_str value ++ "'"))
  | Raise e => Raise e
  end.

(** [validate_float]: the ValueError of the range test is raised inside
    the [try] and so is re-raised by the [except] clause as well. *)
Definition validate_float (value : pyvalue) (name : string) : result pyfloat :=
  match py_float value with
  | Ok result =>
      if negb (float_lt (Finite (- sanity_bound)) result
               && float_lt result (Finite sanity_bound))
      then Raise (ValueError ("Invalid float for " ++ name ++ ": '"
                              ++ py_str value ++ "'"))
      else Ok result
  | Raise (TypeError _) | Raise (ValueError _) =>
      Raise (ValueError ("Invalid float for " ++ name ++ ": '"
                         ++ py_str value ++ "'"))
  | Raise e => Raise e
  end.

End Coercions.

End Validators.

(* ================================================================== *)
(** ** stages/base.py and stages/extraction.py: canonicalization *)

Module ExtractionStage.
Import Chars.

(** [BaseStage._CANONICALIZE_ENUM] *)
Definition CANONICALIZE_ENUM : list string :=
  ["LOWERCASE"; "UPPERCASE"; "NONE"; ""].

(** The [enum] branch of [_validate_metadata_value]:
    [str(value).upper() if value else ""], which must be in the enum; the
    ValueError is wrapped into a RuntimeError.  [None] is Python's None. *)
Definition validate_enum (value : option string) (field_name : string)
  : result string :=
  let str_val :=
    match value with
    | Some s => if String.eqb s "" then "" else str_upper s
    | None => ""
    end in
  if existsb (String.eqb str_val) CANONICALIZE_ENUM then Ok str_val
  else Raise (RuntimeError
                ("Metadata validation failed for " ++ field_name
                 ++ ". Check your idr_meta configuration for unsafe values.")).

(** The text [extract_identifiers] selects as [identifier_value_norm]. *)
Definition canonicalize_expr (canonicalize value_expr : string) : string :=
  if String.eqb canonicalize "LOWERCASE" then "LOWER(" ++ value_expr ++ ")"
  else if String.eqb canonicalize "UPPERCASE" then "UPPER(" ++ value_expr ++ ")"
  else value_expr.

(** SQL's [LOWER] and [UPPER]; [None] is NULL. *)
Definition sql_lower (x : option string) : option string := option_map str_lower x.
Definition sql_upper (x : option string) : option string := option_map str_upper x.

(** The value of [canonicalize_expr canonicalize value_expr] on a row
    where [value_expr] has the value [x]. *)
Definition canonicalize_value (canonicalize : string) (x : option string)
  : option string :=
  if String.eqb canonicalize "LOWERCASE" then sql_lower x
  else if String.eqb canonicalize "UPPERCASE" then sql_upper x
  else x.

End ExtractionStage.

(* ================================================================== *)
(** ** Rows of the output tables ([idr_out]) *)

(** [idr_out.identity_resolved_membership_current] *)
Record membership_row := mk_membership {
  m_entity_key : string;
  m_resolved_id : string;
  m_updated_at : Z;
  m_run_id : string;
  m_super_cluster_id : option string
}.

(** [idr_out.identity_edges_current] *)
Record current_edge_row := mk_current_edge {
  ce_left_entity_key : string;
  ce_right_entity_key : string;
  ce_identifier_type : string;
  ce_identifier_value_norm : string;
  ce_first_seen_ts : Z;
  ce_last_seen_ts : option Z;
  ce_run_id : string
}.

(** [idr_out.identity_clusters_current] *)
Record cluster_row := mk_cluster {
  c_resolved_id : string;
  c_cluster_size : nat;
  c_updated_at : Z;
  c_run_id : string;
  c_super_cluster_id : option string;
  c_confidence_score : Q;
  c_primary_reason : string
}.

(** [idr_work.cluster_sizes_updates] *)
Record cluster_size_row := mk_cluster_size {
  cs_resolved_id : string;
  cs_cluster_size : nat
}.

(** [idr_work.cluster_edge_stats] *)
Record edge_stats_row := mk_edge_stats {
  es_resolved_id : string;
  es_edge_diversity : nat;
  es_edge_count : nat
}.

(** [idr_work.cluster_density] *)
Record density_row := mk_density {
  cd_resolved_id : string;
  cd_cluster_size : nat;
  cd_edge_diversity : nat;
  cd_edge_count : nat;
  cd_match_density : Q
}.

(** [idr_work.cluster_confidence] *)
Record confidence_row := mk_confidence {
  cc_resolved_id : string;
  cc_cluster_size : nat;
  cc_edge_diversity : nat;
  cc_match_density : Q;
  cc_confidence_score : Q;
  cc_primary_reason : string
}.

(* ================================================================== *)
(** ** OutputStage.compute_confidence_scores

    FLOAT arithmetic is carried out on rationals: sums, products and
    quotients are exact, and [ROUND(x, 3)] rounds the exact value. *)

Module Confidence.

(** [CAST(n AS FLOAT)] *)
Definition to_float (n : nat) : Q := inject_Z (Z.of_nat n).

(** [CAST(n AS VARCHAR)] *)
Definition to_varchar (n : nat) : string := NilEmpty.string_of_uint (Nat.to_uint n).

(** [ROUND(x, 3)], halves away from zero. *)
Definition round3 (x : Q) : Q :=
  if Qle_bool 0 x
  then inject_Z (Qfloor (x * 1000 + (1 # 2))) / 1000
  else - (inject_Z (Qfloor (- x * 1000 + (1 # 2))) / 1000).

(** [x >= y] on FLOAT values. *)
Definition ge (x y : Q) : bool := Qle_bool y x.

(** [resolved_id IN (SELECT resolved_id FROM idr_work.impacted_resolved_ids)] *)
Definition impacted (impacted_resolved_ids : list string) (m : membership_row) : bool :=
  existsb (String.eqb (m_resolved_id m)) impacted_resolved_ids.

(** Step 0: [cluster_sizes_updates]. *)
Definition cluster_sizes_updates (membership : list membership_row)
           (impacted_resolved_ids : list string) : list cluster_size_row :=
  let rows := filter (impacted impacted_resolved_ids) membership in
  map (fun rid =>
         mk_cluster_size
           rid
           (List.length (filter (fun m => String.eqb (m_resolved_id m) rid) rows)))
      (Sql.distinct String.eqb (map m_resolved_id rows)).

(** Step 1: [cluster_edge_stats]: members joined to the edges that touch
    them, grouped by cluster. *)
Definition cluster_edge_stats (membership : list membership_row)
           (edges : list current_edge_row) (impacted_resolved_ids : list string)
  : list edge_stats_row :=
  let joined :=
    flat_map
      (fun m =>
         map (fun e => (m, e))
             (filter (fun e => String.eqb (ce_left_entity_key e) (m_entity_key m)
                               || String.eqb (ce_right_entity_key e) (m_entity_key m))
                     edges))
      (filter (impacted impacted_resolved_ids) membership) in
  map (fun rid =>
         let group :=
           filter (fun me => String.eqb (m_resolved_id (fst me)) rid) joined in
         mk_edge_stats
           rid
           (List.length
              (Sql.distinct String.eqb
                 (map (fun me => ce_identifier_type (snd me)) group)))
           (List.length group))
      (Sql.distinct String.eqb (map (fun me => m_resolved_id (fst me)) joined)).

(** The [match_density] column. *)
Definition match_density (cluster_size edge_count : nat) : Q :=
  if cluster_size <=? 1 then 1
  else Qmin 1 (to_float edge_count / (to_float cluster_size - 1)).

(** Step 2: [cluster_density]: sizes LEFT JOIN edge stats, with
    [COALESCE(..., 0)] for clusters without edges. *)
Definition cluster_density (sizes : list cluster_size_row)
           (stats : list edge_stats_row) : list density_row :=
  flat_map
    (fun c =>
       match filter (fun es => String.eqb (es_resolved_id es) (cs_resolved_id c))
                    stats with
       | [] =>
           [mk_density (cs_resolved_id c) (cs_cluster_size c) 0 0
                       (match_density (cs_cluster_size c) 0)]
       | matches =>
           map (fun es =>
                  mk_density (cs_resolved_id c) (cs_cluster_size c)
                             (es_edge_diversity es) (es_edge_count es)
                             (match_density (cs_cluster_size c) (es_edge_count es)))
               matches
       end)
    sizes.

(** Step 3: [GREATEST(1, MAX(edge_diversity))]. *)
Definition max_diversity (density : list density_row) : nat :=
  Nat.max 1 (fold_right Nat.max 0 (map cd_edge_diversity density)).

(** The [confidence_score] column. *)
Definition confidence_score (cd : density_row) (max_div : nat) : Q :=
  if cd_cluster_size cd =? 1 then 1
  else round3 ((50 # 100) * (to_float (cd_edge_diversity cd) / to_float max_div)
               + (35 # 100) * cd_match_density cd
               + (15 # 100) * 1).

(** The [primary_reason] column. *)
Definition primary_reason (cd : density_row) : string :=
  let div := cd_edge_diversity cd in
  let density := cd_match_density cd in
  if cd_cluster_size cd =? 1 then "SINGLETON_NO_MATCH_REQUIRED"
  else if (3 <=? div) && ge density (8 # 10) then
    to_varchar div ++ " identifier types, high density"
  else if (2 <=? div) && ge density (5 # 10) then
    to_varchar div ++ " identifier types, moderate density"
  else if (div =? 1) && ge density (8 # 10) then
    "Single identifier type, high density"
  else if (div =? 1) && negb (ge density (5 # 10)) then
    "Single identifier type, chain pattern"
  else
    to_varchar div ++ " identifier type(s), "
    ++ (if ge density (5 # 10) then "moderate" else "low") ++ " density".

(** Step 4: [cluster_confidence]: every density row, beside the single row
    of [max_diversity]. *)
Definition cluster_confidence (density : list density_row) (max_div : nat)
  : list confidence_row :=
  map (fun cd =>
         mk_confidence (cd_resolved_id cd) (cd_cluster_size cd)
                       (cd_edge_diversity cd) (cd_match_density cd)
                       (confidence_score cd max_div) (primary_reason cd))
      density.

(** [compute_confidence_scores]: the table [idr_work.cluster_confidence]
    it leaves behind. *)
Definition compute_confidence_scores (membership : list membership_row)
           (edges : list current_edge_row) (impacted_resolved_ids : list string)
  : list confidence_row :=
  let density :=
    cluster_density (cluster_sizes_updates membership impacted_resolved_ids)
                    (cluster_edge_stats membership edges impacted_resolved_ids) in
  cluster_confidence density (max_diversity density).

End Confidence.

(* ================================================================== *)
(** ** GraphStage.run_fuzzy_matching: scoring the pairs of one rule *)

Module Fuzzy.

(** [idr_work.cluster_attributes] *)
Record cluster_attribute_row := mk_cluster_attribute {
  ca_resolved_id : string;
  ca_attribute_name : string;
  ca_attribute_value : string
}.

(** A row of the rule's profile table: [resolved_id] and the pivoted
    columns [attr_0], [attr_1], ... ([None] is NULL). *)
Record profile_row := mk_profile {
  p_resolved_id : string;
  p_attrs : list (option string)
}.

(** The [scored_pairs] CTE. *)
Record scored_pair := mk_scored_pair {
  left_id : string;
  right_id : string;
  sp_score : option Q
}.

(** [idr_work.fuzzy_edges] *)
Record fuzzy_edge_row := mk_fuzzy_edge {
  left_create_id : string;
  right_create_id : string;
  fe_score : Q
}.

Definition str_max (a b : string) : string := if String.leb a b then b else a.

(** [MAX(col)] over strings. *)
Fixpoint sql_max_str (l : list string) : option string :=
  match l with
  | [] => None
  | x :: t =>
      match sql_max_str t with
      | None => Some x
      | Some m => Some (str_max x m)
      end
  end.

(** The profile table of a rule:
    [SELECT resolved_id, MAX(CASE WHEN attribute_name = name THEN
     attribute_value END) AS attr_i ... FROM idr_work.cluster_attributes
     WHERE attribute_name IN (referenced_attrs) GROUP BY resolved_id]. *)
Definition profile_table (referenced_attrs : list string)
           (cluster_attributes : list cluster_attribute_row) : list profile_row :=
  let rows :=
    filter (fun r => existsb (String.eqb (ca_attribute_name r)) referenced_attrs)
           cluster_attributes in
  map (fun rid =>
         mk_profile
           rid
           (map (fun name =>
                   sql_max_str
                     (map ca_attribute_value
                          (filter (fun r => String.eqb (ca_resolved_id r) rid
                                            && String.eqb (ca_attribute_name r) name)
                                  rows)))
                referenced_attrs))
      (Sql.distinct String.eqb (map ca_resolved_id rows)).

(** The hard ceiling on the size of a block. *)
Definition max_block_size : Z := 10000.

Section Rule.

(** The rule's blocking-key and score expressions, as the warehouse
    evaluates them on profile rows ([None] is NULL); the dialect's [md5];
    the rule's threshold. *)
Variable blocking_key : profile_row -> option string.
Variable score_expr : profile_row -> profile_row -> option Q.
Variable md5 : string -> string.
Variable threshold : Q.

(** [profile_with_bk]: the rows whose blocking key is not NULL, with it. *)
Definition profile_with_bk (profile : list profile_row)
  : list (profile_row * string) :=
  flat_map (fun p => match blocking_key p with
                     | Some bk => [(p, bk)]
                     | None => []
                     end)
           profile.

(** [block_sizes]: [COUNT( * )] of one block. *)
Definition block_size (bk : string) (rows : list (profile_row * string)) : nat :=
  List.length (filter (fun r => String.eqb (snd r) bk) rows).

(** [valid_blocks]: the blocks within the ceiling. *)
Definition valid_blocks (rows : list (profile_row * string)) : list string :=
  filter (fun bk => (Z.of_nat (block_size bk rows) <=? max_block_size)%Z)
         (Sql.distinct String.eqb (map snd rows)).

(** The deterministic pair filter [md5(a.resolved_id) < md5(b.resolved_id)]. *)
Definition id_compare (a b : profile_row) : bool :=
  String.ltb (md5 (p_resolved_id a)) (md5 (p_resolved_id b)).

(** [scored_pairs]:
    [profile_with_bk a JOIN profile_with_bk b ON a.bk = b.bk AND id_compare
     JOIN valid_blocks vb ON a.bk = vb.bk]. *)
Definition scored_pairs (profile : list profile_row) : list scored_pair :=
  let rows := profile_with_bk profile in
  flat_map
    (fun a =>
       flat_map
         (fun b =>
            if String.eqb (snd a) (snd b) && id_compare (fst a) (fst b) then
              flat_map
                (fun vb =>
                   if String.eqb (snd a) vb then
                     [mk_scored_pair (p_resolved_id (fst a)) (p_resolved_id (fst b))
                                     (score_expr (fst a) (fst b))]
                   else [])
                (valid_blocks rows)
            else [])
         rows)
    rows.

(** [SELECT left_id, right_id, score FROM scored_pairs
     WHERE score >= threshold]: a NULL score is not kept. *)
Definition new_fuzzy_edges (profile : list profile_row) : list fuzzy_edge_row :=
  flat_map
    (fun sp =>
       match sp_score sp with
       | Some s => if Qle_bool threshold s
                   then [mk_fuzzy_edge (left_id sp) (right_id sp) s]
                   else []
       | None => []
       end)
    (scored_pairs profile).

(** The comparisons made of the ordered pair [(x, y)] of cluster ids. *)
Definition comparisons (x y : string) (profile : list profile_row)
  : list scored_pair :=
  filter (fun sp => String.eqb (left_id sp) x && String.eqb (right_id sp) y)
         (scored_pairs profile).

End Rule.

End Fuzzy.

(* ================================================================== *)
(** ** A sample fuzzy rule *)

Module FuzzyExamples.
Import Fuzzy.

(** Two clusters with the same postal code and one with another. *)
Definition sample_cluster_attributes : list cluster_attribute_row :=
  [ mk_cluster_attribute "A:1" "zip" "90210";
    mk_cluster_attribute "B:7" "zip" "90210";
    mk_cluster_attribute "C:9" "zip" "10001" ].

(** Blocking key [zip]: the first pivoted column. *)
Definition sample_blocking_key (p : profile_row) : option string :=
  match p_attrs p with
  | v :: _ => v
  | [] => None
  end.

(** A score expression that evaluates to 0.85 on every pair. *)
Definition sample_score (a b : profile_row) : option Q := Some (85 # 100)%Q.

(** A stand-in for the dialect's digest: the identifier itself. *)
Definition sample_md5 (s : string) : string := s.

Definition sample_profile : list profile_row :=
  profile_table ["zip"] sample_cluster_attributes.

End FuzzyExamples.

(* ================================================================== *)
(** ** The warehouse: metadata, working and output tables *)

(** [idr_meta.source_table] (the columns preflight reads) *)
Record source_table_row := mk_source_table {
  st_table_id : string;
  st_table_fqn : string;
  st_is_active : bool
}.

(** [idr_meta.rule] *)
Record rule_row := mk_rule {
  r_rule_id : string;
  r_identifier_type : string;
  r_is_active : bool
}.

(** [idr_meta.identifier_mapping] *)
Record identifier_mapping_row := mk_identifier_mapping {
  im_table_id : string;
  im_identifier_type : string;
  im_identifier_value_expr : string
}.

(** [idr_meta.run_state] *)
Record run_state_row := mk_run_state {
  rs_table_id : string;
  rs_last_watermark_value : Z;
  rs_last_run_id : string;
  rs_updated_at : Z
}.

(** [idr_work.entity_attributes] *)
Record entity_attribute_row := mk_entity_attribute {
  ea_entity_key : string;
  ea_attribute_name : string;
  ea_attribute_value : string
}.

(** [idr_work.fuzzy_results] *)
Record fuzzy_result_row := mk_fuzzy_result {
  fr_resolved_id : string;
  fr_super_cluster_id : string
}.

(** [idr_out.run_history].  Timestamps are microseconds since the epoch. *)
Record run_history_row := mk_run_history {
  rh_run_id : string;
  rh_run_mode : string;
  rh_status : string;
  rh_started_at : Z;
  rh_created_at : Z;
  rh_source_tables_processed : nat;
  rh_config_hash : option string;
  rh_duration_seconds : option Z;
  rh_entities_processed : option nat;
  rh_edges_created : option nat;
  rh_clusters_impacted : option nat;
  rh_lp_iterations : option nat;
  rh_error_message : option string
}.

(** [idr_out.stage_metrics] *)
Record stage_metric_row := mk_stage_metric {
  sm_run_id : string;
  sm_stage_name : string;
  sm_stage_order : nat;
  sm_started_at : Z;
  sm_ended_at : Z;
  sm_duration_seconds : Z;
  sm_rows_out : nat
}.

(** [idr_out.config_snapshot] (the JSON columns are not modelled) *)
Record config_snapshot_row := mk_config_snapshot {
  cf_config_hash : string;
  cf_created_at : Z
}.

(** [idr_out.dry_run_results] *)
Record dry_run_result_row := mk_dry_run_result {
  dr_entity_key : string;
  dr_current_resolved_id : option string;
  dr_new_resolved_id : string;
  dr_change_type : string;
  dr_run_id : string
}.

(** [idr_out.dry_run_summary] *)
Record dry_run_summary_row := mk_dry_run_summary {
  ds_run_id : string;
  ds_new_entities : nat;
  ds_moved_entities : nat;
  ds_unchanged_entities : nat;
  ds_total_entities : nat;
  ds_analyzed_at : Z
}.

(** [idr_out.unified_profile]: one row per cluster, one value per
    survivorship rule. *)
Record unified_profile_row := mk_unified_profile {
  up_resolved_id : string;
  up_run_id : string;
  up_updated_at : Z;
  up_attributes : list (option string)
}.

(** The adapter's dialect. *)
Inductive dialect := duckdb | postgres | snowflake | bigquery | databricks.

(** The state of the warehouse a run reads and writes.  The source tables
    themselves are never written and are not part of it. *)
Record store := mk_store {
  (* catalog *)
  existing_tables : list string;
  table_columns : string -> option (list string);
  (* idr_meta *)
  source_table : list source_table_row;
  rule : list rule_row;
  identifier_mapping : list identifier_mapping_row;
  run_state : list run_state_row;
  (* idr_work *)
  entities_delta : list entity_delta_row;
  identifiers_all : list identifier_row;
  entity_attributes : list entity_attribute_row;
  edges_new : list edge_row;
  lp_labels : list label_row;
  fuzzy_results : list fuzzy_result_row;
  cluster_confidence : list confidence_row;
  (* idr_out *)
  run_history : list run_history_row;
  stage_metrics : list stage_metric_row;
  config_snapshot : BuildEdges.optional_table config_snapshot_row;
  skipped_identifier_groups : BuildEdges.optional_table skipped_group_row;
  edge_evidence : BuildEdges.optional_table edge_evidence_row;
  membership : list membership_row;
  clusters : list cluster_row;
  edges_current : list current_edge_row;
  unified_profile : list unified_profile_row;
  dry_run_results : list dry_run_result_row;
  dry_run_summary : list dry_run_summary_row
}.

(** [RunConfig], after [__post_init__]: [run_mode] is FULL or INCR. *)
Record RunConfig := mk_RunConfig {
  run_mode : string;
  max_iters : nat;
  dry_run : bool;
  strict : bool
}.

(** [RunResult] ([duration_seconds] is left out). *)
Record RunResult := mk_RunResult {
  result_run_id : string;
  status : string;
  entities_processed : nat;
  identifiers_extracted : nat;
  edges_created : nat;
  clusters_impacted : nat;
  lp_iterations : nat;
  result_warnings : list string;
  error : option string
}.

(** [StageMetric] *)
Record StageMetric := mk_StageMetric {
  stage_name : string;
  started_at : Z;
  ended_at : option Z;
  rows_affected : nat
}.

(* ================================================================== *)
(** ** Writing one table of the warehouse *)

Module Write.

Definition set_table_columns (v : string -> option (list string)) (s : store) : store :=
  mk_store (existing_tables s) v (source_table s) (rule s)
    (identifier_mapping s) (run_state s) (entities_delta s)
    (identifiers_all s) (entity_attributes s) (edges_new s) (lp_labels s)
    (fuzzy_results s) (cluster_confidence s) (run_history s)
    (stage_metrics s) (config_snapshot s) (skipped_identifier_groups s)
    (edge_evidence s) (membership s) (clusters s) (edges_current s)
    (unified_profile s) (dry_run_results s) (dry_run_summary s).

Definition set_run_state (v : list run_state_row) (s : store) : store :=
  mk_store (existing_tables s) (table_columns s) (source_table s) (rule s)
    (identifier_mapping s) v (entities_delta s) (identifiers_all s)
    (entity_attributes s) (edges_new s) (lp_labels s) (fuzzy_results s)
    (cluster_confidence s) (run_history s) (stage_metrics s)
    (config_snapshot s) (skipped_identifier_groups s) (edge_evidence s)
    (membership s) (clusters s) (edges_current s) (unified_profile s)
    (dry_run_results s) (dry_run_summary s).

Definition set_entities_delta (v : list entity_delta_row) (s : store) : store :=
  mk_store (existing_tables s) (table_columns s) (source_table s) (rule s)
    (identifier_mapping s) (run_state s) v (identifiers_all s)
    (entity_attributes s) (edges_new s) (lp_labels s) (fuzzy_results s)
    (cluster_confidence s) (run_history s) (stage_metrics s)
    (config_snapshot s) (skipped_identifier_groups s) (edge_evidence s)
    (membership s) (clusters s) (edges_current s) (unified_profile s)
    (dry_run_results s) (dry_run_summary s).

Definition set_identifiers_all (v : list identifier_row) (s : store) : store :=
  mk_store (existing_tables s) (table_columns s) (source_table s) (rule s)
    (identifier_mapping s) (run_state s) (entities_delta s) v
    (entity_attributes s) (edges_new s) (lp_labels s) (fuzzy_results s)
    (cluster_confidence s) (run_history s) (stage_metrics s)
    (config_snapshot s) (skipped_identifier_groups s) (edge_evidence s)
    (membership s) (clusters s) (edges_current s) (unified_profile s)
    (dry_run_results s) (dry_run_summary s).

Definition set_entity_attributes (v : list entity_attribute_row) (s : store) : store :=
  mk_store (existing_tables s) (table_columns s) (source_table s) (rule s)
    (identifier_mapping s) (run_state s) (entities_delta s)
    (identifiers_all s) v (edges_new s) (lp_labels s) (fuzzy_results s)
    (cluster_confidence s) (run_history s) (stage_metrics s)
    (config_snapshot s) (skipped_identifier_groups s) (edge_evidence s)
    (membership s) (clusters s) (edges_current s) (unified_profile s)
    (dry_run_results s) (dry_run_summary s).

Definition set_edges_new (v : list edge_row) (s : store) : store :=
  mk_store (existing_tables s) (table_columns s) (source_table s) (rule s)
    (identifier_mapping s) (run_state s) (entities_delta s)
    (identifiers_all s) (entity_attributes s) v (lp_labels s)
    (fuzzy_results s) (cluster_confidence s) (run_history s)
    (stage_metrics s) (config_snapshot s) (skipped_identifier_groups s)
    (edge_evidence s) (membership s) (clusters s) (edges_current s)
    (unified_profile s) (dry_run_results s) (dry_run_summary s).

Definition set_lp_labels (v : list label_row) (s : store) : store :=
  mk_store (existing_tables s) (table_columns s) (source_table s) (rule s)
    (identifier_mapping s) (run_state s) (entities_delta s)
    (identifiers_all s) (entity_attributes s) (edges_new s) v
    (fuzzy_results s) (cluster_confidence s) (run_history s)
    (stage_metrics s) (config_snapshot s) (skipped_identifier_groups s)
    (edge_evidence s) (membership s) (clusters s) (edges_current s)
    (unified_profile s) (dry_run_results s) (dry_run_summary s).

Definition set_fuzzy_results (v : list fuzzy_result_row) (s : store) : store :=
  mk_store (existing_tables s) (table_columns s) (source_table s) (rule s)
    (identifier_mapping s) (run_state s) (entities_delta s)
    (identifiers_all s) (entity_attributes s) (edges_new s) (lp_labels s) v
    (cluster_confidence s) (run_history s) (stage_metrics s)
    (config_snapshot s) (skipped_identifier_groups s) (edge_evidence s)
    (membership s) (clusters s) (edges_current s) (unified_profile s)
    (dry_run_results s) (dry_run_summary s).

Definition set_cluster_confidence (v : list confidence_row) (s : store) : store :=
  mk_store (existing_tables s) (table_columns s) (source_table s) (rule s)
    (identifier_mapping s) (run_state s) (entities_delta s)
    (identifiers_all s) (entity_attributes s) (edges_new s) (lp_labels s)
    (fuzzy_results s) v (run_history s) (stage_metrics s)
    (config_snapshot s) (skipped_identifier_groups s) (edge_evidence s)
    (membership s) (clusters s) (edges_current s) (unified_profile s)
    (dry_run_results s) (dry_run_summary s).

Definition set_run_history (v : list run_history_row) (s : store) : store :=
  mk_store (existing_tables s) (table_columns s) (source_table s) (rule s)
    (identifier_mapping s) (run_state s) (entities_delta s)
    (identifiers_all s) (entity_attributes s) (edges_new s) (lp_labels s)
    (fuzzy_results s) (cluster_confidence s) v (stage_metrics s)
    (config_snapshot s) (skipped_identifier_groups s) (edge_evidence s)
    (membership s) (clusters s) (edges_current s) (unified_profile s)
    (dry_run_results s) (dry_run_summary s).

Definition set_stage_metrics (v : list stage_metric_row) (s : store) : store :=
  mk_store (existing_tables s) (table_columns s) (source_table s) (rule s)
    (identifier_mapping s) (run_state s) (entities_delta s)
    (identifiers_all s) (entity_attributes s) (edges_new s) (lp_labels s)
    (fuzzy_results s) (cluster_confidence s) (run_history s) v
    (config_snapshot s) (skipped_identifier_groups s) (edge_evidence s)
    (membership s) (clusters s) (edges_current s) (unified_profile s)
    (dry_run_results s) (dry_run_summary s).

Definition set_config_snapshot (v : BuildEdges.optional_table config_snapshot_row) (s : store) : store :=
  mk_store (existing_tables s) (table_columns s) (source_table s) (rule s)
    (identifier_mapping s) (run_state s) (entities_delta s)
    (identifiers_all s) (entity_attributes s) (edges_new s) (lp_labels s)
    (fuzzy_results s) (cluster_confidence s) (run_history s)
    (stage_metrics s) v (skipped_identifier_groups s) (edge_evidence s)
    (membership s) (clusters s) (edges_current s) (unified_profile s)
    (dry_run_results s) (dry_run_summary s).

Definition set_skipped_identifier_groups (v : BuildEdges.optional_table skipped_group_row) (s : store) : store :=
  mk_store (existing_tables s) (table_columns s) (source_table s) (rule s)
    (identifier_mapping s) (run_state s) (entities_delta s)
    (identifiers_all s) (entity_attributes s) (edges_new s) (lp_labels s)
    (fuzzy_results s) (cluster_confidence s) (run_history s)
    (stage_metrics s) (config_snapshot s) v (edge_evidence s) (membership s)
    (clusters s) (edges_current s) (unified_profile s) (dry_run_results s)
    (dry_run_summary s).

Definition set_edge_evidence (v : BuildEdges.optional_table edge_evidence_row) (s : store) : store :=
  mk_store (existing_tables s) (table_columns s) (source_table s) (rule s)
    (identifier_mapping s) (run_state s) (entities_delta s)
    (identifiers_all s) (entity_attributes s) (edges_new s) (lp_labels s)
    (fuzzy_results s) (cluster_confidence s) (run_history s)
    (stage_metrics s) (config_snapshot s) (skipped_identifier_groups s) v
    (membership s) (clusters s) (edges_current s) (unified_profile s)
    (dry_run_results s) (dry_run_summary s).

Definition set_membership (v : list membership_row) (s : store) : store :=
  mk_store (existing_tables s) (table_columns s) (source_table s) (rule s)
    (identifier_mapping s) (run_state s) (entities_delta s)
    (identifiers_all s) (entity_attributes s) (edges_new s) (lp_labels s)
    (fuzzy_results s) (cluster_confidence s) (run_history s)
    (stage_metrics s) (config_snapshot s) (skipped_identifier_groups s)
    (edge_evidence s) v (clusters s) (edges_current s) (unified_profile s)
    (dry_run_results s) (dry_run_summary s).

Definition set_clusters (v : list cluster_row) (s : store) : store :=
  mk_store (existing_tables s) (table_columns s) (source_table s) (rule s)
    (identifier_mapping s) (run_state s) (entities_delta s)
    (identifiers_all s) (entity_attributes s) (edges_new s) (lp_labels s)
    (fuzzy_results s) (cluster_confidence s) (run_history s)
    (stage_metrics s) (config_snapshot s) (skipped_identifier_groups s)
    (edge_evidence s) (membership s) v (edges_current s) (unified_profile s)
    (dry_run_results s) (dry_run_summary s).

Definition set_edges_current (v : list current_edge_row) (s : store) : store :=
  mk_store (existing_tables s) (table_columns s) (source_table s) (rule s)
    (identifier_mapping s) (run_state s) (entities_delta s)
    (identifiers_all s) (entity_attributes s) (edges_new s) (lp_labels s)
    (fuzzy_results s) (cluster_confidence s) (run_history s)
    (stage_metrics s) (config_snapshot s) (skipped_identifier_groups s)
    (edge_evidence s) (membership s) (clusters s) v (unified_profile s)
    (dry_run_results s) (dry_run_summary s).

Definition set_unified_profile (v : list unified_profile_row) (s : store) : store :=
  mk_store (existing_tables s) (table_columns s) (source_table s) (rule s)
    (identifier_mapping s) (run_state s) (entities_delta s)
    (identifiers_all s) (entity_attributes s) (edges_new s) (lp_labels s)
    (fuzzy_results s) (cluster_confidence s) (run_history s)
    (stage_metrics s) (config_snapshot s) (skipped_identifier_groups s)
    (edge_evidence s) (membership s) (clusters s) (edges_current s) v
    (dry_run_results s) (dry_run_summary s).

Definition set_dry_run_results (v : list dry_run_result_row) (s : store) : store :=
  mk_store (existing_tables s) (table_columns s) (source_table s) (rule s)
    (identifier_mapping s) (run_state s) (entities_delta s)
    (identifiers_all s) (entity_attributes s) (edges_new s) (lp_labels s)
    (fuzzy_results s) (cluster_confidence s) (run_history s)
    (stage_metrics s) (config_snapshot s) (skipped_identifier_groups s)
    (edge_evidence s) (membership s) (clusters s) (edges_current s)
    (unified_profile s) v (dry_run_summary s).

Definition set_dry_run_summary (v : list dry_run_summary_row) (s : store) : store :=
  mk_store (existing_tables s) (table_columns s) (source_table s) (rule s)
    (identifier_mapping s) (run_state s) (entities_delta s)
    (identifiers_all s) (entity_attributes s) (edges_new s) (lp_labels s)
    (fuzzy_results s) (cluster_confidence s) (run_history s)
    (stage_metrics s) (config_snapshot s) (skipped_identifier_groups s)
    (edge_evidence s) (membership s) (clusters s) (edges_current s)
    (unified_profile s) (dry_run_results s) v.

End Write.

(* ================================================================== *)
(** ** The run as a computation over the warehouse

    A stage reads and writes the warehouse, appends warnings, and may
    raise; what it wrote before raising stays written. *)

Module Pipe.

(** The warehouse together with the runner's own lists. *)
Record state := mk_state {
  db : store;
  warnings : list string;
  metrics : list StageMetric
}.

Definition M (A : Type) : Type := state -> result A * state.

Definition ret {A : Type} (a : A) : M A := fun s => (Ok a, s).

Definition bind {A B : Type} (m : M A) (f : A -> M B) : M B :=
  fun s =>
    match m s with
    | (Ok a, s') => f a s'
    | (Raise e, s') => (Raise e, s')
    end.

Definition raise {A : Type} (e : exn) : M A := fun s => (Raise e, s).

Definition lift {A : Type} (r : result A) : M A := fun s => (r, s).

Definition get_db : M store := fun s => (Ok (db s), s).

(** [adapter.execute] of a statement that rewrites tables. *)
Definition execute (f : store -> store) : M unit :=
  fun s => (Ok tt, mk_state (f (db s)) (warnings s) (metrics s)).

(** [self._warnings.append(msg)] *)
Definition warn (msg : string) : M unit :=
  fun s => (Ok tt, mk_state (db s) (warnings s ++ [msg]) (metrics s)).

Definition update_metrics (f : list StageMetric -> list StageMetric) : M unit :=
  fun s => (Ok tt, mk_state (db s) (warnings s) (f (metrics s))).

End Pipe.

Notation "x <- m ;; k" := (Pipe.bind m (fun x => k))
  (at level 61, m at next level, right associativity).
Notation "m ;;; k" := (Pipe.bind m (fun _ => k))
  (at level 61, right associativity).

(* ================================================================== *)
(** ** stages/preflight.py *)

Module Preflight.
Import Pipe.

(** [INTERVAL '4 hours'], in microseconds. *)
Definition four_hours : Z := 4 * 3600 * 1000000.

(** [started_at < CURRENT_TIMESTAMP - INTERVAL '4 hours'] (the BigQuery
    spelling [TIMESTAMP_SUB] means the same). *)
Definition time_filter (now : Z) (r : run_history_row) : bool :=
  (rh_started_at r <? now - four_hours)%Z.

Definition is_running (r : run_history_row) : bool :=
  String.eqb (rh_status r) "RUNNING".

Definition mark_interrupted (r : run_history_row) : run_history_row :=
  mk_run_history (rh_run_id r) (rh_run_mode r) "INTERRUPTED" (rh_started_at r)
    (rh_created_at r) (rh_source_tables_processed r) (rh_config_hash r)
    (rh_duration_seconds r) (rh_entities_processed r) (rh_edges_created r)
    (rh_clusters_impacted r) (rh_lp_iterations r)
    (Some "Run interrupted - stale RUNNING state detected").

(** [UPDATE idr_out.run_history SET status = 'INTERRUPTED', ...
     WHERE status = 'RUNNING' AND time_filter] *)
Definition reclaim_stale (now : Z) (history : list run_history_row)
  : list run_history_row :=
  map (fun r => if is_running r && time_filter now r then mark_interrupted r else r)
      history.

(** [_ensure_schema_upgrades]: add [config_hash] to run_history when the
    column is missing; a failure is only logged. *)
Definition ensure_schema_upgrades (s : store) : store :=
  match table_columns s "idr_out.run_history" with
  | Some columns =>
      if existsb (String.eqb "config_hash") (map Chars.str_lower columns) then s
      else
        Write.set_table_columns
          (fun t => if String.eqb t "idr_out.run_history"
                    then Some (columns ++ ["config_hash"])
                    else table_columns s t)
          s
  | None => s
  end.

Definition table_exists (s : store) (table_fqn : string) : bool :=
  existsb (String.eqb table_fqn) (existing_tables s).

Fixpoint contains_char (c : ascii) (s : string) : bool :=
  match s with
  | EmptyString => false
  | String x t => Ascii.eqb x c || contains_char c t
  end.

(** The warning [_validate_identifier_columns] adds for one mapping, if
    any. *)
Definition identifier_column_warning (s : store)
           (m : identifier_mapping_row * source_table_row) : list string :=
  let expr := im_identifier_value_expr (fst m) in
  if contains_char "(" expr || contains_char " " expr then []
  else
    match table_columns s (st_table_fqn (snd m)) with
    | Some columns =>
        if negb (match columns with [] => true | _ => false end)
           && negb (existsb (String.eqb (Chars.str_lower expr))
                            (map Chars.str_lower columns))
        then [("Column '" ++ expr ++ "' may not exist in "
               ++ st_table_fqn (snd m) ++ " (identifier: "
               ++ im_identifier_type (fst m) ++ ")")%string]
        else []
    | None => []
    end.

(** [_validate_identifier_columns]: mappings joined to their source
    tables. *)
Definition validate_identifier_columns (s : store) : list string :=
  flat_map (identifier_column_warning s)
    (flat_map (fun im =>
                 map (fun st => (im, st))
                     (filter (fun st => String.eqb (im_table_id im) (st_table_id st))
                             (source_table s)))
              (identifier_mapping s)).

Fixpoint warn_all (msgs : list string) : M unit :=
  match msgs with
  | [] => ret tt
  | m :: rest => warn m ;;; warn_all rest
  end.

(** [PreflightStage.run] *)
Definition run (now : Z) : M unit :=
  execute ensure_schema_upgrades ;;;
  execute (fun s => Write.set_run_history (reclaim_stale now (run_history s)) s) ;;;
  s <- get_db ;;
  match filter is_running (run_history s) with
  | r :: _ => raise (RuntimeError ("Concurrent run detected: " ++ rh_run_id r))
  | [] =>
      match filter st_is_active (source_table s) with
      | [] => raise (RuntimeError "No active source tables configured")
      | sources =>
          match find (fun src => negb (table_exists s (st_table_fqn src))) sources with
          | Some src =>
              raise (RuntimeError ("Source table not found: " ++ st_table_fqn src))
          | None =>
              (if (List.length (filter r_is_active (rule s)) =? 0)
               then warn "No active matching rules configured"
               else ret tt) ;;;
              warn_all (validate_identifier_columns s)
          end
      end
  end.

(** [load_evidence_flag] *)
Definition load_evidence_flag (s : store) : bool :=
  table_exists s "idr_out.edge_evidence".

End Preflight.

(* ================================================================== *)
(** ** stages/output.py: the output tables and the dry-run analysis *)

Module OutputStage.
Import Pipe.

(** [a LEFT JOIN b ON on a b] *)
Definition left_join {A B : Type} (on : A -> B -> bool) (l : list A) (r : list B)
  : list (A * option B) :=
  flat_map (fun a => match filter (on a) r with
                     | [] => [(a, None)]
                     | matches => map (fun b => (a, Some b)) matches
                     end)
           l.

(** [OutputStage.upsert] and the hand-written edge upsert: a source row
    whose key is in the target updates the rows of that key, any other is
    inserted. *)
Definition upsert {R : Type} (same_key : R -> R -> bool)
           (update : R -> R -> R) (insert : R -> R)
           (target source : list R) : list R :=
  fold_left
    (fun t s =>
       if existsb (same_key s) t
       then map (fun r => if same_key s r then update r s else r) t
       else t ++ [insert s])
    source target.

(** The rows [generate_output] upserts into the membership table:
    [lp_labels l LEFT JOIN fuzzy_results fr ON l.label = fr.resolved_id]. *)
Definition membership_source (run_id : string) (now : Z) (s : store)
  : list membership_row :=
  map (fun j =>
         mk_membership (l_entity_key (fst j)) (l_label (fst j)) now run_id
                       (option_map fr_super_cluster_id (snd j)))
      (left_join (fun l fr => String.eqb (l_label l) (fr_resolved_id fr))
                 (lp_labels s) (fuzzy_results s)).

Definition same_edge (a b : current_edge_row) : bool :=
  String.eqb (ce_left_entity_key a) (ce_left_entity_key b)
  && String.eqb (ce_right_entity_key a) (ce_right_entity_key b)
  && String.eqb (ce_identifier_type a) (ce_identifier_type b).

Definition uses_on_conflict (d : dialect) : bool :=
  match d with
  | duckdb | postgres => true
  | _ => false
  end.

(** The edge upsert: a known edge gets [last_seen_ts] and [run_id]; a new
    one is inserted, with [last_seen_ts] NULL under ON CONFLICT and equal
    to [first_seen_ts] under MERGE. *)
Definition upsert_edges (d : dialect) (run_id : string) (now : Z) (s : store)
  : list current_edge_row :=
  upsert same_edge
         (fun old new =>
            mk_current_edge (ce_left_entity_key old) (ce_right_entity_key old)
                            (ce_identifier_type old) (ce_identifier_value_norm old)
                            (ce_first_seen_ts old) (Some (ce_first_seen_ts new))
                            (ce_run_id new))
         (fun new =>
            if uses_on_conflict d then new
            else mk_current_edge (ce_left_entity_key new) (ce_right_entity_key new)
                                 (ce_identifier_type new) (ce_identifier_value_norm new)
                                 (ce_first_seen_ts new) (Some (ce_first_seen_ts new))
                                 (ce_run_id new))
         (edges_current s)
         (map (fun e => mk_current_edge (left_entity_key e) (right_entity_key e)
                                        (e_identifier_type e) (e_identifier_value_norm e)
                                        now None run_id)
              (edges_new s)).

(** The grouping columns of the cluster upsert's source. *)
Definition cluster_group : Type :=
  (string * option string * option Q * option string)%type.

Definition option_eqb {A : Type} (eqb : A -> A -> bool) (a b : option A) : bool :=
  match a, b with
  | Some x, Some y => eqb x y
  | None, None => true
  | _, _ => false
  end.

Definition cluster_group_eqb (a b : cluster_group) : bool :=
  match a, b with
  | (l1, s1, q1, r1), (l2, s2, q2, r2) =>
      String.eqb l1 l2 && option_eqb String.eqb s1 s2
      && option_eqb Qeq_bool q1 q2 && option_eqb String.eqb r1 r2
  end.

(** The rows [generate_output] upserts into the clusters table. *)
Definition clusters_source (run_id : string) (now : Z) (s : store)
  : list cluster_row :=
  let joined : list cluster_group :=
    flat_map
      (fun j =>
         map (fun jc =>
                (l_label (fst j), option_map fr_super_cluster_id (snd j),
                 option_map cc_confidence_score (snd jc),
                 option_map cc_primary_reason (snd jc)))
             (left_join (fun l cc => String.eqb (l_label l) (cc_resolved_id cc))
                        [fst j] (cluster_confidence s)))
      (left_join (fun l fr => String.eqb (l_label l) (fr_resolved_id fr))
                 (lp_labels s) (fuzzy_results s)) in
  map (fun g =>
         match g with
         | (label, super_cluster_id, score, reason) =>
             mk_cluster label
                        (List.length (filter (cluster_group_eqb g) joined))
                        now run_id super_cluster_id
                        (match score with Some q => q | None => 1%Q end)
                        (match reason with
                         | Some r => r
                         | None => "Single-node cluster"
                         end)
         end)
      (Sql.distinct cluster_group_eqb joined).

(** The watermark rows: [MAX(watermark_value)] per [table_id] of
    [entities_delta]. *)
Definition run_state_source (run_id : string) (now : Z) (s : store)
  : list run_state_row :=
  flat_map
    (fun t =>
       match Sql.sql_max
               (map ed_watermark_value
                    (filter (fun e => String.eqb (ed_table_id e) t) (entities_delta s)))
       with
       | Some w => [mk_run_state t w run_id now]
       | None => []
       end)
    (Sql.distinct String.eqb (map ed_table_id (entities_delta s))).

Definition replace_row {R : Type} (old new : R) : R := new.

Section Output.

Variable d : dialect.
Variable run_id : string.
Variable now : Z.
Variable config : RunConfig.

(** [ProfileBuilder.build_profiles]: the new [unified_profile] table,
    [None] when there are no survivorship rules and the table is left as
    it is; it may raise. *)
Variable build_profiles : string -> store -> result (option (list unified_profile_row)).

Definition is_full : bool := String.eqb (run_mode config) "FULL".

(** [generate_output] *)
Definition generate_output : M unit :=
  (* 1. impacted clusters (a working table, read again in step 4) *)
  s0 <- get_db ;;
  let impacted_resolved_ids := Sql.distinct String.eqb (map l_label (lp_labels s0)) in
  (* 2. membership *)
  execute (fun s =>
             Write.set_membership
               (upsert (fun a b => String.eqb (m_entity_key a) (m_entity_key b))
                       replace_row (fun r => r)
                       (membership s) (membership_source run_id now s))
               s) ;;;
  (* 3. edges, before clusters *)
  execute (fun s => Write.set_edges_current (upsert_edges d run_id now s) s) ;;;
  (* 3b. stale edges, FULL run only *)
  (if is_full
   then execute (fun s =>
                   Write.set_edges_current
                     (filter (fun e => String.eqb (ce_run_id e) run_id) (edges_current s))
                     s)
   else ret tt) ;;;
  (* 4. confidence scores *)
  execute (fun s =>
             Write.set_cluster_confidence
               (Confidence.compute_confidence_scores
                  (membership s) (edges_current s) impacted_resolved_ids)
               s) ;;;
  (* 5. clusters *)
  execute (fun s =>
             Write.set_clusters
               (upsert (fun a b => String.eqb (c_resolved_id a) (c_resolved_id b))
                       replace_row (fun r => r)
                       (clusters s) (clusters_source run_id now s))
               s) ;;;
  (* 5b. stale clusters, FULL run only *)
  (if is_full
   then execute (fun s =>
                   Write.set_clusters
                     (filter (fun c => String.eqb (c_run_id c) run_id) (clusters s))
                     s)
   else ret tt) ;;;
  (* watermarks *)
  execute (fun s =>
             Write.set_run_state
               (upsert (fun a b => String.eqb (rs_table_id a) (rs_table_id b))
                       replace_row (fun r => r)
                       (run_state s) (run_state_source run_id now s))
               s) ;;;
  (* golden profile: a failure is a warning *)
  s <- get_db ;;
  match build_profiles run_id s with
  | Ok (Some profiles) => execute (Write.set_unified_profile profiles)
  | Ok None => ret tt
  | Raise e =>
      warn ("Profile generation failed: "
            ++ match e with
               | ValueError m | TypeError m | OverflowError m | RuntimeError m => m
               end)
  end.

(** The [change_type] column of the dry-run analysis. *)
Definition change_type (current_resolved_id : option string) (label : string)
  : string :=
  match current_resolved_id with
  | None => "NEW"
  | Some resolved_id =>
      if negb (String.eqb resolved_id label) then "MOVED" else "UNCHANGED"
  end.

(** [idr_out.dry_run_results]:
    [lp_labels lp LEFT JOIN membership m ON lp.entity_key = m.entity_key]. *)
Definition dry_run_rows (s : store) : list dry_run_result_row :=
  map (fun j =>
         let current := option_map m_resolved_id (snd j) in
         mk_dry_run_result (l_entity_key (fst j)) current (l_label (fst j))
                           (change_type current (l_label (fst j))) run_id)
      (left_join (fun lp m => String.eqb (l_entity_key lp) (m_entity_key m))
                 (lp_labels s) (membership s)).

Definition count_type (t : string) (rows : list dry_run_result_row) : nat :=
  List.length (filter (fun r => String.eqb (dr_change_type r) t) rows).

(** [idr_out.dry_run_summary] *)
Definition dry_run_summary_rows (s : store) : list dry_run_summary_row :=
  let rows := filter (fun r => String.eqb (dr_run_id r) run_id) (dry_run_results s) in
  [mk_dry_run_summary run_id (count_type "NEW" rows) (count_type "MOVED" rows)
                      (count_type "UNCHANGED" rows) (List.length rows) now].

(** [generate_dry_run_output] *)
Definition generate_dry_run_output : M unit :=
  execute (fun s => Write.set_dry_run_results (dry_run_rows s) s) ;;;
  execute (fun s => Write.set_dry_run_summary (dry_run_summary_rows s) s).

End Output.

End OutputStage.

(* ================================================================== *)
(** ** runner.py: IDRRunner.run

    One reading of the clock, [now], serves the whole run: durations are
    zero in the model. *)

Module Runner.
Import Pipe.

(** What [_complete_run] is called with. *)
Record completion := mk_completion {
  cp_entities : nat;
  cp_identifiers : nat;
  cp_edges : nat;
  cp_clusters : nat;
  cp_iterations : nat;
  cp_status : string
}.

Definition exn_message (e : exn) : string :=
  match e with
  | ValueError m | TypeError m | OverflowError m | RuntimeError m => m
  end.

(** The escaping of the error text for the UPDATE: a single quote
    becomes a double quote, a newline becomes backslash-n, a carriage
    return is dropped. *)
Fixpoint error_safe (error : string) : string :=
  match error with
  | EmptyString => EmptyString
  | String c t =>
      let rest := error_safe t in
      if Ascii.eqb c "'" then String (ascii_of_nat 34) rest
      else if Ascii.eqb c (ascii_of_nat 10) then String "\" (String "n" rest)
      else if Ascii.eqb c (ascii_of_nat 13) then rest
      else String c rest
  end.

(** [_start_stage] *)
Definition start_stage (now : Z) (name : string) : M unit :=
  update_metrics (fun ms => ms ++ [mk_StageMetric name now None 0]).

(** The first metric of the given name that has not ended ends now. *)
Fixpoint end_first (now : Z) (name : string) (rows : nat) (ms : list StageMetric)
  : list StageMetric :=
  match ms with
  | [] => []
  | m :: rest =>
      if String.eqb (stage_name m) name
         && match ended_at m with None => true | Some _ => false end
      then mk_StageMetric (stage_name m) (started_at m) (Some now) rows :: rest
      else m :: end_first now name rows rest
  end.

(** [_end_stage]: the search runs over [reversed(self._stage_metrics)]. *)
Definition end_stage (now : Z) (name : string) (rows : nat) : M unit :=
  update_metrics (fun ms => rev (end_first now name rows (rev ms))).

Section Run.

Variable d : dialect.

(** [CURRENT_TIMESTAMP] and [datetime.utcnow()], taken as one instant for
    the whole run (so every duration is 0). *)
Variable now : Z.

(** [uuid.uuid4().hex[:12]] *)
Variable uuid_hex : string.

(** What the warehouse returns for the statements that read the source
    tables, or the error raised while their metadata is validated:
    the rows of [entities_delta] (given run id and mode), of
    [identifiers_all], of [entity_attributes] ([None]: no attribute
    mapping, the table is left as it is); the [fuzzy_results] table, the
    warnings and the count of [run_fuzzy_matching]; the profile builder;
    and the SHA-256 digest (first 16 hex digits) of the metadata tables,
    [None] when reading them raises. *)
Variable select_entities : string -> string -> store -> result (list entity_delta_row).
Variable select_identifiers : string -> store -> result (list identifier_row).
Variable select_attributes : store -> result (option (list entity_attribute_row)).
Variable run_fuzzy_matching :
  nat -> store -> result (list fuzzy_result_row * list string * nat).
Variable build_profiles : string -> store -> result (option (list unified_profile_row)).
Variable config_digest : store -> option string.

Variable config : RunConfig.

Definition run_id : string :=
  ((if dry_run config then "dry_" else "") ++ "run_" ++ uuid_hex)%string.

(** The flag [build_edges] sees.  [GraphStage(ctx)] copies
    [ctx.generate_evidence] when it is constructed, which is before [run]
    stores the loaded flag into [ctx]; the stage keeps [False]. *)
Definition graph_generate_evidence : bool := false.

(** [_compute_config_hash]: the digest of the metadata tables; the
    snapshot is stored best-effort, and a failure to read the metadata
    gives the hash [unknown]. *)
Definition compute_config_hash : M string :=
  s <- get_db ;;
  match config_digest s with
  | Some config_hash =>
      execute (fun s =>
                 match config_snapshot s with
                 | Some rows =>
                     if existsb (fun r => String.eqb (cf_config_hash r) config_hash)
                                rows
                     then s
                     else Write.set_config_snapshot
                            (Some (rows ++ [mk_config_snapshot config_hash now])) s
                 | None => s
                 end) ;;;
      ret config_hash
  | None => ret "unknown"
  end.

(** [_record_run_start] *)
Definition record_run_start : M unit :=
  config_hash <- compute_config_hash ;;
  execute (fun s =>
             Write.set_run_history
               (run_history s
                ++ [mk_run_history run_id (run_mode config) "RUNNING" now now 0
                                   (Some config_hash) None None None None None None])
               s).

(** [ExtractionStage.extract_entities] *)
Definition extract_entities : M nat :=
  s <- get_db ;;
  match filter st_is_active (source_table s) with
  | [] => execute (Write.set_entities_delta []) ;;; ret 0
  | _ =>
      rows <- lift (select_entities run_id (run_mode config) s) ;;
      execute (Write.set_entities_delta rows) ;;;
      ret (List.length rows)
  end.

(** [ExtractionStage.extract_identifiers] *)
Definition extract_identifiers : M nat :=
  s <- get_db ;;
  match filter (fun im =>
                  existsb (fun r => r_is_active r
                                    && String.eqb (im_identifier_type im)
                                                  (r_identifier_type r))
                          (rule s))
               (identifier_mapping s) with
  | [] =>
      warn "No identifier mappings found" ;;;
      execute (Write.set_identifiers_all []) ;;;
      ret 0
  | _ =>
      rows <- lift (select_identifiers run_id s) ;;
      execute (Write.set_identifiers_all rows) ;;;
      ret (List.length rows)
  end.

(** [ExtractionStage.extract_attributes] *)
Definition extract_attributes : M nat :=
  s <- get_db ;;
  r <- lift (select_attributes s) ;;
  match r with
  | Some rows => execute (Write.set_entity_attributes rows) ;;; ret (List.length rows)
  | None => ret 0
  end.

(** [GraphStage.build_edges], on the tables of the warehouse. *)
Definition build_edges : M nat :=
  s <- get_db ;;
  let r := BuildEdges.build_edges run_id now graph_generate_evidence
             (BuildEdges.mk_tables (identifiers_all s) (edges_new s)
                                   (skipped_identifier_groups s) (edge_evidence s) []) in
  execute (fun s =>
             Write.set_edge_evidence (BuildEdges.edge_evidence (fst r))
               (Write.set_skipped_identifier_groups
                  (BuildEdges.skipped_identifier_groups (fst r))
                  (Write.set_edges_new (BuildEdges.t_edges_new (fst r)) s))) ;;;
  Preflight.warn_all (BuildEdges.warnings (fst r)) ;;;
  ret (snd r).

(** [GraphStage.label_propagation] *)
Definition label_propagation : M (nat * nat) :=
  s <- get_db ;;
  let r := LabelPropagation.run_loop (max_iters config) run_id
             (entities_delta s) (edges_new s) in
  execute (Write.set_lp_labels (LabelPropagation.lp_labels r)) ;;;
  ret (LabelPropagation.iterations r,
       LabelPropagation.count_clusters (LabelPropagation.lp_labels r)).

(** Step 5b of [run]. *)
Definition fuzzy_step : M unit :=
  if strict config then
    warn "Fuzzy matching skipped (--strict mode)" ;;;
    execute (Write.set_fuzzy_results [])
  else
    start_stage now "fuzzy_matching" ;;;
    s <- get_db ;;
    r <- lift (run_fuzzy_matching (max_iters config) s) ;;
    execute (Write.set_fuzzy_results (fst (fst r))) ;;;
    Preflight.warn_all (snd (fst r)) ;;;
    end_stage now "fuzzy_matching" (snd r).

(** Step 6 of [run]. *)
Definition output_step : M string :=
  if negb (dry_run config) then
    start_stage now "output_generation" ;;;
    OutputStage.generate_output d run_id now config build_profiles ;;;
    end_stage now "output_generation" 0 ;;;
    ret "SUCCESS"
  else
    start_stage now "dry_run_analysis" ;;;
    OutputStage.generate_dry_run_output run_id now ;;;
    end_stage now "dry_run_analysis" 0 ;;;
    ret "DRY_RUN_COMPLETE".

(** Steps 2 to 6 of [run], after the run is recorded: they end with the
    arguments of the [_complete_run] that [run] returns through. *)
Definition pipeline : M completion :=
  start_stage now "entity_extraction" ;;;
  entities <- extract_entities ;;
  end_stage now "entity_extraction" entities ;;;
  if entities =? 0 then
    ret (mk_completion 0 0 0 0 0 "SUCCESS_NO_CHANGES")
  else
    start_stage now "identifier_extraction" ;;;
    identifiers <- extract_identifiers ;;
    end_stage now "identifier_extraction" identifiers ;;;
    start_stage now "attribute_extraction" ;;;
    attributes_count <- extract_attributes ;;
    end_stage now "attribute_extraction" attributes_count ;;;
    start_stage now "edge_building" ;;;
    edges <- build_edges ;;
    end_stage now "edge_building" edges ;;;
    start_stage now "label_propagation" ;;;
    lp <- label_propagation ;;
    end_stage now "label_propagation" (snd lp) ;;;
    fuzzy_step ;;;
    status <- output_step ;;
    ret (mk_completion entities identifiers edges (snd lp) (fst lp) status).

(** The body of the [try] in [run]: preflight, the record of the run's
    start, and the steps. *)
Definition try_body : M completion :=
  start_stage now "preflight" ;;;
  Preflight.run now ;;;
  end_stage now "preflight" 0 ;;;
  record_run_start ;;;
  pipeline.

(** The rows [_complete_run] inserts into [idr_out.stage_metrics]. *)
Fixpoint metric_rows (order : nat) (ms : list StageMetric) : list stage_metric_row :=
  match ms with
  | [] => []
  | m :: rest =>
      mk_stage_metric run_id (stage_name m) order (started_at m)
                      (match ended_at m with Some t => t | None => started_at m end)
                      0 (rows_affected m)
      :: metric_rows (S order) rest
  end.

(** The UPDATE of [_complete_run], on one row of the run history. *)
Definition finish_row (c : completion) (error : option string)
           (r : run_history_row) : run_history_row :=
  let error_text := match error with Some e => e | None => EmptyString end in
  if String.eqb (rh_run_id r) run_id then
    mk_run_history (rh_run_id r) (rh_run_mode r) (cp_status c) (rh_started_at r)
      (rh_created_at r) (rh_source_tables_processed r) (rh_config_hash r)
      (Some 0%Z) (Some (cp_entities c)) (Some (cp_edges c))
      (Some (cp_clusters c)) (Some (cp_iterations c))
      (if String.eqb error_text "" then rh_error_message r
       else Some (error_safe error_text))
  else r.

(** [_complete_run] *)
Definition complete_run (c : completion) (error : option string) (st : state)
  : RunResult * store :=
  let s1 := Write.set_run_history
              (map (finish_row c error) (run_history (db st))) (db st) in
  let s2 := Write.set_stage_metrics
              (stage_metrics s1 ++ metric_rows 1 (metrics st)) s1 in
  (mk_RunResult run_id (cp_status c) (cp_entities c) (cp_identifiers c)
                (cp_edges c) (cp_clusters c) (cp_iterations c)
                (warnings st) error,
   s2).

(** [IDRRunner.run] *)
Definition run (s : store) : RunResult * store :=
  match try_body (mk_state s [] []) with
  | (Ok c, st) => complete_run c None st
  | (Raise e, st) =>
      complete_run (mk_completion 0 0 0 0 0 "FAILED") (Some (exn_message e)) st
  end.

End Run.

End Runner.

(* ================================================================== *)
(** ** What a run may and may not touch *)

Module RunSpec.
Import Pipe.

(** The production output of identity resolution: membership, clusters
    and edges, with the watermarks and the golden profile that
    [generate_output] refreshes beside them. *)
Definition production_unchanged (s s' : store) : Prop :=
  membership s' = membership s /\
  clusters s' = clusters s /\
  edges_current s' = edges_current s /\
  run_state s' = run_state s /\
  unified_profile s' = unified_profile s.

(** A computation whose effect on the warehouse stays within [R],
    whether it returns or raises. *)
Definition keeps {A : Type} (R : store -> store -> Prop) (m : M A) : Prop :=
  forall st, R (db st) (db (snd (m st))).

(** Only working and audit tables change: the production output and the
    run history are as before. *)
Definition work_only (s s' : store) : Prop :=
  production_unchanged s s' /\ run_history s' = run_history s.

(** The warehouse after preflight's schema upgrade and reclamation of
    stale runs. *)
Definition after_reclaim (now : Z) (s : store) : store :=
  Write.set_run_history
    (Preflight.reclaim_stale now (run_history s))
    (Preflight.ensure_schema_upgrades s).

(** The run history is as before. *)
Definition same_history (s s' : store) : Prop := run_history s' = run_history s.

(** The rows of the other runs persist as they are, and no run id
    disappears from the run history. *)
Definition history_persists (run_id : string) (s s' : store) : Prop :=
  (forall x, In x (run_history s) -> rh_run_id x <> run_id ->
             In x (run_history s')) /\
  (forall x, In x (run_history s) ->
             In (rh_run_id x) (map rh_run_id (run_history s'))).

(** What holds of the value and the state when a computation returns. *)
Definition ensures {A : Type} (m : M A) (Q : A -> state -> Prop) : Prop :=
  forall st a st', m st = (Ok a, st') -> Q a st'.

(** The dry-run tables hold the analysis of the labels against the
    persisted membership. *)
Definition dry_run_analysis (run_id : string) (now : Z) (s : store) : Prop :=
  dry_run_results s = OutputStage.dry_run_rows run_id s /\
  dry_run_summary s = OutputStage.dry_run_summary_rows run_id now s.

(** No row of the run history carries the run id. *)
Definition fresh_run_id (run_id : string) (history : list run_history_row) : bool :=
  negb (existsb (fun r => String.eqb (rh_run_id r) run_id) history).

(** The RUNNING rows that the stale-lease reclamation leaves RUNNING. *)
Definition live_runs (now : Z) (history : list run_history_row)
  : list run_history_row :=
  filter (fun r => Preflight.is_running r && negb (Preflight.time_filter now r))
         history.

(** The age of a run-history row. *)
Definition age (now : Z) (r : run_history_row) : Z := (now - rh_started_at r)%Z.

End RunSpec.

(* ================================================================== *)
(** ** Three clusters to score *)

Module ConfidenceExamples.

(** A cluster of three, a singleton, and a pair. *)
Definition sample_membership : list membership_row :=
  [ mk_membership "A:1" "A:1" 0 "run_1" None;
    mk_membership "B:2" "A:1" 0 "run_1" None;
    mk_membership "C:3" "A:1" 0 "run_1" None;
    mk_membership "D:4" "D:4" 0 "run_1" None;
    mk_membership "E:5" "E:5" 0 "run_1" None;
    mk_membership "F:6" "E:5" 0 "run_1" None ].

(** Two identifier types hold the first cluster together, one the
    pair. *)
Definition sample_edges : list current_edge_row :=
  [ mk_current_edge "B:2" "A:1" "EMAIL" "x@y.com" 0 None "run_1";
    mk_current_edge "C:3" "A:1" "PHONE" "5550100" 0 None "run_1";
    mk_current_edge "F:6" "E:5" "EMAIL" "e@y.com" 0 None "run_1" ].

Definition sample_impacted : list string := ["A:1"; "D:4"; "E:5"].

End ConfidenceExamples.

(* ================================================================== *)
(** ** A small warehouse to run on *)

Module RunExamples.

(** One active source table, one rule, and the membership of an earlier
    run: [customers:1] and [customers:2] each in a cluster of their own. *)
Definition warehouse (history : list run_history_row) : store :=
  mk_store
    ["crm.customers"] (fun _ => None)
    [mk_source_table "customers" "crm.customers" true]
    [mk_rule "r1" "EMAIL" true]
    [mk_identifier_mapping "customers" "EMAIL" "email"]
    []
    [] [] [] [] [] [] []
    history [] None None None
    [ mk_membership "customers:1" "customers:1" 0 "run_0" None;
      mk_membership "customers:2" "customers:2" 0 "run_0" None ]
    [] [] [] [] [].

(** Three customers, the first two with the same email. *)
Definition select_entities (run_id run_mode : string) (s : store)
  : result (list entity_delta_row) :=
  Ok [ mk_entity_delta run_id "customers" "customers:1" 0;
       mk_entity_delta run_id "customers" "customers:2" 0;
       mk_entity_delta run_id "customers" "customers:3" 0 ].

Definition select_identifiers (run_id : string) (s : store)
  : result (list identifier_row) :=
  Ok [ mk_identifier "customers:1" "EMAIL" "a@x.com" 10000;
       mk_identifier "customers:2" "EMAIL" "a@x.com" 10000;
       mk_identifier "customers:3" "EMAIL" "c@x.com" 10000 ].

Definition select_attributes (s : store)
  : result (option (list entity_attribute_row)) := Ok None.

Definition run_fuzzy_matching (max_iters : nat) (s : store)
  : result (list fuzzy_result_row * list string * nat) := Ok ([], [], 0).

Definition build_profiles (run_id : string) (s : store)
  : result (option (list unified_profile_row)) := Ok None.

Definition config_digest (s : store) : option string := Some "0123456789abcdef".

Definition uuid_hex : string := "0123456789ab".

(** Noon of some day, in microseconds. *)
Definition noon : Z := 12 * 3600 * 1000000.

Definition full_run : RunConfig := mk_RunConfig "FULL" 30 false false.
Definition dry_run_config : RunConfig := mk_RunConfig "FULL" 30 true false.

(** A run that started and never finished. *)
Definition running (run_id : string) (started_at : Z) : run_history_row :=
  mk_run_history run_id "FULL" "RUNNING" started_at started_at 0
                 (Some "0123456789abcdef") None None None None None None.

(** A run started one hour ago, one started five hours ago, and one
    started exactly four hours ago. *)
Definition one_hour_ago : run_history_row := running "run_a" (noon - 3600 * 1000000).
Definition five_hours_ago : run_history_row :=
  running "run_b" (noon - 5 * 3600 * 1000000).
Definition four_hours_ago : run_history_row :=
  running "run_c" (noon - 4 * 3600 * 1000000).

(** The run on this warehouse. *)
Definition run (config : RunConfig) (history : list run_history_row)
  : RunResult * store :=
  Runner.run duckdb noon uuid_hex select_entities select_identifiers
             select_attributes run_fuzzy_matching build_profiles
             config_digest config (warehouse history).

End RunExamples.

(* ================================================================== *)
(** ** config.py: identifiers and qualified names

    The two patterns are matched the way a backtracking matcher does it:
    a repetition tries each of its lengths against what follows. *)

Module Identifiers.
Import Chars.

(** [[a-zA-Z_]] *)
Definition is_ident_start (c : ascii) : bool :=
  between 97 122 c || between 65 90 c || (code c =? 95)%N.

(** [[a-zA-Z0-9_]] *)
Definition is_ident_char (c : ascii) : bool :=
  between 97 122 c || between 65 90 c || between 48 57 c || (code c =? 95)%N.

(** [$] without [re.MULTILINE]: the end of the text, or the newline that
    ends it. *)
Definition at_end (s : string) : bool :=
  match s with
  | EmptyString => true
  | String c EmptyString => (code c =? 10)%N
  | String _ _ => false
  end.

(** [[a-zA-Z0-9_]*] followed by [k]. *)
Fixpoint ident_chars_then (k : string -> bool) (s : string) : bool :=
  match s with
  | String c t => (is_ident_char c && ident_chars_then k t) || k s
  | EmptyString => k s
  end.

(** [[a-zA-Z_][a-zA-Z0-9_]*] followed by [k]. *)
Definition ident_then (k : string -> bool) (s : string) : bool :=
  match s with
  | String c t => is_ident_start c && ident_chars_then k t
  | EmptyString => false
  end.

(** Up to [n] groups of a dot and an identifier, followed by [k]: the
    pattern's [{0,2}] group. *)
Fixpoint dotted_groups_then (n : nat) (k : string -> bool) (s : string) : bool :=
  match n with
  | 0 => k s
  | S n' =>
      match s with
      | String c t =>
          ((code c =? 46)%N && ident_then (dotted_groups_then n' k) t) || k s
      | EmptyString => k s
      end
  end.

(** [_SAFE_IDENTIFIER_RE.match] *)
Definition safe_identifier_match (s : string) : bool := ident_then at_end s.

(** [_SAFE_FQN_RE.match] *)
Definition safe_fqn_match (s : string) : bool :=
  ident_then (dotted_groups_then 2 at_end) s.

(** [validate_identifier] *)
Definition validate_identifier (value name : string) : result string :=
  if String.eqb value "" then
    Raise (ValueError (name ++ " cannot be empty"))
  else if negb (safe_identifier_match value) then
    Raise (ValueError ("Invalid " ++ name ++ ": '" ++ value
                       ++ "'. Must be alphanumeric with underscores."))
  else Ok value.

(** [s.replace(c, empty)] for a one-character [c]. *)
Fixpoint remove_char (c : ascii) (s : string) : string :=
  match s with
  | EmptyString => EmptyString
  | String x t => if Ascii.eqb x c then remove_char c t else String x (remove_char c t)
  end.

(** The backtick and the double quote. *)
Definition backtick : ascii := ascii_of_nat 96.
Definition double_quote : ascii := ascii_of_nat 34.

(** [clean]: the value with its backticks, then its double quotes,
    replaced by nothing. *)
Definition clean_fqn (value : string) : string :=
  remove_char double_quote (remove_char backtick value).

(** [validate_fqn]: the pattern is tried on the text without its quotes,
    the text itself is returned. *)
Definition validate_fqn (value name : string) : result string :=
  if String.eqb value "" then
    Raise (ValueError (name ++ " cannot be empty"))
  else if negb (safe_fqn_match (clean_fqn value)) then
    Raise (ValueError ("Invalid " ++ name ++ ": '" ++ value
                       ++ "'. Must be valid table FQN."))
  else Ok value.

(** *** The same patterns, said in words *)

Fixpoint all_chars (p : ascii -> bool) (s : string) : bool :=
  match s with
  | EmptyString => true
  | String c t => p c && all_chars p t
  end.

(** A letter or underscore, then letters, digits and underscores. *)
Definition identifier (w : string) : Prop :=
  exists c t, w = String c t /\ is_ident_start c = true
              /\ all_chars is_ident_char t = true.

(** A dot and a segment, for each segment. *)
Fixpoint dotted_tail (segs : list string) : string :=
  match segs with
  | [] => EmptyString
  | w :: t => String "." (w ++ dotted_tail t)
  end.

(** Nothing, or one newline. *)
Definition optional_newline (r : string) : Prop :=
  r = EmptyString \/ r = String (ascii_of_nat 10) EmptyString.

End Identifiers.

(* ================================================================== *)
(** ** config.py: the utility functions of the runners *)

Module ConfigUtil.
Import Identifiers.

(** [str(n)] of an [int]. *)
Definition str_of_int (n : Z) : string := NilZero.string_of_int (Z.to_int n).

Section AttrExpr.

(** [str.lower] *)
Variable py_lower : string -> string.

(** [get_attr_expr]; [table_attrs] is the dict, [None] where it has no
    key. *)
Definition get_attr_expr (table_attrs : string -> option string)
           (attr_name : string) (fallback_cols available_cols : list string)
           (alias : string) : string :=
  let available_lower := map py_lower available_cols in
  let auto_detect :=
    match find (fun col => existsb (String.eqb (py_lower col)) available_lower)
               fallback_cols with
    | Some col => (alias ++ "." ++ col)%string
    | None => "NULL"
    end in
  match table_attrs attr_name with
  | Some mapped_expr =>
      if safe_identifier_match mapped_expr then
        if existsb (String.eqb (py_lower mapped_expr)) available_lower
        then (alias ++ "." ++ mapped_expr)%string
        else auto_detect
      else mapped_expr
  | None => auto_detect
  end.

End AttrExpr.

(** [build_where_clause]; [last_watermark] is [None] for Python's None,
    and appears in the clause as the f-string prints it. *)
Definition build_where_clause (watermark_column : string)
           (last_watermark : option string) (lookback_minutes : Z)
           (run_mode dialect : string) : string :=
  (match last_watermark with
  | None => "1=1"
  | Some last =>
      if String.eqb run_mode "FULL" || String.eqb last ""
         || String.eqb watermark_column ""
      then "1=1"
      else
        let minutes := str_of_int lookback_minutes in
        let lookback := (0 <? lookback_minutes)%Z in
        if String.eqb dialect "snowflake" then
          if lookback then
            watermark_column ++ " > DATEADD('minute', -" ++ minutes ++ ", '"
            ++ last ++ "'::TIMESTAMP)"
          else watermark_column ++ " > '" ++ last ++ "'::TIMESTAMP"
        else if String.eqb dialect "bigquery" then
          if lookback then
            watermark_column ++ " > TIMESTAMP_SUB(TIMESTAMP('" ++ last
            ++ "'), INTERVAL " ++ minutes ++ " MINUTE)"
          else watermark_column ++ " > TIMESTAMP('" ++ last ++ "')"
        else if String.eqb dialect "databricks" then
          if lookback then
            watermark_column ++ " > TIMESTAMPADD(MINUTE, -" ++ minutes
            ++ ", TIMESTAMP('" ++ last ++ "'))"
          else watermark_column ++ " > TIMESTAMP('" ++ last ++ "')"
        else
          if lookback then
            watermark_column ++ " > ('" ++ last ++ "'::TIMESTAMP - INTERVAL '"
            ++ minutes ++ " minutes')"
          else watermark_column ++ " > '" ++ last ++ "'::TIMESTAMP"
  end)%string.

End ConfigUtil.

(* ================================================================== *)
(** ** stages/base.py: [_validate_metadata_value] *)

Module BaseStage.
Import Chars Identifiers Validators.

Section MetadataValue.

Variable int_of_str : string -> option Z.
Variable float_of_str : string -> option pyfloat.
Variable float_repr : pyfloat -> string.

(** The truth value of [value] in [if value]. *)
Definition truthy (value : pyvalue) : bool :=
  match value with
  | PyInt n => negb (n =? 0)%Z
  | PyFloat (Finite q) => negb (Qeq_bool q 0)
  | PyFloat _ => true
  | PyStr s => negb (String.eqb s "")
  | PyNone => false
  end.

Definition result_map {A B : Type} (f : A -> B) (r : result A) : result B :=
  match r with
  | Ok a => Ok (f a)
  | Raise e => Raise e
  end.

(** The body of the [try].  The upper-casing of the [enum] branch is that
    of the letters a-z, which decides membership in the enum as
    [str.upper] does. *)
Definition checked_value (value : pyvalue) (value_type field_name : string)
  : result pyvalue :=
  if String.eqb value_type "identifier" then
    result_map PyStr (validate_identifier (py_str float_repr value) field_name)
  else if String.eqb value_type "fqn" then
    result_map PyStr (validate_fqn (py_str float_repr value) field_name)
  else if String.eqb value_type "expr" then
    result_map PyStr (validate_sql_expr (py_str float_repr value) field_name)
  else if String.eqb value_type "integer" then
    result_map PyInt (validate_integer int_of_str float_repr value field_name)
  else if String.eqb value_type "float" then
    result_map PyFloat (validate_float float_of_str float_repr value field_name)
  else if String.eqb value_type "enum" then
    let str_val := if truthy value then str_upper (py_str float_repr value) else "" in
    if existsb (String.eqb str_val) ExtractionStage.CANONICALIZE_ENUM
    then Ok (PyStr str_val)
    else Raise (ValueError ("Invalid " ++ field_name ++ ": '"
                            ++ py_str float_repr value
                            ++ "'. Must be one of: , LOWERCASE, NONE, UPPERCASE"))
  else Raise (ValueError ("Unknown validation type: " ++ value_type)).

(** [_validate_metadata_value]: [except ValueError] wraps, everything
    else passes. *)
Definition validate_metadata_value (value : pyvalue) (value_type field_name : string)
  : result pyvalue :=
  match checked_value value value_type field_name with
  | Raise (ValueError e) =>
      Raise (RuntimeError
               ("Metadata validation failed for " ++ field_name ++ ": " ++ e
                ++ ". Check your idr_meta configuration for unsafe values."))
  | r => r
  end.

End MetadataValue.

End BaseStage.

(* ================================================================== *)
(** ** runner.py: [RunConfig.__post_init__] *)

Module RunConfigInit.
Import Chars.

(** The dataclass as it is constructed, before [__post_init__]. *)
Record raw_config := mk_raw_config {
  raw_run_mode : string;
  raw_max_iters : Z;
  raw_dry_run : bool;
  raw_strict : bool
}.

(** [__post_init__]: the mode is normalized, the iteration bound checked.
    The upper-casing is that of the letters a-z, which decides the three
    comparisons as [str.upper] does. *)
Definition post_init (c : raw_config) : result RunConfig :=
  let mode := str_upper (raw_run_mode c) in
  if String.eqb mode "FULL" || String.eqb mode "INCR" || String.eqb mode "INCREMENTAL"
  then
    if (raw_max_iters c <? 1)%Z then
      Raise (ValueError ("max_iters must be >= 1, got "
                         ++ ConfigUtil.str_of_int (raw_max_iters c)))
    else
      Ok (mk_RunConfig (if String.eqb mode "FULL" then "FULL" else "INCR")
                       (Z.to_nat (raw_max_iters c))
                       (raw_dry_run c) (raw_strict c))
  else Raise (ValueError ("Invalid run_mode: " ++ raw_run_mode c)).

(** The constructor arguments that give a configuration back. *)
Definition to_raw (c : RunConfig) : raw_config :=
  mk_raw_config (run_mode c) (Z.of_nat (max_iters c)) (dry_run c) (strict c).

End RunConfigInit.

(* ================================================================== *)
(** ** GraphStage.run_fuzzy_matching: the super clusters

    Steps 3 and 4: label propagation over the fuzzy edges, on the
    clusters that have attributes. *)

Module SuperClusters.
Import Fuzzy LabelPropagation.

(** [lp_fuzzy_labels]:
    [SELECT DISTINCT resolved_id AS entity_key, resolved_id AS label
     FROM idr_work.cluster_attributes] *)
Definition init_fuzzy_labels (cluster_attributes : list cluster_attribute_row)
  : list label_row :=
  map (fun k => mk_label k k)
      (Sql.distinct String.eqb (map ca_resolved_id cluster_attributes)).

(** The [candidate_labels] CTE of the fuzzy loop: the own label, the
    label of the right end offered to the left end, and the label of the
    left end offered to the right end. *)
Definition fuzzy_candidate_labels (labels : list label_row)
           (fuzzy_edges : list fuzzy_edge_row) : list label_row :=
  labels
  ++ flat_map
       (fun e =>
          map (fun l2 => mk_label (left_create_id e) (l_label l2))
              (filter (fun l2 => String.eqb (right_create_id e) (l_entity_key l2))
                      labels))
       fuzzy_edges
  ++ flat_map
       (fun e =>
          map (fun l2 => mk_label (right_create_id e) (l_label l2))
              (filter (fun l2 => String.eqb (left_create_id e) (l_entity_key l2))
                      labels))
       fuzzy_edges.

(** [SELECT entity_key, MIN(candidate_label) AS label
     FROM candidate_labels GROUP BY entity_key] *)
Definition fuzzy_propagate (fuzzy_edges : list fuzzy_edge_row)
           (labels : list label_row) : list label_row :=
  let candidates := fuzzy_candidate_labels labels fuzzy_edges in
  flat_map
    (fun k =>
       match Sql.sql_min
               (map l_label
                    (filter (fun c => String.eqb (l_entity_key c) k) candidates)) with
       | Some m => [mk_label k m]
       | None => []
       end)
    (Sql.distinct String.eqb (map l_entity_key candidates)).

(** The loop [for i in range(max_iters)], with the reason it ended. *)
Fixpoint fuzzy_loop (fuzzy_edges : list fuzzy_edge_row) (remaining : nat)
         (labels : list label_row) : list label_row * stop_reason :=
  match remaining with
  | 0 => (labels, MaxItersReached)
  | S remaining' =>
      let labels_new := fuzzy_propagate fuzzy_edges labels in
      if count_changes labels labels_new =? 0
      then (labels_new, NoLabelChanged)
      else fuzzy_loop fuzzy_edges remaining' labels_new
  end.

(** [idr_work.fuzzy_results] and the returned
    [COUNT(DISTINCT label)]. *)
Definition super_clusters (max_iters : nat)
           (cluster_attributes : list cluster_attribute_row)
           (fuzzy_edges : list fuzzy_edge_row) : list fuzzy_result_row * nat :=
  let labels :=
    fst (fuzzy_loop fuzzy_edges max_iters (init_fuzzy_labels cluster_attributes)) in
  (map (fun l => mk_fuzzy_result (l_entity_key l) (l_label l)) labels,
   count_clusters labels).



End SuperClusters.

(* ================================================================== *)
(** ** Sample fuzzy edges *)

Module SuperClustersExamples.
Import Fuzzy.

(** The one edge the sample rule draws: the two clusters of postal code
    90210. *)
Definition sample_fuzzy_edges : list fuzzy_edge_row :=
  [mk_fuzzy_edge "A:1" "B:7" (85 # 100)%Q].

End SuperClustersExamples.

(* ================================================================== *)
(** ** What the output step writes, row by row *)

Module OutputSpec.

(** The membership row [generate_output] selects for a label row:
    [l.entity_key, l.label, now, run_id, fr.super_cluster_id], where [fr]
    is the fuzzy result of the label, NULL without one. *)
Definition membership_of_label (run_id : string) (now : Z)
           (fuzzy_results : list fuzzy_result_row) (l : label_row) : membership_row :=
  mk_membership (l_entity_key l) (l_label l) now run_id
    (option_map fr_super_cluster_id
       (find (fun fr => String.eqb (l_label l) (fr_resolved_id fr)) fuzzy_results)).

(** A sample for the upsert: one row to replace, one to keep, one to
    add. *)
Definition sample_target : list membership_row :=
  [ mk_membership "customers:1" "customers:1" 0 "run_0" None;
    mk_membership "customers:2" "customers:2" 0 "run_0" None ].

Definition sample_source : list membership_row :=
  [ mk_membership "customers:2" "customers:1" 5 "run_1" None;
    mk_membership "customers:3" "customers:3" 5 "run_1" None ].

(** The sample warehouse after label propagation of a run over three
    customers, the first two in one cluster. *)
Definition sample_store : store :=
  Write.set_lp_labels
    [ mk_label "customers:1" "customers:1";
      mk_label "customers:2" "customers:1";
      mk_label "customers:3" "customers:3" ]
    (Write.set_entities_delta
       [ mk_entity_delta "run_1" "customers" "customers:1" 3;
         mk_entity_delta "run_1" "customers" "customers:2" 7;
         mk_entity_delta "run_1" "customers" "customers:3" 5 ]
       (RunExamples.warehouse [])).

End OutputSpec.

(* ================================================================== *)
(** ** A run that finds nothing to do *)

Module QuietRun.

(** The source tables have no row newer than the watermark. *)
Definition select_entities (run_id run_mode : string) (s : store)
  : result (list entity_delta_row) := Ok [].

(** A FULL run on the sample warehouse whose extraction selects no
    entity. *)
Definition run : RunResult * store :=
  Runner.run duckdb RunExamples.noon RunExamples.uuid_hex
             select_entities RunExamples.select_identifiers
             RunExamples.select_attributes RunExamples.run_fuzzy_matching
             RunExamples.build_profiles RunExamples.config_digest
             RunExamples.full_run (RunExamples.warehouse []).

End QuietRun.

(* ================================================================== *)
(** ** stages/extraction.py: [get_source_fqn] *)

Module ExtractionAccess.
Import Validators BaseStage.

Section SourceFqn.

Variable int_of_str : string -> option Z.
Variable float_of_str : string -> option pyfloat.
Variable float_repr : pyfloat -> string.



End SourceFqn.

End ExtractionAccess.
(* ================================================================== *)
(** * Part II. Properties *)

(* ================================================================== *)
(** ** The order is total, and [str_min] is its meet *)

Module StrOrdFacts.
Import StrOrd.

Lemma ascii_compare_refl (c : ascii) : Ascii.compare c c = Eq.
Proof. unfold Ascii.compare. apply N.compare_refl. Qed.

Lemma compare_refl (s : string) : String.compare s s = Eq.
Proof.
  induction s as [|c s IH]; simpl; [reflexivity|].
  now rewrite ascii_compare_refl.
Qed.

Lemma le_refl a : le a a.
Proof. unfold le, String.leb. now rewrite compare_refl. Qed.

Lemma ascii_compare_trans_lt (a b c : ascii) :
  Ascii.compare a b = Lt -> Ascii.compare b c = Lt -> Ascii.compare a c = Lt.
Proof.
  unfold Ascii.compare. rewrite !N.compare_lt_iff. lia.
Qed.

Lemma compare_not_gt_trans :
  forall a b c : string,
    String.compare a b <> Gt -> String.compare b c <> Gt ->
    String.compare a c <> Gt.
Proof.
  induction a as [|x a IH]; intros [|y b] [|z c]; simpl; try congruence.
  destruct (Ascii.compare x y) eqn:Hxy; try congruence.
  - apply Ascii.compare_eq_iff in Hxy; subst y.
    destruct (Ascii.compare x z) eqn:Hxz; try congruence.
    apply IH.
  - destruct (Ascii.compare y z) eqn:Hyz; try congruence.
    + apply Ascii.compare_eq_iff in Hyz; subst z. now rewrite Hxy.
    + now rewrite (ascii_compare_trans_lt _ _ _ Hxy Hyz).
Qed.

Lemma le_iff a b : le a b <-> String.compare a b <> Gt.
Proof.
  unfold le, String.leb. destruct (String.compare a b); split; congruence.
Qed.

Lemma le_trans a b c : le a b -> le b c -> le a c.
Proof. rewrite !le_iff. apply compare_not_gt_trans. Qed.

Lemma le_antisym a b : le a b -> le b a -> a = b.
Proof. apply String.leb_antisym. Qed.

Lemma le_total a b : le a b \/ le b a.
Proof. apply String.leb_total. Qed.

Lemma str_min_le_l a b : le (str_min a b) a.
Proof.
  unfold str_min. destruct (String.leb a b) eqn:E.
  - apply le_refl.
  - destruct (le_total a b) as [H|H]; [unfold le in H; congruence | exact H].
Qed.

Lemma str_min_le_r a b : le (str_min a b) b.
Proof.
  unfold str_min. destruct (String.leb a b) eqn:E; [exact E | apply le_refl].
Qed.

Lemma str_min_cases a b : str_min a b = a \/ str_min a b = b.
Proof. unfold str_min. destruct (String.leb a b); auto. Qed.

Lemma str_min_glb a b c : le c a -> le c b -> le c (str_min a b).
Proof. intros. destruct (str_min_cases a b) as [->| ->]; assumption. Qed.

End StrOrdFacts.

(* ================================================================== *)
(** ** Facts about the SQL fragment *)

Module SqlFacts.
Import Sql.

Section Distinct.
Variable A : Type.
Variable eqb : A -> A -> bool.
Hypothesis eqb_spec : forall x y, eqb x y = true <-> x = y.

Lemma neqb_iff x y : negb (eqb x y) = true <-> x <> y.
Proof.
  rewrite negb_true_iff, <- not_true_iff_false, eqb_spec. tauto.
Qed.

Lemma eqb_dec (x y : A) : x = y \/ x <> y.
Proof.
  destruct (eqb x y) eqn:E; [left; now apply eqb_spec | right].
  rewrite <- eqb_spec. congruence.
Qed.

Lemma distinct_In l x : In x (distinct eqb l) <-> In x l.
Proof.
  induction l as [|a l IH]; simpl; [tauto|].
  rewrite filter_In, IH, neqb_iff.
  destruct (eqb_dec a x) as [->|n]; [tauto|].
  split; [tauto|]. intros [H|H]; [tauto|]. right; split; congruence.
Qed.

Lemma NoDup_filter (f : A -> bool) l : NoDup l -> NoDup (filter f l).
Proof.
  induction 1 as [|a l Hn Hd IH]; simpl; [constructor|].
  destruct (f a); [constructor|]; auto.
  rewrite filter_In; tauto.
Qed.

Lemma NoDup_distinct l : NoDup (distinct eqb l).
Proof.
  induction l as [|a l IH]; simpl; constructor.
  - rewrite filter_In, neqb_iff. tauto.
  - now apply NoDup_filter.
Qed.

Lemma filter_all (f : A -> bool) l :
  (forall x, In x l -> f x = true) -> filter f l = l.
Proof.
  induction l as [|a l IH]; simpl; intros H; [reflexivity|].
  rewrite (H a) by auto. f_equal. apply IH. auto.
Qed.

Lemma filter_none (f : A -> bool) l :
  (forall x, In x l -> f x = false) -> filter f l = [].
Proof.
  induction l as [|a l IH]; simpl; intros H; [reflexivity|].
  rewrite (H a) by auto. apply IH. auto.
Qed.

Lemma distinct_NoDup_id l : NoDup l -> distinct eqb l = l.
Proof.
  induction 1 as [|a l Hn Hd IH]; simpl; [reflexivity|].
  rewrite IH. f_equal. apply filter_all.
  intros x Hx. rewrite neqb_iff. congruence.
Qed.

Lemma filter_comm (f g : A -> bool) l :
  filter f (filter g l) = filter g (filter f l).
Proof.
  induction l as [|a l IH]; simpl; [reflexivity|].
  destruct (f a) eqn:Ef, (g a) eqn:Eg; simpl; rewrite ?Ef, ?Eg, IH; reflexivity.
Qed.

Lemma filter_idem (f : A -> bool) l : filter f (filter f l) = filter f l.
Proof.
  apply filter_all. intros x Hx. now apply filter_In in Hx.
Qed.

Lemma filter_distinct a l :
  filter (fun y => negb (eqb y a)) (distinct eqb l)
  = distinct eqb (filter (fun y => negb (eqb y a)) l).
Proof.
  induction l as [|x t IH]; simpl; [reflexivity|].
  destruct (eqb x a) eqn:Exa; simpl.
  - apply eqb_spec in Exa. subst x. now rewrite filter_idem.
  - now rewrite filter_comm, IH.
Qed.

(** Appending values that already occur adds no distinct value and
    keeps the order. *)
Lemma distinct_app_incl l m :
  NoDup l -> incl m l -> distinct eqb (l ++ m) = l.
Proof.
  intros Hd. revert m. induction Hd as [|a l Hn Hd IH]; intros m Hm.
  - destruct m as [|b m]; [reflexivity|]. destruct (Hm b); simpl; auto.
  - simpl. f_equal. rewrite filter_distinct, filter_app.
    rewrite (@filter_all _ l).
    + apply IH. intros x Hx. apply filter_In in Hx as [Hx Hne].
      rewrite neqb_iff in Hne.
      destruct (Hm x Hx); [congruence | assumption].
    + intros x Hx. rewrite neqb_iff. congruence.
Qed.

(** Two tables with the same values have as many distinct values. *)
Lemma distinct_length_ext l m :
  (forall x, In x l <-> In x m) -> List.length (distinct eqb l) = List.length (distinct eqb m).
Proof.
  intros H. apply Nat.le_antisymm; apply NoDup_incl_length;
    try apply NoDup_distinct; intros x; rewrite !distinct_In; apply H.
Qed.
End Distinct.

Lemma sql_min_None l : sql_min l = None <-> l = [].
Proof.
destruct l as [|x t]; simpl; [tauto|].
destruct (sql_min t); split; discriminate.
Qed.

(** [MIN] returns a member of the group that is below every member. *)
Lemma sql_min_Some l m :
sql_min l = Some m <-> In m l /\ forall x, In x l -> StrOrd.le m x.
Proof.
revert m. induction l as [|a l IH]; intros m; simpl.
- split; [discriminate | tauto].
- destruct (sql_min l) as [m'|] eqn:E.
  + destruct (proj1 (IH m') eq_refl) as [Hin Hle]. split.
    * intros [= <-]. split.
      -- destruct (StrOrdFacts.str_min_cases a m') as [->| ->]; auto.
      -- intros x [<-|Hx]; [apply StrOrdFacts.str_min_le_l|].
         eapply StrOrdFacts.le_trans; [apply StrOrdFacts.str_min_le_r | auto].
    * intros [Hm Hall]. f_equal. apply StrOrdFacts.le_antisym.
      -- destruct Hm as [<-|Hm]; [apply StrOrdFacts.str_min_le_l|].
         eapply StrOrdFacts.le_trans; [apply StrOrdFacts.str_min_le_r | auto].
      -- apply StrOrdFacts.str_min_glb; auto.
  + apply sql_min_None in E. subst l. split.
    * intros [= <-]. split; [auto|]. intros x [<-|[]]. apply StrOrdFacts.le_refl.
    * intros [[<-|[]] _]. reflexivity.
Qed.

Lemma sql_max_None l : sql_max l = None <-> l = [].
Proof.
destruct l as [|x t]; simpl; [tauto|].
destruct (sql_max t); split; discriminate.
Qed.

Lemma sql_max_Some l m :
sql_max l = Some m -> In m l /\ forall x, In x l -> (x <= m)%Z.
Proof.
revert m. induction l as [|a l IH]; intros m; simpl; [discriminate|].
destruct (sql_max l) as [m'|] eqn:E.
- destruct (IH m' eq_refl) as [Hin Hle]. intros [= <-]. split.
  + destruct (Z.max_spec a m') as [[_ ->]|[_ ->]]; auto.
  + intros x [<-|Hx]; [lia|]. specialize (Hle x Hx). lia.
- apply sql_max_None in E. subst l. intros [= <-]. split; [auto|].
  intros x [<-|[]]. lia.
Qed.

Lemma str_distinct_In l x : In x (distinct String.eqb l) <-> In x l.
Proof. apply distinct_In, String.eqb_eq. Qed.

Lemma str_NoDup_distinct l : NoDup (distinct String.eqb l).
Proof. apply NoDup_distinct, String.eqb_eq. Qed.

Lemma str_distinct_app_incl l m :
  NoDup l -> incl m l -> distinct String.eqb (l ++ m) = l.
Proof. apply distinct_app_incl, String.eqb_eq. Qed.

Lemma str_distinct_length_ext l m :
  (forall x, In x l <-> In x m) ->
  List.length (distinct String.eqb l) = List.length (distinct String.eqb m).
Proof. apply distinct_length_ext, String.eqb_eq. Qed.

End SqlFacts.

(* ================================================================== *)
(** ** Label propagation: one superstep *)

Module LabelPropagationFacts.
Import StrOrd Sql LabelPropagation GraphSpec StrOrdFacts SqlFacts.

Lemma label_row_eta (r : label_row) : mk_label (l_entity_key r) (l_label r) = r.
Proof. now destruct r. Qed.

Lemma In_candidate_labels lp_edges labels r :
  In r (candidate_labels labels lp_edges)
  <-> candidate lp_edges labels (l_entity_key r) (l_label r).
Proof.
  unfold candidate_labels, candidate. rewrite in_app_iff, in_flat_map.
  rewrite label_row_eta. split.
  - intros [H|(e & He & H)]; [now left|right].
    apply in_map_iff in H as (l2 & <- & Hl2).
    apply filter_In in Hl2 as [Hl2 Heq]. apply String.eqb_eq in Heq.
    exists e, l2. simpl. auto.
  - intros [H|(e & l2 & He & Hl2 & Hd & Hs & Hx)]; [now left|right].
    exists e. split; [assumption|]. apply in_map_iff. exists l2. split.
    + destruct r; simpl in *. now subst.
    + apply filter_In. split; [assumption|]. now apply String.eqb_eq.
Qed.

Lemma In_group_labels candidates k x :
  In x (map l_label (filter (fun c => String.eqb (l_entity_key c) k) candidates))
  <-> In (mk_label k x) candidates.
Proof.
  rewrite in_map_iff. split.
  - intros (c & <- & Hc). apply filter_In in Hc as [Hc Hk].
    apply String.eqb_eq in Hk. subst k. now rewrite label_row_eta.
  - intros H. exists (mk_label k x). split; [reflexivity|].
    apply filter_In. split; [assumption|]. simpl. apply String.eqb_refl.
Qed.

(** A row of the new table is the least candidate of its key. *)
Lemma In_propagate lp_edges labels r :
  In r (propagate lp_edges labels)
  <-> candidate lp_edges labels (l_entity_key r) (l_label r) /\
      forall x, candidate lp_edges labels (l_entity_key r) x -> le (l_label r) x.
Proof.
  unfold propagate. rewrite in_flat_map. split.
  - intros (k & _ & Hr).
    destruct (sql_min _) as [m|] eqn:Hmin; [|contradiction].
    destruct Hr as [<-|[]]. simpl.
    apply sql_min_Some in Hmin as [Hin Hle]. split.
    + apply In_group_labels in Hin. now apply In_candidate_labels in Hin.
    + intros x Hx. apply Hle. apply In_group_labels.
      now apply (In_candidate_labels lp_edges labels (mk_label k x)).
  - intros [Hc Hle]. exists (l_entity_key r). split.
    + apply str_distinct_In. apply in_map.
      now apply In_candidate_labels.
    + assert (Hmin : sql_min
                (map l_label
                   (filter (fun c => String.eqb (l_entity_key c) (l_entity_key r))
                      (candidate_labels labels lp_edges))) = Some (l_label r)).
      { apply sql_min_Some. split.
        - apply In_group_labels. rewrite label_row_eta.
          now apply In_candidate_labels.
        - intros x Hx. apply Hle. apply In_group_labels in Hx.
          now apply (In_candidate_labels lp_edges labels (mk_label (l_entity_key r) x)). }
      rewrite Hmin. left. apply label_row_eta.
Qed.

Lemma candidate_same_rows e1 e2 l1 l2 k x :
  same_rows e1 e2 -> same_rows l1 l2 ->
  candidate e1 l1 k x -> candidate e2 l2 k x.
Proof.
  intros He Hl [H|(e & r & H1 & H2 & H3)]; [left; now apply Hl|right].
  exists e, r. split; [now apply He|]. split; [now apply Hl|assumption].
Qed.

Lemma same_rows_sym {A} (t1 t2 : list A) : same_rows t1 t2 -> same_rows t2 t1.
Proof. intros H r. symmetry. apply H. Qed.

(** A superstep reads its tables as sets of rows. *)
Lemma propagate_same_rows e1 e2 l1 l2 :
  same_rows e1 e2 -> same_rows l1 l2 ->
  same_rows (propagate e1 l1) (propagate e2 l2).
Proof.
  intros He Hl r. rewrite !In_propagate.
  pose proof (same_rows_sym He) as He'. pose proof (same_rows_sym Hl) as Hl'.
  split; intros [Hc Hle]; (split; [eapply candidate_same_rows; eauto|]);
    intros x Hx; apply Hle; eapply candidate_same_rows; eauto.
Qed.

Lemma count_changes_zero prev curr :
  count_changes prev curr = 0
  <-> forall p c, In p prev -> In c curr ->
                  l_entity_key p = l_entity_key c -> l_label p = l_label c.
Proof.
  unfold count_changes. rewrite length_zero_iff_nil. split.
  - intros H p c Hp Hc Hk.
    destruct (String.eqb (l_label p) (l_label c)) eqn:E;
      [now apply String.eqb_eq|].
    assert (Hin : In c (flat_map
      (fun p => filter (fun c => String.eqb (l_entity_key p) (l_entity_key c)
                                 && negb (String.eqb (l_label p) (l_label c))) curr) prev)).
    { apply in_flat_map. exists p. split; [assumption|].
      apply filter_In. split; [assumption|].
      rewrite Hk, String.eqb_refl, E. reflexivity. }
    rewrite H in Hin. contradiction.
  - intros H. destruct (flat_map _ prev) as [|c t] eqn:E; [reflexivity|].
    assert (Hin : In c (c :: t)) by now left. rewrite <- E in Hin.
    apply in_flat_map in Hin as (p & Hp & Hc).
    apply filter_In in Hc as [Hc Hb]. apply andb_true_iff in Hb as [Hk Hl].
    apply String.eqb_eq in Hk. rewrite (H p c Hp Hc Hk), String.eqb_refl in Hl.
    discriminate.
Qed.

Lemma count_changes_same_rows p1 p2 c1 c2 :
  same_rows p1 p2 -> same_rows c1 c2 ->
  (count_changes p1 c1 =? 0) = (count_changes p2 c2 =? 0).
Proof.
  intros Hp Hc.
  destruct (count_changes p1 c1 =? 0) eqn:E1, (count_changes p2 c2 =? 0) eqn:E2;
    try reflexivity; exfalso.
  - apply Nat.eqb_eq in E1. apply Nat.eqb_neq in E2. apply E2.
    rewrite count_changes_zero in *. intros p c H1 H2.
    apply E1; [now apply Hp | now apply Hc].
  - apply Nat.eqb_eq in E2. apply Nat.eqb_neq in E1. apply E1.
    rewrite count_changes_zero in *. intros p c H1 H2.
    apply E2; [now apply Hp | now apply Hc].
Qed.

(** The loop reads its tables as sets of rows. *)
Lemma lp_loop_same_rows e1 e2 :
  same_rows e1 e2 ->
  forall remaining i l1 l2, same_rows l1 l2 ->
    iterations (lp_loop e1 remaining i l1) = iterations (lp_loop e2 remaining i l2) /\
    stopped (lp_loop e1 remaining i l1) = stopped (lp_loop e2 remaining i l2) /\
    same_rows (lp_labels (lp_loop e1 remaining i l1))
              (lp_labels (lp_loop e2 remaining i l2)).
Proof.
  intros He. induction remaining as [|n IH]; intros i l1 l2 Hl; simpl.
  - auto.
  - pose proof (propagate_same_rows He Hl) as Hn.
    rewrite (count_changes_same_rows Hl Hn).
    destruct (count_changes l2 (propagate e2 l2) =? 0); simpl; auto.
Qed.

Lemma build_lp_edges_In edges_new e :
  In e (build_lp_edges edges_new) <-> adjacent edges_new (src e) (dst e).
Proof.
  unfold build_lp_edges, adjacent. rewrite in_app_iff, !in_map_iff. split.
  - intros [(x & <- & Hx)|(x & <- & Hx)]; exists x; simpl; auto.
  - intros (x & Hx & [[H1 H2]|[H1 H2]]); [left|right]; exists x;
      (split; [destruct e; simpl in *; now subst | assumption]).
Qed.

Lemma build_lp_edges_same_rows en1 en2 :
  same_rows en1 en2 -> same_rows (build_lp_edges en1) (build_lp_edges en2).
Proof.
  intros H e. rewrite !build_lp_edges_In. unfold adjacent.
  split; intros (x & Hx & Hc); exists x; (split; [now apply H | assumption]).
Qed.

Lemma init_labels_In run_id entities_delta r :
  In r (init_labels run_id entities_delta)
  <-> l_label r = l_entity_key r /\
      exists e, In e entities_delta /\ ed_run_id e = run_id /\
                ed_entity_key e = l_entity_key r.
Proof.
  unfold init_labels. rewrite in_map_iff. split.
  - intros (k & <- & Hk). simpl. split; [reflexivity|].
    rewrite str_distinct_In in Hk. apply in_map_iff in Hk as (e & <- & He).
    apply filter_In in He as [He Hr]. apply String.eqb_eq in Hr. eauto.
  - intros [Hl (e & He & Hr & Hk)]. exists (l_entity_key r). split.
    + destruct r; simpl in *. now subst.
    + apply str_distinct_In. apply in_map_iff. exists e.
      split; [assumption|]. apply filter_In. split; [assumption|].
      now apply String.eqb_eq.
Qed.

Lemma init_labels_same_rows run_id ed1 ed2 :
  same_rows ed1 ed2 ->
  same_rows (init_labels run_id ed1) (init_labels run_id ed2).
Proof.
  intros H r. rewrite !init_labels_In.
  split; intros [Hl (e & He & Hr)]; (split; [assumption|]); exists e;
    (split; [now apply H | assumption]).
Qed.

End LabelPropagationFacts.

(* ================================================================== *)
(** ** Label propagation: the invariant of the loop *)

Unset Implicit Arguments.

Module LabelPropagationInvariant.
Import StrOrd Sql LabelPropagation GraphSpec StrOrdFacts SqlFacts.
Import LabelPropagationFacts.

Section Run.
Variable run_id : string.
Variable entities_delta : list entity_delta_row.
Variable edges_new : list edge_row.
Hypothesis closed : edges_over_entities run_id entities_delta edges_new.

Local Abbreviation E0 := (entity_keys run_id entities_delta).
Local Abbreviation lp_edges := (build_lp_edges edges_new).
Local Abbreviation L0 := (init_labels run_id entities_delta).
Local Abbreviation Inv := (labels_invariant run_id entities_delta edges_new).

Lemma entity_keys_distinct :
  E0 = distinct String.eqb
         (map ed_entity_key
              (filter (fun e => String.eqb (ed_run_id e) run_id) entities_delta)).
Proof.
  unfold entity_keys, init_labels. rewrite map_map. simpl. apply map_id.
Qed.

Lemma entity_keys_NoDup : NoDup E0.
Proof. rewrite entity_keys_distinct. apply str_NoDup_distinct. Qed.

Lemma unique_row (labels : list label_row) r1 r2 :
  NoDup (map l_entity_key labels) ->
  In r1 labels -> In r2 labels -> l_entity_key r1 = l_entity_key r2 -> r1 = r2.
Proof.
  induction labels as [|a t IH]; simpl; intros Hd H1 H2 Hk; [contradiction|].
  inversion Hd as [|? ? Hn Hd']; subst.
  destruct H1 as [->|H1], H2 as [->|H2]; auto.
  - exfalso. apply Hn. rewrite Hk. now apply in_map.
  - exfalso. apply Hn. rewrite <- Hk. now apply in_map.
Qed.

Lemma lp_edge_src_entity e : In e lp_edges -> In (src e) E0.
Proof.
  rewrite build_lp_edges_In. intros (x & Hx & [[<- _]|[_ <-]]);
    now apply closed in Hx.
Qed.

Lemma adjacent_entity u v : adjacent edges_new u v -> In u E0 /\ In v E0.
Proof.
  intros (x & Hx & [[<- <-]|[<- <-]]); apply closed in Hx; tauto.
Qed.

Lemma adjacent_sym u v : adjacent edges_new u v -> adjacent edges_new v u.
Proof. intros (x & Hx & H). exists x. tauto. Qed.

Lemma connected_entity u v : connected edges_new u v -> In u E0 -> In v E0.
Proof.
  induction 1 as [u v H| |u w v _ IH1 _ IH2]; intros Hu; auto.
  now apply adjacent_entity in H.
Qed.

Lemma init_invariant : Inv L0.
Proof.
  split; [reflexivity|]. intros r Hr.
  apply init_labels_In in Hr as [-> _]. split; [apply rt_refl | apply le_refl].
Qed.

Lemma flat_map_singletons (f : string -> list label_row) l :
  (forall k, In k l -> exists m, f k = [mk_label k m]) ->
  map l_entity_key (flat_map f l) = l.
Proof.
  induction l as [|a t IH]; simpl; intros H; [reflexivity|].
  destruct (H a (or_introl eq_refl)) as [m ->]. simpl. f_equal. auto.
Qed.

(** A superstep keeps the key column as it is. *)
Lemma propagate_keys labels :
  map l_entity_key labels = E0 ->
  map l_entity_key (propagate lp_edges labels) = E0.
Proof.
  intros HK. unfold propagate.
  assert (Hkeys : distinct String.eqb
                    (map l_entity_key (candidate_labels labels lp_edges)) = E0).
  { unfold candidate_labels. rewrite map_app, HK.
    apply str_distinct_app_incl; [apply entity_keys_NoDup|].
    intros k Hk. apply in_map_iff in Hk as (c & <- & Hc).
    apply in_flat_map in Hc as (e & He & Hc).
    apply in_map_iff in Hc as (l2 & <- & _). simpl. now apply lp_edge_src_entity. }
  rewrite Hkeys. apply flat_map_singletons. intros k Hk.
  destruct (sql_min _) as [m|] eqn:Hmin; [eauto|].
  exfalso. apply sql_min_None in Hmin.
  rewrite <- HK in Hk. apply in_map_iff in Hk as (r & <- & Hr).
  assert (Hin : In (l_label r)
                   (map l_label
                        (filter (fun c => String.eqb (l_entity_key c) (l_entity_key r))
                                (candidate_labels labels lp_edges)))).
  { apply In_group_labels. rewrite label_row_eta. apply in_or_app. now left. }
  rewrite Hmin in Hin. contradiction.
Qed.

(** A new label is never above the old one. *)
Lemma propagate_decreases labels r r' :
  In r labels -> In r' (propagate lp_edges labels) ->
  l_entity_key r' = l_entity_key r -> le (l_label r') (l_label r).
Proof.
  intros Hr Hr' Hk. apply In_propagate in Hr' as [_ Hle]. apply Hle.
  left. rewrite Hk. now rewrite label_row_eta.
Qed.

Lemma propagate_invariant labels : Inv labels -> Inv (propagate lp_edges labels).
Proof.
  intros [HK HR]. split; [now apply propagate_keys|].
  intros r Hr. pose proof Hr as Hr0.
  apply In_propagate in Hr as [Hc Hle]. split.
  - destruct Hc as [Hc|(e & l2 & He & Hl2 & Hd & Hs & Hx)].
    + apply HR in Hc. simpl in Hc. tauto.
    + apply build_lp_edges_In in He. rewrite Hs, Hd in He.
      eapply rt_trans; [apply rt_step, He|]. rewrite <- Hx. now apply HR.
  - assert (Hk : In (l_entity_key r) E0).
    { rewrite <- (propagate_keys labels HK). now apply in_map. }
    rewrite <- HK in Hk. apply in_map_iff in Hk as (r0 & Hk0 & Hr0').
    eapply le_trans; [apply (propagate_decreases labels r0 r Hr0' Hr0); congruence|].
    rewrite <- Hk0. now apply HR.
Qed.

Lemma labels_after_invariant n : Inv (labels_after lp_edges n L0).
Proof.
  induction n as [|n IH]; simpl; [apply init_invariant | now apply propagate_invariant].
Qed.

Lemma same_keys_same_labels (l1 l2 : list label_row) :
  map l_entity_key l1 = map l_entity_key l2 ->
  (forall p c, In p l1 -> In c l2 ->
               l_entity_key p = l_entity_key c -> l_label p = l_label c) ->
  l1 = l2.
Proof.
  revert l2. induction l1 as [|a t IH]; intros [|b u]; simpl; try discriminate;
    [reflexivity|].
  intros [= Hk Ht] H. f_equal.
  - destruct a as [ka la], b as [kb lb]; simpl in *.
    f_equal; [assumption|]. apply (H (mk_label ka la) (mk_label kb lb)); auto.
  - apply IH; [assumption|]. intros p c Hp Hc. apply H; auto.
Qed.

(** When the convergence check counts no change, the new table is the old
    one. *)
Lemma no_change_fixed labels :
  Inv labels -> count_changes labels (propagate lp_edges labels) = 0 ->
  propagate lp_edges labels = labels.
Proof.
  intros [HK _] Hc. symmetry. apply same_keys_same_labels.
  - now rewrite propagate_keys.
  - now apply count_changes_zero.
Qed.

Lemma fixed_stays n labels :
  propagate lp_edges labels = labels -> labels_after lp_edges n labels = labels.
Proof.
  intros H. induction n as [|n IH]; simpl; [reflexivity|]. now rewrite IH.
Qed.

Lemma labels_after_add n m labels :
  labels_after lp_edges (n + m) labels
  = labels_after lp_edges n (labels_after lp_edges m labels).
Proof.
  induction n as [|n IH]; simpl; [reflexivity|]. now rewrite IH.
Qed.

(** At a fixed point the two ends of an edge carry the same label. *)
Lemma fixed_adjacent_equal labels ru rv :
  Inv labels -> propagate lp_edges labels = labels ->
  In ru labels -> In rv labels ->
  adjacent edges_new (l_entity_key ru) (l_entity_key rv) ->
  l_label ru = l_label rv.
Proof.
  intros HI Hfix Hu Hv Hadj.
  assert (Hle : forall a b, In a labels -> In b labels ->
                  adjacent edges_new (l_entity_key a) (l_entity_key b) ->
                  le (l_label a) (l_label b)).
  { intros a b Ha Hb Hab. rewrite <- Hfix in Ha.
    apply In_propagate in Ha as [_ Hle]. apply Hle. right.
    exists (mk_lp_edge (l_entity_key a) (l_entity_key b)), b.
    rewrite build_lp_edges_In. simpl. auto. }
  apply le_antisym; apply Hle; auto. now apply adjacent_sym.
Qed.

Lemma fixed_connected_equal labels :
  Inv labels -> propagate lp_edges labels = labels ->
  forall u v, connected edges_new u v ->
  forall ru rv, In ru labels -> In rv labels ->
                l_entity_key ru = u -> l_entity_key rv = v ->
                l_label ru = l_label rv.
Proof.
  intros HI Hfix u v Hc. pose proof HI as [HK _].
  apply clos_rt_rt1n in Hc.
  induction Hc as [u|u w v Hadj Hc IH]; intros ru rv Hu Hv Eu Ev.
  - f_equal. apply (unique_row labels); auto; [|congruence].
    rewrite HK. apply entity_keys_NoDup.
  - destruct (adjacent_entity u w Hadj) as [_ Hw].
    rewrite <- HK in Hw. apply in_map_iff in Hw as (rw & Ew & Hw).
    transitivity (l_label rw).
    + apply (fixed_adjacent_equal labels ru rw HI Hfix Hu Hw). now rewrite Eu, Ew.
    + now apply IH.
Qed.

(** At a fixed point every label is the least key of its component. *)
Lemma fixed_component_min labels r :
  Inv labels -> propagate lp_edges labels = labels ->
  In r labels -> component_min edges_new (l_entity_key r) (l_label r).
Proof.
  intros HI Hfix Hr. pose proof HI as [HK HR]. split; [now apply HR|].
  intros v Hv.
  assert (Hin : In v E0).
  { apply (connected_entity (l_entity_key r) v Hv). rewrite <- HK. now apply in_map. }
  rewrite <- HK in Hin. apply in_map_iff in Hin as (rv & Ev & Hrv).
  rewrite (fixed_connected_equal labels HI Hfix (l_entity_key r) v Hv r rv Hr Hrv eq_refl Ev).
  rewrite <- Ev. now apply HR.
Qed.

(** The loop returns the table of some superstep, within its budget. *)
Lemma lp_loop_labels_after remaining i labels :
  let s := lp_loop lp_edges remaining i labels in
  i <= iterations s <= i + remaining /\
  lp_labels s = labels_after lp_edges (iterations s - i) labels.
Proof.
  revert i labels. induction remaining as [|n IH]; intros i labels; cbn -[Nat.sub].
  - rewrite Nat.sub_diag. simpl. split; [lia|reflexivity].
  - destruct (count_changes labels (propagate lp_edges labels) =? 0); cbn -[Nat.sub].
    + replace (S i - i) with 1 by lia. simpl. split; [lia|reflexivity].
    + destruct (IH (S i) (propagate lp_edges labels)) as [Hi Hl].
      split; [lia|]. rewrite Hl.
      set (j := iterations (lp_loop lp_edges n (S i) (propagate lp_edges labels))) in *.
      replace (j - i) with ((j - S i) + 1) by lia.
      now rewrite labels_after_add.
Qed.

Lemma lp_loop_invariant remaining i labels :
  Inv labels ->
  let s := lp_loop lp_edges remaining i labels in
  Inv (lp_labels s) /\
  (stopped s = NoLabelChanged -> propagate lp_edges (lp_labels s) = lp_labels s).
Proof.
  revert i labels. induction remaining as [|n IH]; intros i labels HI; simpl.
  - split; [assumption|discriminate].
  - destruct (count_changes labels (propagate lp_edges labels) =? 0) eqn:E; simpl.
    + apply Nat.eqb_eq in E. pose proof (no_change_fixed labels HI E) as Hfix.
      split; [now apply propagate_invariant|]. intros _. now rewrite !Hfix.
    + apply IH. now apply propagate_invariant.
Qed.

End Run.
End LabelPropagationInvariant.

(* ================================================================== *)
(** ** Label propagation: what the loop returns *)

Module LabelPropagationCorrect.
Import StrOrd Sql LabelPropagation GraphSpec StrOrdFacts SqlFacts.
Import LabelPropagationFacts LabelPropagationInvariant.

Lemma run_loop_same_rows max_iters run_id ed1 ed2 en1 en2 :
  same_rows ed1 ed2 -> same_rows en1 en2 ->
  iterations (run_loop max_iters run_id ed1 en1)
  = iterations (run_loop max_iters run_id ed2 en2) /\
  stopped (run_loop max_iters run_id ed1 en1)
  = stopped (run_loop max_iters run_id ed2 en2) /\
  same_rows (lp_labels (run_loop max_iters run_id ed1 en1))
            (lp_labels (run_loop max_iters run_id ed2 en2)).
Proof.
  intros Hd Hn. unfold run_loop. apply lp_loop_same_rows.
  - now apply build_lp_edges_same_rows.
  - now apply init_labels_same_rows.
Qed.

Lemma count_clusters_same_rows l1 l2 :
  same_rows l1 l2 -> count_clusters l1 = count_clusters l2.
Proof.
  intros H. unfold count_clusters. apply str_distinct_length_ext.
  intros x. rewrite !in_map_iff.
  split; intros (r & Hr & Hin); exists r; (split; [assumption | now apply H]).
Qed.

(** C1.  For a fixed entity set and edge set, label propagation is
    deterministic: presenting the same entity rows and edge rows in any
    order (or multiplicity) yields the same iteration count, the same
    reason to stop, the same label rows and the same returned pair.  The
    final table has one row per entity.  When the loop stops because no
    label changed, every entity's label is the least entity key of its
    connected component, and therefore every cluster id is the least key
    among the members of the cluster. *)
Theorem label_propagation_deterministic_component_min :
  forall (max_iters : nat) (run_id : string)
         (entities_delta : list entity_delta_row) (edges_new : list edge_row),
    edges_over_entities run_id entities_delta edges_new ->
    let s := run_loop max_iters run_id entities_delta edges_new in
    (forall entities_delta' edges_new',
        same_rows entities_delta entities_delta' ->
        same_rows edges_new edges_new' ->
        let s' := run_loop max_iters run_id entities_delta' edges_new' in
        iterations s' = iterations s /\
        stopped s' = stopped s /\
        same_rows (lp_labels s') (lp_labels s) /\
        label_propagation max_iters run_id entities_delta' edges_new'
        = label_propagation max_iters run_id entities_delta edges_new) /\
    map l_entity_key (lp_labels s) = entity_keys run_id entities_delta /\
    (stopped s = NoLabelChanged ->
     forall r, In r (lp_labels s) ->
       component_min edges_new (l_entity_key r) (l_label r) /\
       In (mk_label (l_label r) (l_label r)) (lp_labels s) /\
       forall r', In r' (lp_labels s) -> l_label r' = l_label r ->
                  le (l_label r) (l_entity_key r')).
Proof.
  intros max_iters run_id ed en closed s.
  destruct (lp_loop_invariant run_id ed en closed max_iters 0
              (init_labels run_id ed) (init_invariant run_id ed en))
    as [HI Hfix].
  fold (run_loop max_iters run_id ed en) in HI, Hfix. fold s in HI, Hfix.
  split; [|split].
  - intros ed' en' Hd Hn s'.
    destruct (run_loop_same_rows max_iters run_id ed' ed en' en
                (same_rows_sym Hd) (same_rows_sym Hn)) as (Hi & Hs & Hl).
    fold s s' in Hi, Hs, Hl. repeat split; try assumption; try apply Hl.
    unfold label_propagation. fold s s'. rewrite Hi.
    f_equal. now apply count_clusters_same_rows.
  - apply HI.
  - intros Hstop r Hr. specialize (Hfix Hstop).
    pose proof (fixed_component_min run_id ed en closed (lp_labels s) r HI Hfix Hr)
      as Hmin.
    split; [exact Hmin|]. destruct HI as [HK HR]. split.
    + assert (Hin : In (l_label r) (entity_keys run_id ed)).
      { apply (connected_entity run_id ed en closed (l_entity_key r));
          [apply Hmin|]. rewrite <- HK. now apply in_map. }
      rewrite <- HK in Hin. apply in_map_iff in Hin as (rc & Ec & Hrc).
      assert (El : l_label r = l_label rc).
      { apply (fixed_connected_equal run_id ed en closed (lp_labels s)
                 (conj HK HR) Hfix (l_entity_key r) (l_label r)); auto.
        apply Hmin. }
      destruct rc as [kc lc]; simpl in *. subst. exact Hrc.
    + intros r' Hr' El. rewrite <- El. now apply HR.
Qed.

(** C10.  At every superstep [n] the label table has one row per entity;
    every label is at most the entity's own key, is the key of an
    entity of the same connected component, and is at most the label of
    the previous superstep (stated between [n] and [n+1]); once a
    superstep changes no label, all later tables equal that one.  The
    table the loop leaves behind is the table of the superstep it
    stopped at. *)
Theorem label_propagation_labels_only_decrease :
  forall (run_id : string) (entities_delta : list entity_delta_row)
         (edges_new : list edge_row),
    edges_over_entities run_id entities_delta edges_new ->
    let lp_edges := build_lp_edges edges_new in
    let labels_at n := labels_after lp_edges n (init_labels run_id entities_delta) in
    (forall n,
        map l_entity_key (labels_at n) = entity_keys run_id entities_delta /\
        (forall r, In r (labels_at n) ->
                   le (l_label r) (l_entity_key r) /\
                   is_entity run_id entities_delta (l_label r) /\
                   connected edges_new (l_entity_key r) (l_label r)) /\
        (forall r r', In r (labels_at n) -> In r' (labels_at (S n)) ->
                      l_entity_key r' = l_entity_key r ->
                      le (l_label r') (l_label r)) /\
        (count_changes (labels_at n) (labels_at (S n)) = 0 ->
         forall m, n <= m -> labels_at m = labels_at n)) /\
    (forall max_iters,
        let s := run_loop max_iters run_id entities_delta edges_new in
        iterations s <= max_iters /\ lp_labels s = labels_at (iterations s)).
Proof.
  intros run_id ed en closed lp_edges labels_at. split.
  - intros n.
    pose proof (labels_after_invariant run_id ed en closed n) as HI.
    fold lp_edges in HI. fold (labels_at n) in HI.
    destruct HI as [HK HR]. split; [exact HK|]. split; [|split].
    + intros r Hr. destruct (HR r Hr) as [Hc Hle]. repeat split; try assumption.
      unfold is_entity.
      apply (connected_entity run_id ed en closed (l_entity_key r)); [exact Hc|].
      rewrite <- HK. now apply in_map.
    + intros r r' Hr Hr' Hk.
      now apply (propagate_decreases en (labels_at n) r r').
    + intros Hc m Hm.
      pose proof (no_change_fixed run_id ed en closed (labels_at n) (conj HK HR) Hc)
        as Hfix.
      replace m with ((m - n) + n) by lia. unfold labels_at, lp_edges.
      rewrite labels_after_add. now apply fixed_stays.
  - intros max_iters s.
    destruct (lp_loop_labels_after en max_iters 0 (init_labels run_id ed))
      as [Hi Hl].
    rewrite Nat.sub_0_r in Hl. unfold s, run_loop, labels_at, lp_edges.
    split; [lia | exact Hl].
Qed.

Lemma sample_edges_over_entities :
  edges_over_entities "run_1" Examples.sample_entities
    (BuildEdges.edges_new Examples.sample_identifiers).
Proof.
  intros e He. vm_compute in He.
  destruct He as [<-|[<-|[]]]; split; vm_compute; tauto.
Defined.

Lemma label_propagation_deterministic_component_min_witness :
  edges_over_entities "run_1" Examples.sample_entities
    (BuildEdges.edges_new Examples.sample_identifiers) /\
  stopped (run_loop 30 "run_1" Examples.sample_entities
             (BuildEdges.edges_new Examples.sample_identifiers)) = NoLabelChanged /\
  forall r,
    In r (lp_labels (run_loop 30 "run_1" Examples.sample_entities
                       (BuildEdges.edges_new Examples.sample_identifiers))) ->
    component_min (BuildEdges.edges_new Examples.sample_identifiers)
                  (l_entity_key r) (l_label r).
Proof.
  split; [exact sample_edges_over_entities|].
  assert (Hstop : stopped (run_loop 30 "run_1" Examples.sample_entities
                             (BuildEdges.edges_new Examples.sample_identifiers))
                  = NoLabelChanged) by (vm_compute; reflexivity).
  split; [exact Hstop|].
  intros r Hr.
  pose proof (label_propagation_deterministic_component_min 30 "run_1"
                Examples.sample_entities
                (BuildEdges.edges_new Examples.sample_identifiers)
                sample_edges_over_entities) as H.
  cbv zeta in H. destruct H as (_ & _ & H).
  destruct (H Hstop r Hr) as [Hmin _]. exact Hmin.
Defined.

Lemma label_propagation_labels_only_decrease_witness :
  edges_over_entities "run_1" Examples.sample_entities
    (BuildEdges.edges_new Examples.sample_identifiers) /\
  forall r,
    In r (labels_after
            (build_lp_edges (BuildEdges.edges_new Examples.sample_identifiers))
            2 (init_labels "run_1" Examples.sample_entities)) ->
    le (l_label r) (l_entity_key r).
Proof.
  split; [exact sample_edges_over_entities|].
  intros r Hr.
  pose proof (label_propagation_labels_only_decrease "run_1"
                Examples.sample_entities
                (BuildEdges.edges_new Examples.sample_identifiers)
                sample_edges_over_entities) as H.
  cbv zeta in H. destruct H as [H _].
  destruct (H 2) as (_ & H2 & _). destruct (H2 r Hr) as [Hle _]. exact Hle.
Defined.

End LabelPropagationCorrect.

(* ================================================================== *)
(** ** build_edges: one star per identifier group *)

Module BuildEdgesFacts.
Import StrOrd Sql BuildEdges StrOrdFacts SqlFacts.

Lemma key_eqb_spec a b : key_eqb a b = true <-> a = b.
Proof.
  destruct a, b; unfold key_eqb; simpl.
  rewrite andb_true_iff, !String.eqb_eq. split; [intros []|intros [=]]; subst; auto.
Qed.

Lemma key_eqb_refl a : key_eqb a a = true.
Proof. now apply key_eqb_spec. Qed.

Lemma key_eqb_sym a b : key_eqb a b = key_eqb b a.
Proof.
  destruct (key_eqb a b) eqn:E1, (key_eqb b a) eqn:E2; try reflexivity.
  - apply key_eqb_spec in E1. subst. now rewrite key_eqb_refl in E2.
  - apply key_eqb_spec in E2. subst. now rewrite key_eqb_refl in E1.
Qed.

Section GroupBy.
Variable G : Type.
Variable gkey : G -> string * string.
Variable f : string * string -> list G.
Hypothesis own_key : forall k g, In g (f k) -> gkey g = k.

(** The rows a [GROUP BY] emits for a key that is no group. *)
Lemma group_by_absent ks k0 :
  ~ In k0 ks -> filter (fun g => key_eqb (gkey g) k0) (flat_map f ks) = [].
Proof.
  intros Hn. apply filter_none. intros g Hg.
  apply in_flat_map in Hg as (k & Hk & Hg). apply own_key in Hg.
  destruct (key_eqb (gkey g) k0) eqn:E; [|reflexivity].
  apply key_eqb_spec in E. congruence.
Qed.

(** The rows a [GROUP BY] emits for one of its keys. *)
Lemma group_by_present ks k0 :
  NoDup ks -> In k0 ks ->
  filter (fun g => key_eqb (gkey g) k0) (flat_map f ks) = f k0.
Proof.
  induction 1 as [|a t Hn Hd IH]; simpl; [contradiction|].
  intros [->|Hin]; rewrite filter_app.
  - rewrite (group_by_absent t k0 Hn), app_nil_r. apply filter_all.
    intros g Hg. apply key_eqb_spec. now apply own_key.
  - rewrite IH by assumption. rewrite filter_none; [reflexivity|].
    intros g Hg. apply own_key in Hg.
    destruct (key_eqb (gkey g) k0) eqn:E; [|reflexivity].
    apply key_eqb_spec in E. congruence.
Qed.
End GroupBy.

Lemma filter_flat_map {A B} (p : B -> bool) (q : A -> bool) (F : A -> list B) l :
  (forall i e, In e (F i) -> p e = q i) ->
  filter p (flat_map F l) = flat_map F (filter q l).
Proof.
  intros H. induction l as [|a t IH]; simpl; [reflexivity|].
  rewrite filter_app, IH. destruct (q a) eqn:E; simpl.
  - f_equal. apply filter_all. intros e He. now rewrite (H a e He).
  - rewrite filter_none; [reflexivity|]. intros e He. now rewrite (H a e He).
Qed.

Lemma flat_map_guard {A B} (c1 c2 : A -> bool) (h : A -> list B) l :
  flat_map (fun g => if c1 g && c2 g then h g else []) l
  = flat_map (fun g => if c2 g then h g else []) (filter c1 l).
Proof.
  induction l as [|a t IH]; simpl; [reflexivity|].
  rewrite IH. destruct (c1 a); simpl; reflexivity.
Qed.

Lemma flat_map_ext_rows {A B} (f g : A -> list B) l :
  (forall a, In a l -> f a = g a) -> flat_map f l = flat_map g l.
Proof.
  induction l as [|a t IH]; simpl; intros H; [reflexivity|].
  rewrite (H a) by auto. f_equal. apply IH. auto.
Qed.

Lemma flat_map_nothing {A B} (l : list A) :
  flat_map (fun _ : A => @nil B) l = [].
Proof. induction l as [|a t IH]; simpl; auto. Qed.

Lemma flat_map_if_singleton {A B} (c : A -> bool) (h : A -> B) l :
  flat_map (fun i => if c i then [h i] else []) l = map h (filter c l).
Proof.
  induction l as [|a t IH]; simpl; [reflexivity|].
  rewrite IH. now destruct (c a).
Qed.

Lemma group_rows_In k i ids :
  In i (group_rows k ids) <-> In i ids /\ group_key i = k.
Proof. unfold group_rows. now rewrite filter_In, key_eqb_spec. Qed.

Lemma group_key_present k ids :
  group_rows k ids <> [] -> In k (distinct key_eqb (map group_key ids)).
Proof.
  intros Hne. destruct (group_rows k ids) as [|i t] eqn:E; [congruence|].
  assert (Hi : In i (group_rows k ids)) by (rewrite E; now left).
  apply group_rows_In in Hi as [Hi <-].
  apply (distinct_In key_eqb key_eqb_spec). now apply in_map.
Qed.

Lemma keys_NoDup ids : NoDup (distinct key_eqb (map group_key ids)).
Proof. apply (NoDup_distinct key_eqb key_eqb_spec). Qed.

(** [identifier_groups] has exactly one row for a group of two or more
    rows: its size, its least entity key, its largest [max_group_size]. *)
Lemma identifier_groups_of_key ids k anchor max_allowed :
  1 < List.length (group_rows k ids) ->
  sql_min (map i_entity_key (group_rows k ids)) = Some anchor ->
  sql_max (map i_max_group_size (group_rows k ids)) = Some max_allowed ->
  filter (fun g => key_eqb (g_identifier_type g, g_identifier_value_norm g) k)
         (identifier_groups ids)
  = [mk_group (fst k) (snd k) (List.length (group_rows k ids)) anchor max_allowed].
Proof.
  intros Hk Hmin Hmax. unfold identifier_groups.
  rewrite (group_by_present identifier_group
             (fun g => (g_identifier_type g, g_identifier_value_norm g))).
  - apply Nat.ltb_lt in Hk. now rewrite Hk, Hmin, Hmax.
  - intros k' g Hg. cbv zeta in Hg.
    destruct (1 <? List.length (group_rows k' ids)); [|contradiction].
    destruct (sql_min (map i_entity_key (group_rows k' ids))); [|contradiction].
    destruct (sql_max (map i_max_group_size (group_rows k' ids))); [|contradiction].
    destruct Hg as [<-|[]]. simpl. now destruct k'.
  - apply keys_NoDup.
  - apply group_key_present. intros E. rewrite E in Hk. simpl in Hk. lia.
Qed.

Lemma filter_filter_comm {A} (f g : A -> bool) l :
  filter f (filter g l) = filter g (filter f l).
Proof.
  induction l as [|a l IH]; simpl; [reflexivity|].
  destruct (f a) eqn:Ef, (g a) eqn:Eg; simpl; rewrite ?Ef, ?Eg, IH; reflexivity.
Qed.

(** The edges of one group: a star onto the anchor when the group is
    within the size limit, nothing otherwise. *)
Lemma edges_new_of_group ids k anchor max_allowed :
  1 < List.length (group_rows k ids) ->
  sql_min (map i_entity_key (group_rows k ids)) = Some anchor ->
  sql_max (map i_max_group_size (group_rows k ids)) = Some max_allowed ->
  edges_of_group k (edges_new ids)
  = if (Z.of_nat (List.length (group_rows k ids)) <=? max_allowed)%Z
    then map (edge_to_anchor anchor)
             (filter (fun i => negb (is_anchor anchor i)) (group_rows k ids))
    else [].
Proof.
  intros Hk Hmin Hmax. unfold edges_of_group, edges_new.
  rewrite (filter_flat_map _ (fun i => key_eqb (group_key i) k)).
  2:{ intros i e He. apply in_flat_map in He as (g & _ & He).
      destruct (_ && _); [|contradiction]. destruct He as [<-|[]]. reflexivity. }
  fold (group_rows k ids).
  assert (Hrow : forall i, In i (group_rows k ids) ->
    flat_map
      (fun g =>
         if String.eqb (i_identifier_type i) (g_identifier_type g)
            && String.eqb (i_identifier_value_norm i) (g_identifier_value_norm g)
            && negb (String.eqb (i_entity_key i) (g_anchor_key g))
         then [mk_edge (i_entity_key i) (g_anchor_key g)
                       (i_identifier_type i) (i_identifier_value_norm i)]
         else [])
      (valid_groups ids)
    = if (Z.of_nat (List.length (group_rows k ids)) <=? max_allowed)%Z
      then (if negb (is_anchor anchor i) then [edge_to_anchor anchor i] else [])
      else []).
  { intros i Hi. apply group_rows_In in Hi as [_ Hi].
    rewrite (flat_map_guard
               (fun g => String.eqb (i_identifier_type i) (g_identifier_type g)
                         && String.eqb (i_identifier_value_norm i)
                                       (g_identifier_value_norm g))
               (fun g => negb (String.eqb (i_entity_key i) (g_anchor_key g)))
               (fun g => [mk_edge (i_entity_key i) (g_anchor_key g)
                                  (i_identifier_type i) (i_identifier_value_norm i)])).
    unfold valid_groups. rewrite filter_filter_comm.
    assert (E : filter
                  (fun g => String.eqb (i_identifier_type i) (g_identifier_type g)
                            && String.eqb (i_identifier_value_norm i)
                                          (g_identifier_value_norm g))
                  (identifier_groups ids)
                = filter (fun g => key_eqb (g_identifier_type g,
                                            g_identifier_value_norm g) k)
                         (identifier_groups ids)).
    { apply filter_ext. intros g. rewrite key_eqb_sym, <- Hi. reflexivity. }
    rewrite E, (identifier_groups_of_key ids k anchor max_allowed Hk Hmin Hmax).
    cbn [filter g_group_size g_max_allowed].
    destruct (Z.of_nat (List.length (group_rows k ids)) <=? max_allowed)%Z;
      [|reflexivity].
    cbn [flat_map g_anchor_key]. rewrite app_nil_r. reflexivity. }
  destruct (Z.of_nat (List.length (group_rows k ids)) <=? max_allowed)%Z.
  - rewrite <- flat_map_if_singleton. apply flat_map_ext_rows. intros i Hi.
    now rewrite Hrow.
  - rewrite (flat_map_ext_rows _ (fun _ => [])).
    + apply flat_map_nothing.
    + intros i Hi. now rewrite Hrow.
Qed.

Lemma skipped_log_rows_of_group run_id ts ids k max_allowed :
  group_rows k ids <> [] ->
  sql_max (map i_max_group_size (group_rows k ids)) = Some max_allowed ->
  (max_allowed < Z.of_nat (List.length (group_rows k ids)))%Z ->
  log_rows_of_group k (skipped_log_rows run_id ts ids)
  = [mk_skipped run_id (fst k) (snd k) (List.length (group_rows k ids)) max_allowed
                "" "EXCEEDED_MAX_GROUP_SIZE" ts].
Proof.
  intros Hne Hmax Hlt. unfold log_rows_of_group, skipped_log_rows.
  rewrite (group_by_present skipped_group_row
             (fun r => (sk_identifier_type r, sk_identifier_value_norm r))).
  - apply Z.ltb_lt in Hlt. now rewrite Hmax, Hlt.
  - intros k' g Hg. cbv zeta in Hg.
    destruct (sql_max (map i_max_group_size (group_rows k' ids))) as [m|];
      [|contradiction].
    destruct (m <? Z.of_nat (List.length (group_rows k' ids)))%Z; [|contradiction].
    destruct Hg as [<-|[]]. simpl. now destruct k'.
  - apply keys_NoDup.
  - now apply group_key_present.
Qed.

Lemma build_edges_edges run_id ts gen t :
  t_edges_new (fst (build_edges run_id ts gen t)) = edges_new (identifiers_all t).
Proof.
  unfold build_edges.
  destruct (gen && _); [destruct (insert_into (edge_evidence t) _)|]; reflexivity.
Qed.

Lemma build_edges_count run_id ts gen t :
  snd (build_edges run_id ts gen t) = List.length (edges_new (identifiers_all t)).
Proof.
  unfold build_edges.
  destruct (gen && _); [destruct (insert_into (edge_evidence t) _)|]; reflexivity.
Qed.

Lemma build_edges_skipped run_id ts gen t :
  skipped_identifier_groups (fst (build_edges run_id ts gen t))
  = match skipped_identifier_groups t with
    | Some old => Some (old ++ skipped_log_rows run_id ts (identifiers_all t))
    | None => None
    end.
Proof.
  unfold build_edges.
  destruct (gen && _); [destruct (insert_into (edge_evidence t) _)|];
    simpl; destruct (skipped_identifier_groups t); reflexivity.
Qed.

Lemma non_anchor_count anchor rows :
  NoDup (map i_entity_key rows) -> In anchor (map i_entity_key rows) ->
  List.length (filter (fun i => negb (is_anchor anchor i)) rows)
  = List.length rows - 1.
Proof.
  unfold is_anchor. induction rows as [|a t IH]; simpl; [contradiction|].
  intros Hd Hin. inversion Hd as [|? ? Hn Hd']; subst.
  destruct (String.eqb (i_entity_key a) anchor) eqn:E; simpl.
  - apply String.eqb_eq in E. subst anchor. rewrite Nat.sub_0_r.
    f_equal. apply filter_all. intros i Hi.
    rewrite negb_true_iff, String.eqb_neq. intros Eq. apply Hn.
    rewrite <- Eq. now apply in_map.
  - apply String.eqb_neq in E. destruct Hin as [Hin|Hin]; [congruence|].
    rewrite (IH Hd' Hin). destruct t; [contradiction|]. simpl. lia.
Qed.

(** Both ends of an edge are entity keys of identifier rows. *)
Lemma edges_new_endpoints ids e :
  In e (edges_new ids) ->
  In (left_entity_key e) (map i_entity_key ids) /\
  In (right_entity_key e) (map i_entity_key ids).
Proof.
  unfold edges_new. intros He.
  apply in_flat_map in He as (i & Hi & He).
  apply in_flat_map in He as (g & Hg & He).
  destruct (_ && _); [|contradiction]. destruct He as [<-|[]]. simpl.
  split; [now apply in_map|].
  unfold valid_groups in Hg. apply filter_In in Hg as [Hg _].
  unfold identifier_groups in Hg. apply in_flat_map in Hg as (k & _ & Hg).
  cbv zeta in Hg.
  destruct (1 <? List.length (group_rows k ids)); [|contradiction].
  destruct (sql_min (map i_entity_key (group_rows k ids))) as [a|] eqn:Hmin;
    [|contradiction].
  destruct (sql_max (map i_max_group_size (group_rows k ids))); [|contradiction].
  destruct Hg as [<-|[]]. simpl.
  apply sql_min_Some in Hmin as [Hin _].
  apply in_map_iff in Hin as (j & <- & Hj). apply group_rows_In in Hj as [Hj _].
  now apply in_map.
Qed.

(** C2 (as the code has it).  For every identifier group of [size > 1]
    rows: the anchor is the least entity key of the group; when [size] is
    at most the group's [max_allowed] (the largest [max_group_size] its
    rows carry, which is the rule's value when all rows carry the same),
    [build_edges] creates one edge per row whose entity key is not the
    anchor, from that row's entity to the anchor, which are [size - 1]
    edges when the entity keys of the group are pairwise distinct; when
    [size] exceeds [max_allowed], no edge is created for the group and, if
    the INSERT into the skipped-groups table succeeds, exactly one audit
    row is appended for the group, with [group_size = size] and reason
    EXCEEDED_MAX_GROUP_SIZE. *)
Theorem build_edges_star_or_skip :
  forall (run_id : string) (current_timestamp : Z) (generate_evidence : bool)
         (t : tables) (k : string * string),
    let rows := group_rows k (identifiers_all t) in
    let size := List.length rows in
    1 < size ->
    exists anchor max_allowed,
      sql_min (map i_entity_key rows) = Some anchor /\
      In anchor (map i_entity_key rows) /\
      (forall i, In i rows -> le anchor (i_entity_key i)) /\
      sql_max (map i_max_group_size rows) = Some max_allowed /\
      (forall m, (forall i, In i rows -> i_max_group_size i = m) -> max_allowed = m) /\
      let t' := fst (build_edges run_id current_timestamp generate_evidence t) in
      ((Z.of_nat size <= max_allowed)%Z ->
       edges_of_group k (t_edges_new t')
       = map (edge_to_anchor anchor)
             (filter (fun i => negb (is_anchor anchor i)) rows) /\
       (NoDup (map i_entity_key rows) ->
        List.length (edges_of_group k (t_edges_new t')) = size - 1)) /\
      ((max_allowed < Z.of_nat size)%Z ->
       edges_of_group k (t_edges_new t') = [] /\
       forall old, skipped_identifier_groups t = Some old ->
         exists new,
           skipped_identifier_groups t' = Some (old ++ new) /\
           log_rows_of_group k new
           = [mk_skipped run_id (fst k) (snd k) size max_allowed
                         "" "EXCEEDED_MAX_GROUP_SIZE" current_timestamp]).
Proof.
  intros run_id ts gen t k rows size Hsize.
  assert (Hne : rows <> []).
  { intros E. unfold size in Hsize. rewrite E in Hsize. simpl in Hsize. lia. }
  destruct (sql_min (map i_entity_key rows)) as [anchor|] eqn:Hmin.
  2:{ apply sql_min_None in Hmin. apply map_eq_nil in Hmin. contradiction. }
  destruct (sql_max (map i_max_group_size rows)) as [max_allowed|] eqn:Hmax.
  2:{ apply sql_max_None in Hmax. apply map_eq_nil in Hmax. contradiction. }
  exists anchor, max_allowed.
  pose proof (proj1 (sql_min_Some _ _) Hmin) as [Hin Hle].
  pose proof (sql_max_Some _ Hmax) as [Hmin' Hmle].
  split; [reflexivity|]. split; [exact Hin|]. split.
  { intros i Hi. apply Hle. now apply in_map. }
  split; [reflexivity|]. split.
  { intros m Hm. apply in_map_iff in Hmin' as (i & <- & Hi). now apply Hm. }
  cbv zeta. rewrite build_edges_edges, build_edges_skipped.
  rewrite (edges_new_of_group (identifiers_all t) k anchor max_allowed Hsize Hmin Hmax).
  fold rows. fold size. split.
  - intros Hok. apply Z.leb_le in Hok. rewrite Hok. split; [reflexivity|].
    intros Hd. rewrite length_map. now apply non_anchor_count.
  - intros Hbig. assert (Hno : (Z.of_nat size <=? max_allowed)%Z = false)
      by (apply Z.leb_gt; exact Hbig).
    rewrite Hno. split; [reflexivity|].
    intros old ->. eexists. split; [reflexivity|].
    now apply skipped_log_rows_of_group.
Qed.

Lemma build_edges_star_or_skip_witness :
  1 < List.length (group_rows ("EMAIL", "x@y.com")
                     (identifiers_all Examples.sample_tables)) /\
  exists anchor,
    sql_min (map i_entity_key
               (group_rows ("EMAIL", "x@y.com")
                  (identifiers_all Examples.sample_tables))) = Some anchor /\
    edges_of_group ("EMAIL", "x@y.com")
      (t_edges_new (fst (build_edges "run_1" 0%Z false Examples.sample_tables)))
    = map (edge_to_anchor anchor)
          (filter (fun i => negb (is_anchor anchor i))
             (group_rows ("EMAIL", "x@y.com")
                (identifiers_all Examples.sample_tables))).
Proof.
  assert (H : 1 < List.length (group_rows ("EMAIL", "x@y.com")
                                 (identifiers_all Examples.sample_tables)))
    by (vm_compute; lia).
  split; [exact H|].
  destruct (build_edges_star_or_skip "run_1" 0%Z false Examples.sample_tables
              ("EMAIL", "x@y.com") H)
    as (anchor & max_allowed & Hmin & _ & _ & Hmax & _ & Hstar & _).
  exists anchor. split; [exact Hmin|]. apply Hstar.
  vm_compute in Hmax. injection Hmax as <-. vm_compute. discriminate.
Defined.

(** C2 as stated fails in two ways.  A group of three rows within the
    limit whose anchor entity occurs twice gets one edge, not two; and a
    group over the limit is not recorded when the INSERT into the
    skipped-groups table raises, which [build_edges] swallows. *)
Lemma build_edges_counterexample :
  (List.length (group_rows ("EMAIL", "x@y.com") Examples.repeated_identifiers) = 3 /\
   sql_max (map i_max_group_size
              (group_rows ("EMAIL", "x@y.com") Examples.repeated_identifiers))
   = Some 10%Z /\
   List.length (edges_new Examples.repeated_identifiers) = 1) /\
  (List.length (group_rows ("EMAIL", "support@y.com") Examples.hub_identifiers) = 3 /\
   sql_max (map i_max_group_size
              (group_rows ("EMAIL", "support@y.com") Examples.hub_identifiers))
   = Some 2%Z /\
   skipped_identifier_groups
     (fst (build_edges "run_1" 0%Z false Examples.hub_tables_without_audit))
   = None).
Proof. vm_compute. repeat split. Qed.

End BuildEdgesFacts.

(* ================================================================== *)
(** ** The expression validator blocks exactly the pattern *)

Module ValidatorFacts.
Import Chars Validators.

Lemma append_nil_r (s : string) : (s ++ "")%string = s.
Proof. induction s as [|c s IH]; simpl; [reflexivity | now rewrite IH]. Qed.

Lemma append_assoc (a b c : string) :
  ((a ++ b) ++ c)%string = (a ++ (b ++ c))%string.
Proof. induction a as [|x a IH]; simpl; [reflexivity | now rewrite IH]. Qed.

Lemma word_not_space c : is_word c = true -> is_space c = false.
Proof.
  destruct c as [[] [] [] [] [] [] [] []]; vm_compute; congruence.
Qed.

Lemma skip_spaces_split s :
  exists ws, s = (ws ++ skip_spaces s)%string /\ all_space ws.
Proof.
  induction s as [|c s (ws & E & Hws)]; simpl.
  - exists ""%string. split; reflexivity.
  - destruct (is_space c) eqn:Hc.
    + exists (String c ws). simpl. split; [now rewrite <- E|].
      unfold all_space. simpl. now rewrite Hc.
    + exists ""%string. split; reflexivity.
Qed.

Lemma skip_spaces_app ws r :
  all_space ws -> skip_spaces (ws ++ r) = skip_spaces r.
Proof.
  unfold all_space. induction ws as [|c ws IH]; simpl; [reflexivity|].
  destruct (is_space c); [exact IH | discriminate].
Qed.

Lemma skip_spaces_word c t :
  is_space c = false -> skip_spaces (String c t) = String c t.
Proof. intros H. simpl. now rewrite H. Qed.

Lemma match_literal_split kw s rest :
  match_literal kw s = Some rest ->
  exists w, s = (w ++ rest)%string /\ spells kw w.
Proof.
  unfold spells. revert s. induction kw as [|k kw IH]; intros s; simpl.
  - intros [= ->]. exists ""%string. split; reflexivity.
  - destruct s as [|c t]; [discriminate|].
    destruct (Ascii.eqb (upper c) k) eqn:E; [|discriminate].
    intros H. destruct (IH t H) as (w & -> & Hw).
    exists (String c w). simpl. now rewrite E.
Qed.

Lemma match_literal_app kw w rest :
  spells kw w -> match_literal kw (w ++ rest) = Some rest.
Proof.
  unfold spells. revert w. induction kw as [|k kw IH]; intros w; simpl.
  - intros [= ->]. reflexivity.
  - destruct w as [|c t]; [discriminate|]. simpl.
    destruct (Ascii.eqb (upper c) k); [apply IH | discriminate].
Qed.

(** A literal without letters is spelled by itself only. *)
Lemma upper_fixes (k c : ascii) :
  between 65 90 k = false -> Ascii.eqb (upper c) k = true -> c = k.
Proof.
  intros Hk E. apply Ascii.eqb_eq in E. subst k. revert Hk.
  destruct c as [[] [] [] [] [] [] [] []]; vm_compute; congruence.
Qed.

Lemma spells_semicolon w : spells ";" w <-> w = ";"%string.
Proof.
  unfold spells. split.
  - destruct w as [|c [|d t]]; simpl; try discriminate;
      destruct (Ascii.eqb (upper c) ";") eqn:E; try discriminate.
    intros _. f_equal. now apply (upper_fixes ";" c).
  - intros ->. reflexivity.
Qed.

Lemma spells_two (a b : ascii) w :
  between 65 90 a = false -> between 65 90 b = false ->
  upper a = a -> upper b = b ->
  spells (String a (String b "")) w <-> w = String a (String b "").
Proof.
  intros Ha Hb Ua Ub. unfold spells. split.
  - destruct w as [|c [|d [|e t]]]; simpl; try discriminate;
      destruct (Ascii.eqb (upper c) a) eqn:E1; try discriminate;
      destruct (Ascii.eqb (upper d) b) eqn:E2; try discriminate.
    intros _. rewrite (upper_fixes a c Ha E1), (upper_fixes b d Hb E2).
    reflexivity.
  - intros ->. simpl. now rewrite Ua, Ub, !Ascii.eqb_refl.
Qed.

Lemma boundary_after_iff rest :
  boundary_after rest = true <-> ~ starts_with_word rest.
Proof.
  unfold starts_with_word. destruct rest as [|c t]; simpl.
  - split; [|reflexivity]. intros _ (c & t & H & _). discriminate.
  - rewrite negb_true_iff. split.
    + intros H (c' & t' & [= <- <-] & Hw). congruence.
    + intros H. destruct (is_word c) eqn:E; [|reflexivity].
      exfalso. apply H. eauto.
Qed.

Lemma last_char_app prev p c :
  last_char prev (p ++ String c "") = Some c.
Proof. revert prev. induction p as [|x p IH]; intros prev; simpl; auto. Qed.

Lemma last_char_cases prev p :
  (p = ""%string /\ last_char prev p = prev) \/
  exists p' c, p = (p' ++ String c "")%string /\ last_char prev p = Some c.
Proof.
  revert prev. induction p as [|x p IH]; intros prev; simpl; [now left|right].
  destruct (IH (Some x)) as [[-> E]|(p' & c & -> & E)].
  - exists ""%string, x. simpl. auto.
  - exists (String x p'), c. simpl. auto.
Qed.

Lemma app_last_inj p q (c d : ascii) :
  (p ++ String c "")%string = (q ++ String d "")%string -> c = d.
Proof.
  intros H.
  assert (E : last_char None (p ++ String c "") = last_char None (q ++ String d ""))
    by now rewrite H.
  rewrite !last_char_app in E. congruence.
Qed.

Lemma boundary_before_iff p :
  boundary_before (last_char None p) = true <-> ~ ends_in_word p.
Proof.
  unfold ends_in_word.
  destruct (last_char_cases None p) as [[-> E]|(p' & c & -> & E)]; rewrite E; simpl.
  - split; [|reflexivity]. intros _ (p' & c & H & _).
    destruct p'; discriminate.
  - rewrite negb_true_iff. split.
    + intros H (q & d & Hq & Hw). apply app_last_inj in Hq. congruence.
    + intros H. destruct (is_word c) eqn:Ew; [|reflexivity].
      exfalso. apply H. eauto.
Qed.

(** A match at the position after [p] is found by the search. *)
Lemma search_from_app prev p s :
  dangerous_at (last_char prev p) s = true -> search_from prev (p ++ s) = true.
Proof.
  revert prev. induction p as [|c p IH]; intros prev H; simpl in *.
  - destruct s; simpl; rewrite H; reflexivity.
  - rewrite (IH (Some c) H). apply orb_true_r.
Qed.

Lemma search_from_position prev s :
  search_from prev s = true ->
  exists p s', s = (p ++ s')%string /\ dangerous_at (last_char prev p) s' = true.
Proof.
  revert prev. induction s as [|c s IH]; intros prev; simpl.
  - rewrite orb_false_r. intros H. exists ""%string, ""%string. auto.
  - intros H. apply orb_true_iff in H as [H|H].
    + exists ""%string, (String c s). auto.
    + destruct (IH (Some c) H) as (p & s' & -> & Hd).
      exists (String c p), s'. auto.
Qed.

Lemma spelled_not_space kw k w :
  spells (String k kw) w -> between 65 90 k = true ->
  exists c t, w = String c t /\ is_space c = false.
Proof.
  unfold spells. destruct w as [|c t]; simpl; [discriminate|].
  destruct (Ascii.eqb (upper c) k) eqn:E; [|discriminate].
  intros _ Hk. exists c, t. split; [reflexivity|].
  apply Ascii.eqb_eq in E. subst k. revert Hk.
  destruct c as [[] [] [] [] [] [] [] []]; vm_compute; congruence.
Qed.

Lemma keyword_text_matches prev w rest :
  boundary_before prev = true -> keyword_text w -> ~ starts_with_word rest ->
  match_keywords prev (w ++ rest) = true.
Proof.
  intros Hb Hk Hr. unfold match_keywords. rewrite Hb. cbn [andb].
  apply boundary_after_iff in Hr.
  destruct Hk as [kw w Hin Hw | u c ws second w Hu Hc Hws Hsec Hw].
  - apply orb_true_iff. left. apply orb_true_iff. left.
    apply existsb_exists. exists kw. split; [assumption|].
    unfold match_keyword. now rewrite (match_literal_app kw w rest Hw), Hr.
  - assert (Hm : match_union second ((u ++ String c ws ++ w) ++ rest) = true).
    { unfold match_union. rewrite append_assoc.
      rewrite (match_literal_app "UNION" u _ Hu). simpl. rewrite Hc. simpl.
      rewrite append_assoc, (skip_spaces_app ws (w ++ rest) Hws).
      assert (Hs : skip_spaces (w ++ rest) = (w ++ rest)%string).
      { destruct Hsec as [-> | ->];
          destruct (spelled_not_space _ _ w Hw eq_refl) as (c' & t' & -> & Hc');
          apply skip_spaces_word; assumption. }
      rewrite Hs, (match_literal_app second w rest Hw). exact Hr. }
    destruct Hsec as [-> | ->]; rewrite Hm; rewrite ?orb_true_r; reflexivity.
Qed.

Lemma match_keywords_text prev s :
  match_keywords prev s = true ->
  boundary_before prev = true /\
  exists w rest, s = (w ++ rest)%string /\ keyword_text w /\ ~ starts_with_word rest.
Proof.
  unfold match_keywords. intros H. apply andb_true_iff in H as [Hb H].
  split; [assumption|].
  assert (Hu : forall second, second = "ALL"%string \/ second = "SELECT"%string ->
             match_union second s = true ->
             exists w rest, s = (w ++ rest)%string /\ keyword_text w /\
                            ~ starts_with_word rest).
  { intros second Hsec Hm. unfold match_union in Hm.
    destruct (match_literal "UNION" s) as [[|c t]|] eqn:E1; try discriminate.
    apply andb_true_iff in Hm as [Hc Hm].
    destruct (match_literal second (skip_spaces t)) as [rest|] eqn:E2;
      [|discriminate].
    apply match_literal_split in E1 as (u & -> & Hu).
    apply match_literal_split in E2 as (w & Hw & Hsp).
    destruct (skip_spaces_split t) as (ws & Ht & Hws).
    exists (u ++ String c ws ++ w)%string, rest. split; [|split].
    - rewrite append_assoc. f_equal. simpl. f_equal.
      rewrite append_assoc, <- Hw. exact Ht.
    - now apply (@kw_union u c ws second w).
    - now apply boundary_after_iff. }
  apply orb_true_iff in H as [H|H]; [|now apply (Hu "SELECT"%string); auto].
  apply orb_true_iff in H as [H|H]; [|now apply (Hu "ALL"%string); auto].
  apply existsb_exists in H as (kw & Hin & Hm). unfold match_keyword in Hm.
  destruct (match_literal kw s) as [rest|] eqn:E; [|discriminate].
  apply match_literal_split in E as (w & -> & Hw).
  exists w, rest. split; [reflexivity|]. split.
  - now apply (@kw_single kw w).
  - now apply boundary_after_iff.
Qed.

(** The search of the source finds a match exactly on the texts the
    pattern describes. *)
Lemma dangerous_sql_search_spec value :
  dangerous_sql_search value = true <-> dangerous_sql value.
Proof.
  unfold dangerous_sql_search. split.
  - intros H. apply search_from_position in H as (p & s & -> & H).
    unfold dangerous_at in H. repeat (apply orb_true_iff in H as [H|H]).
    + unfold match_terminator in H.
      destruct (match_literal ";" s) as [rest|] eqn:E; [|discriminate].
      apply match_literal_split in E as (w & -> & Hw).
      apply spells_semicolon in Hw. subst w.
      destruct (skip_spaces_split rest) as (ws & Hrest & Hws).
      destruct (skip_spaces rest) as [|c t] eqn:Es.
      * rewrite Hrest. apply d_terminator; auto.
      * rewrite Hrest. apply d_terminator; [assumption|].
        right. exists c, t. auto.
    + unfold match_line_comment in H.
      destruct (match_literal "--" s) as [[|c t]|] eqn:E; try discriminate.
      apply match_literal_split in E as (w & -> & Hw).
      apply (spells_two "-" "-" w eq_refl eq_refl eq_refl eq_refl) in Hw. subst w.
      now apply d_line_comment.
    + unfold match_token in H.
      destruct (match_literal "/*" s) as [rest|] eqn:E; [|discriminate].
      apply match_literal_split in E as (w & -> & Hw).
      apply (spells_two "/" "*" w eq_refl eq_refl eq_refl eq_refl) in Hw. subst w.
      apply d_comment_open.
    + unfold match_token in H.
      destruct (match_literal "*/" s) as [rest|] eqn:E; [|discriminate].
      apply match_literal_split in E as (w & -> & Hw).
      apply (spells_two "*" "/" w eq_refl eq_refl eq_refl eq_refl) in Hw. subst w.
      apply d_comment_close.
    + apply match_keywords_text in H as (Hb & w & rest & -> & Hk & Hr).
      apply d_keyword; [now apply boundary_before_iff | assumption | assumption].
  - intros H. destruct H as [p ws rest Hws Hr | p c rest Hc | p rest | p rest
                            | p w rest Hp Hw Hr];
      apply search_from_app; unfold dangerous_at.
    + assert (E : match_terminator (";" ++ ws ++ rest) = true).
      { unfold match_terminator. simpl. rewrite (skip_spaces_app ws rest Hws).
        destruct Hr as [-> | (c & t & -> & Hc)]; [reflexivity|].
        rewrite (skip_spaces_word c t (word_not_space c Hc)). exact Hc. }
      now rewrite E.
    + assert (E : match_line_comment ("--" ++ String c rest) = true)
        by (unfold match_line_comment; simpl; exact Hc).
      rewrite E. now rewrite orb_true_r.
    + assert (E : match_token "/*" ("/*" ++ rest) = true) by reflexivity.
      rewrite E. now rewrite !orb_true_r.
    + assert (E : match_token "*/" ("*/" ++ rest) = true) by reflexivity.
      rewrite E. now rewrite !orb_true_r.
    + rewrite (keyword_text_matches (last_char None p) w rest); auto.
      * now rewrite !orb_true_r.
      * now apply boundary_before_iff.
Qed.

End ValidatorFacts.

(* ================================================================== *)
(** ** The validators of config.py *)

Module ValidatorCorrect.
Import Chars Validators ValidatorFacts.

(** C5 (as the code has it).  The expression validator raises ValueError
    on the empty text and on every text the pattern describes: a
    semicolon followed, after optional whitespace, by the end of the text
    or a word character; [--] followed by whitespace; [/*] or [*/]; one
    of the listed keywords (or UNION, whitespace, ALL or SELECT) in any
    case, standing as a whole word.  Every other text is returned
    unchanged, and nothing else is ever returned.  In particular
    [id; DROP TABLE users] is rejected and [LOWER(email)] is returned as
    given. *)
Theorem validate_sql_expr_blocks_pattern :
  (forall value name : string,
      (forall v, validate_sql_expr value name = Ok v -> v = value) /\
      (validate_sql_expr value name = Ok value
       <-> value <> ""%string /\ ~ dangerous_sql value) /\
      (value = ""%string \/ dangerous_sql value ->
       exists msg, validate_sql_expr value name = Raise (ValueError msg))) /\
  (exists msg, validate_sql_expr "id; DROP TABLE users" "expression"
               = Raise (ValueError msg)) /\
  validate_sql_expr "LOWER(email)" "expression" = Ok "LOWER(email)"%string.
Proof.
  split; [|split; [eexists; vm_compute; reflexivity | vm_compute; reflexivity]].
  intros value name. unfold validate_sql_expr.
  destruct (String.eqb value "") eqn:Ee.
  - apply String.eqb_eq in Ee. repeat split; try discriminate.
    + intros [H _]. congruence.
    + eauto.
  - apply String.eqb_neq in Ee.
    destruct (dangerous_sql_search value) eqn:Es.
    + apply dangerous_sql_search_spec in Es. repeat split; try discriminate.
      * intros [_ H]. contradiction.
      * eauto.
    + assert (Hn : ~ dangerous_sql value).
      { intros H. apply dangerous_sql_search_spec in H. congruence. }
      repeat split; try assumption.
      * now intros v [= <-].
      * intros [H|H]; contradiction.
Qed.

(** C5 as stated fails: a text may contain a semicolon, or the comment
    marker [--], and pass. *)
Lemma validate_sql_expr_counterexample :
  validate_sql_expr "a;(b)" "expression" = Ok "a;(b)"%string /\
  (exists p rest, "a;(b)"%string = (p ++ ";" ++ rest)%string) /\
  validate_sql_expr "id--x" "expression" = Ok "id--x"%string /\
  (exists p rest, "id--x"%string = (p ++ "--" ++ rest)%string).
Proof.
  split; [vm_compute; reflexivity|]. split; [exists "a"%string, "(b)"%string; reflexivity|].
  split; [vm_compute; reflexivity|]. exists "id"%string, "x"%string. reflexivity.
Qed.

Lemma Qlt_bool_iff x y : Qlt_bool x y = true <-> (x < y)%Q.
Proof.
  unfold Qlt_bool. rewrite negb_true_iff. split.
  - intros H. apply Qnot_le_lt. intros Hle. apply Qle_bool_iff in Hle. congruence.
  - intros H. destruct (Qle_bool y x) eqn:E; [|reflexivity].
    apply Qle_bool_iff in E. exfalso. now apply (Qlt_not_le x y).
Qed.

(** The range test of [validate_float] passes on the finite floats
    strictly between [-1e15] and [1e15], and on nothing else. *)
Lemma sanity_test_iff f :
  float_lt (Finite (- sanity_bound)) f && float_lt f (Finite sanity_bound) = true
  <-> exists q, f = Finite q /\ (- sanity_bound < q)%Q /\ (q < sanity_bound)%Q.
Proof.
  destruct f as [q| | |]; simpl.
  - rewrite andb_true_iff, !Qlt_bool_iff. split.
    + intros [H1 H2]. exists q. auto.
    + intros (q' & [= <-] & H1 & H2). auto.
  - split; [discriminate|]. intros (q & H & _). discriminate.
  - split; [discriminate|]. intros (q & H & _). discriminate.
  - split; [discriminate|]. intros (q & H & _). discriminate.
Qed.

Lemma magnitude_fails_test f :
  magnitude_at_least_bound f ->
  float_lt (Finite (- sanity_bound)) f && float_lt f (Finite sanity_bound) = false.
Proof.
  intros Hm.
  destruct (float_lt (Finite (- sanity_bound)) f && float_lt f (Finite sanity_bound))
    eqn:E; [|reflexivity].
  apply sanity_test_iff in E as (q & -> & H1 & H2). simpl in Hm. exfalso.
  apply (Qlt_not_le (Qabs q) sanity_bound); [|exact Hm].
  apply Qabs_case; intros _; [exact H2|].
  apply Qopp_lt_compat in H1. now rewrite Qopp_involutive in H1.
Qed.

(** C6 (as the code has it).  [validate_float] returns the coerced float
    only when it is finite and strictly between [-1e15] and [1e15]; for
    every input whose float value has magnitude at least [1e15] (or is
    NaN) it raises ValueError.  [validate_integer] coerces with [int] and
    applies no range bound: whenever [int(value)] succeeds its result is
    returned, whatever its magnitude. *)
Theorem numeric_validators_range :
  forall (int_of_str : string -> option Z)
         (float_of_str : string -> option pyfloat)
         (float_repr : pyfloat -> string),
    (forall value name r,
        validate_float float_of_str float_repr value name = Ok r ->
        py_float float_of_str value = Ok r /\
        exists q, r = Finite q /\ (- sanity_bound < q)%Q /\ (q < sanity_bound)%Q) /\
    (forall value name f,
        py_float float_of_str value = Ok f ->
        magnitude_at_least_bound f \/ f = NaN ->
        exists msg,
          validate_float float_of_str float_repr value name = Raise (ValueError msg)) /\
    (forall value name n,
        py_int int_of_str value = Ok n ->
        validate_integer int_of_str float_repr value name = Ok n) /\
    (forall n name,
        validate_integer int_of_str float_repr (PyInt n) name = Ok n).
Proof.
  intros int_of_str float_of_str float_repr. split; [|split; [|split]].
  - intros value name r. unfold validate_float.
    destruct (py_float float_of_str value) as [f|[]]; try discriminate.
    destruct (float_lt (Finite (- sanity_bound)) f
              && float_lt f (Finite sanity_bound)) eqn:E; simpl; [|discriminate].
    intros [= <-]. split; [reflexivity|]. now apply sanity_test_iff.
  - intros value name f Hf Hm. unfold validate_float. rewrite Hf.
    assert (E : float_lt (Finite (- sanity_bound)) f
                && float_lt f (Finite sanity_bound) = false).
    { destruct Hm as [Hm | ->]; [now apply magnitude_fails_test | reflexivity]. }
    rewrite E. simpl. eauto.
  - intros value name n Hn. unfold validate_integer. now rewrite Hn.
  - intros n name. reflexivity.
Qed.

(** C6 as stated fails for the integer validator: the integer [10^15] is
    returned. *)
Lemma validate_integer_counterexample :
  validate_integer (fun _ => None) (fun _ => ""%string)
                   (PyInt (10 ^ 15)) "rule.max_group_size"
  = Ok (10 ^ 15)%Z /\
  magnitude_at_least_bound (Finite (inject_Z (10 ^ 15))).
Proof.
  split; [reflexivity|]. unfold magnitude_at_least_bound, sanity_bound.
  apply Qle_Qabs.
Qed.

End ValidatorCorrect.

(* ================================================================== *)
(** ** Canonicalization *)

Module CanonicalizeFacts.
Import Chars ExtractionStage.





(** The modes the validator lets through are the three of the claim and
    the empty one. *)
Lemma validate_enum_modes value field_name mode :
  validate_enum value field_name = Ok mode ->
  mode = "LOWERCASE"%string \/ mode = "UPPERCASE"%string \/
  mode = "NONE"%string \/ mode = ""%string.
Proof.
  unfold validate_enum. cbv zeta.
  destruct (existsb _ CANONICALIZE_ENUM) eqn:E; [|discriminate].
  intros [= <-]. apply existsb_exists in E as (m & Hin & Hm).
  apply String.eqb_eq in Hm. rewrite Hm. simpl in Hin. intuition.
Qed.

(** The exact-match scenario of the specification: the two spellings of
    one address meet under LOWERCASE. *)
Lemma lowercase_joins_spellings :
  canonicalize_value "LOWERCASE" (Some "X@Y.com"%string)
  = canonicalize_value "LOWERCASE" (Some "x@y.com"%string).
Proof. reflexivity. Qed.

End CanonicalizeFacts.

(* ================================================================== *)
(** ** Confidence scores *)

Module ConfidenceFacts.
Import Confidence SqlFacts.













(** The scores of the three sample clusters. *)
Lemma compute_confidence_scores_sample :
  map (fun r => (cc_resolved_id r, cc_cluster_size r, cc_confidence_score r,
                 cc_primary_reason r))
      (compute_confidence_scores ConfidenceExamples.sample_membership
                                 ConfidenceExamples.sample_edges
                                 ConfidenceExamples.sample_impacted)
  = [ ("A:1", 3, (1000 # 1000)%Q, "2 identifier types, moderate density");
      ("D:4", 1, 1%Q, "SINGLETON_NO_MATCH_REQUIRED");
      ("E:5", 2, (750 # 1000)%Q, "Single identifier type, high density") ]%string.
Proof. vm_compute. reflexivity. Qed.

End ConfidenceFacts.

(* ================================================================== *)
(** ** Fuzzy matching: each pair once, kept at the threshold *)

Module FuzzyFacts.
Import Fuzzy SqlFacts.

Lemma profile_ids_NoDup referenced_attrs cluster_attributes :
  NoDup (map p_resolved_id (profile_table referenced_attrs cluster_attributes)).
Proof.
  unfold profile_table. cbv zeta. rewrite map_map. simpl. rewrite map_id.
  apply str_NoDup_distinct.
Qed.

Lemma ltb_total x y :
  x <> y -> String.ltb x y = true \/ String.ltb y x = true.
Proof.
  intros Hne. unfold String.ltb. rewrite (String.compare_antisym y x).
  destruct (String.compare x y) eqn:E; simpl; auto.
  apply String.compare_eq_iff in E. contradiction.
Qed.

Lemma ltb_asym x y : String.ltb x y = true -> String.ltb y x = false.
Proof.
  unfold String.ltb. rewrite (String.compare_antisym y x).
  destruct (String.compare x y); simpl; congruence.
Qed.

Section RuleFacts.
Variable blocking_key : profile_row -> option string.
Variable score_expr : profile_row -> profile_row -> option Q.
Variable md5 : string -> string.
Variable threshold : Q.

Local Abbreviation with_bk := (profile_with_bk blocking_key).

Lemma profile_with_bk_In profile p bk :
  In (p, bk) (with_bk profile) <-> In p profile /\ blocking_key p = Some bk.
Proof.
  unfold profile_with_bk. rewrite in_flat_map. split.
  - intros (q & Hq & H). destruct (blocking_key q) eqn:E; [|contradiction].
    destruct H as [[= <- <-]|[]]. auto.
  - intros [Hp E]. exists p. split; [assumption|]. rewrite E. now left.
Qed.

Lemma profile_with_bk_ids profile :
  NoDup (map p_resolved_id profile) ->
  NoDup (map (fun r => p_resolved_id (fst r)) (with_bk profile)).
Proof.
  unfold profile_with_bk. induction profile as [|p t IH]; simpl; intros Hd;
    [constructor|].
  inversion Hd as [|? ? Hn Hd']; subst. specialize (IH Hd').
  destruct (blocking_key p) as [bk|]; simpl; [|assumption].
  constructor; [|assumption]. intros Hin. apply Hn.
  apply in_map_iff in Hin as ([q k] & Hq & Hin). simpl in Hq.
  apply (profile_with_bk_In t q k) in Hin as [Hin _].
  rewrite <- Hq. now apply in_map.
Qed.

(** In a table keyed by [key], the rows of one key are one row. *)
Lemma filter_by_key {A} (key : A -> string) (l : list A) (a : A) :
  NoDup (map key l) -> In a l ->
  filter (fun r => String.eqb (key r) (key a)) l = [a].
Proof.
  induction l as [|x t IH]; simpl; intros Hd Hin; [contradiction|].
  inversion Hd as [|? ? Hn Hd']; subst.
  destruct Hin as [->|Hin].
  - rewrite String.eqb_refl. f_equal. apply filter_none. intros r Hr.
    apply String.eqb_neq. intros E. apply Hn. rewrite <- E. now apply in_map.
  - assert (Hne : String.eqb (key x) (key a) = false).
    { apply String.eqb_neq. intros E. apply Hn. rewrite E. now apply in_map. }
    rewrite Hne. now apply IH.
Qed.

Lemma join_on_key k (l : list string) {B} (r : B) :
  NoDup l ->
  flat_map (fun v => if String.eqb k v then [r] else []) l
  = if existsb (String.eqb k) l then [r] else [].
Proof.
  induction l as [|x t IH]; simpl; intros Hd; [reflexivity|].
  inversion Hd as [|? ? Hn Hd']; subst. rewrite (IH Hd').
  destruct (String.eqb k x) eqn:E; simpl; [|reflexivity].
  apply String.eqb_eq in E. subst x.
  destruct (existsb (String.eqb k) t) eqn:Ex; [|reflexivity].
  apply existsb_exists in Ex as (y & Hy & Ey). apply String.eqb_eq in Ey.
  subst y. contradiction.
Qed.

Lemma valid_blocks_NoDup rows : NoDup (valid_blocks rows).
Proof. unfold valid_blocks. apply NoDup_filter, str_NoDup_distinct. Qed.

Lemma valid_blocks_mem rows r :
  In r rows -> (Z.of_nat (block_size (snd r) rows) <= max_block_size)%Z ->
  existsb (String.eqb (snd r)) (valid_blocks rows) = true.
Proof.
  intros Hin Hsize. apply existsb_exists. exists (snd r).
  split; [|apply String.eqb_refl]. unfold valid_blocks. apply filter_In. split.
  - apply str_distinct_In. now apply in_map.
  - now apply Z.leb_le.
Qed.

(** All the comparisons of the ordered pair [(a, b)]. *)
Lemma comparisons_of_pair profile a b ka kb :
  NoDup (map p_resolved_id profile) ->
  In (a, ka) (with_bk profile) -> In (b, kb) (with_bk profile) ->
  comparisons blocking_key score_expr md5
              (p_resolved_id a) (p_resolved_id b) profile
  = if String.eqb ka kb && id_compare md5 a b
       && existsb (String.eqb ka) (valid_blocks (with_bk profile))
    then [mk_scored_pair (p_resolved_id a) (p_resolved_id b) (score_expr a b)]
    else [].
Proof.
  intros Hd Ha Hb. pose proof (profile_with_bk_ids profile Hd) as Hids.
  unfold comparisons, scored_pairs. cbv zeta.
  set (rows := with_bk profile) in *.
  set (inner := fun a0 b0 : profile_row * string =>
         if String.eqb (snd a0) (snd b0) && id_compare md5 (fst a0) (fst b0)
         then flat_map
                (fun vb => if String.eqb (snd a0) vb
                           then [mk_scored_pair (p_resolved_id (fst a0))
                                                (p_resolved_id (fst b0))
                                                (score_expr (fst a0) (fst b0))]
                           else [])
                (valid_blocks rows)
         else []).
  change (filter (fun sp => String.eqb (left_id sp) (p_resolved_id a)
                            && String.eqb (right_id sp) (p_resolved_id b))
                 (flat_map (fun a0 => flat_map (inner a0) rows) rows)
          = if String.eqb ka kb && id_compare md5 a b
               && existsb (String.eqb ka) (valid_blocks rows)
            then [mk_scored_pair (p_resolved_id a) (p_resolved_id b) (score_expr a b)]
            else []).
  assert (Hrow : forall a0 b0 sp, In sp (inner a0 b0) ->
            left_id sp = p_resolved_id (fst a0) /\
            right_id sp = p_resolved_id (fst b0)).
  { intros a0 b0 sp Hsp. unfold inner in Hsp.
    destruct (_ && _); [|contradiction].
    apply in_flat_map in Hsp as (vb & _ & Hsp).
    destruct (String.eqb (snd a0) vb); [|contradiction].
    destruct Hsp as [<-|[]]. auto. }
  (* split the filter, then push each half to its side of the join *)
  assert (Hsplit : forall l : list scored_pair,
            filter (fun sp => String.eqb (left_id sp) (p_resolved_id a)
                              && String.eqb (right_id sp) (p_resolved_id b)) l
            = filter (fun sp => String.eqb (right_id sp) (p_resolved_id b))
                     (filter (fun sp => String.eqb (left_id sp) (p_resolved_id a)) l)).
  { intros l. induction l as [|x t IHl]; simpl; [reflexivity|].
    destruct (String.eqb (left_id x) (p_resolved_id a)); simpl; rewrite IHl;
      reflexivity. }
  rewrite Hsplit.
  rewrite (BuildEdgesFacts.filter_flat_map
             (fun sp => String.eqb (left_id sp) (p_resolved_id a))
             (fun r => String.eqb (p_resolved_id (fst r)) (p_resolved_id (fst (a, ka))))).
  2:{ intros a0 sp Hsp. apply in_flat_map in Hsp as (b0 & _ & Hsp).
      destruct (Hrow a0 b0 sp Hsp) as [-> _]. reflexivity. }
  rewrite (filter_by_key (fun r => p_resolved_id (fst r)) rows (a, ka) Hids Ha).
  simpl. rewrite app_nil_r.
  rewrite (BuildEdgesFacts.filter_flat_map
             (fun sp => String.eqb (right_id sp) (p_resolved_id b))
             (fun r => String.eqb (p_resolved_id (fst r)) (p_resolved_id (fst (b, kb))))).
  2:{ intros b0 sp Hsp. destruct (Hrow (a, ka) b0 sp Hsp) as [_ ->]. reflexivity. }
  rewrite (filter_by_key (fun r => p_resolved_id (fst r)) rows (b, kb) Hids Hb).
  simpl. rewrite app_nil_r. unfold inner. simpl.
  destruct (String.eqb ka kb && id_compare md5 a b); simpl; [|reflexivity].
  apply join_on_key, valid_blocks_NoDup.
Qed.

End RuleFacts.
End FuzzyFacts.

Module FuzzyCorrect.
Import Fuzzy SqlFacts FuzzyFacts.

Lemma new_fuzzy_edges_In blocking_key score_expr md5 threshold profile x y s :
  In (mk_fuzzy_edge x y s)
     (new_fuzzy_edges blocking_key score_expr md5 threshold profile)
  <-> In (mk_scored_pair x y (Some s))
         (comparisons blocking_key score_expr md5 x y profile) /\
      (threshold <= s)%Q.
Proof.
  unfold new_fuzzy_edges, comparisons. rewrite in_flat_map, filter_In. split.
  - intros (sp & Hsp & H). destruct sp as [l r [q|]]; simpl in H; [|contradiction].
    destruct (Qle_bool threshold q) eqn:E; [|contradiction].
    destruct H as [[= <- <- <-]|[]]. simpl. rewrite !String.eqb_refl.
    apply Qle_bool_iff in E. auto.
  - intros [[Hsp _] Hle]. exists (mk_scored_pair x y (Some s)).
    split; [assumption|]. simpl. apply Qle_bool_iff in Hle. rewrite Hle. now left.
Qed.

(** C4.  For two distinct clusters of the rule's profile table that fall
    in the same block, within the block-size ceiling, and whose ids have
    different digests: exactly one of the two ordered pairs is compared,
    the one whose left digest is the smaller, and it is compared once;
    the pair is kept as a fuzzy edge exactly when the score expression
    evaluates to a value that is at least the threshold (so a score equal
    to the threshold is kept, and a smaller or NULL score is not); no
    edge is recorded in the opposite direction. *)
Theorem fuzzy_pair_compared_once_threshold_inclusive :
  forall (blocking_key : profile_row -> option string)
         (score_expr : profile_row -> profile_row -> option Q)
         (md5 : string -> string) (threshold : Q)
         (referenced_attrs : list string)
         (cluster_attributes : list cluster_attribute_row)
         (a b : profile_row) (k : string),
    let profile := profile_table referenced_attrs cluster_attributes in
    In a profile -> In b profile ->
    p_resolved_id a <> p_resolved_id b ->
    blocking_key a = Some k -> blocking_key b = Some k ->
    (Z.of_nat (block_size k (profile_with_bk blocking_key profile))
     <= max_block_size)%Z ->
    md5 (p_resolved_id a) <> md5 (p_resolved_id b) ->
    exists l r,
      ((l = a /\ r = b) \/ (l = b /\ r = a)) /\
      id_compare md5 l r = true /\
      comparisons blocking_key score_expr md5
                  (p_resolved_id l) (p_resolved_id r) profile
      = [mk_scored_pair (p_resolved_id l) (p_resolved_id r) (score_expr l r)] /\
      comparisons blocking_key score_expr md5
                  (p_resolved_id r) (p_resolved_id l) profile = [] /\
      (forall s,
          In (mk_fuzzy_edge (p_resolved_id l) (p_resolved_id r) s)
             (new_fuzzy_edges blocking_key score_expr md5 threshold profile)
          <-> score_expr l r = Some s /\ (threshold <= s)%Q) /\
      (forall s,
          ~ In (mk_fuzzy_edge (p_resolved_id r) (p_resolved_id l) s)
               (new_fuzzy_edges blocking_key score_expr md5 threshold profile)).
Proof.
  intros blocking_key score_expr md5 threshold attrs ca a b k profile
         Ha Hb Hne Hka Hkb Hsize Hmd5.
  pose proof (profile_ids_NoDup attrs ca) as Hd. fold profile in Hd.
  assert (Hra : In (a, k) (profile_with_bk blocking_key profile))
    by now apply profile_with_bk_In.
  assert (Hrb : In (b, k) (profile_with_bk blocking_key profile))
    by now apply profile_with_bk_In.
  assert (Hvalid : existsb (String.eqb k)
                     (valid_blocks (profile_with_bk blocking_key profile)) = true).
  { apply (valid_blocks_mem (profile_with_bk blocking_key profile) (a, k)); assumption. }
  assert (Hgen : forall l r,
            In (l, k) (profile_with_bk blocking_key profile) ->
            In (r, k) (profile_with_bk blocking_key profile) ->
            id_compare md5 l r = true ->
            id_compare md5 l r = true /\
            comparisons blocking_key score_expr md5
                        (p_resolved_id l) (p_resolved_id r) profile
            = [mk_scored_pair (p_resolved_id l) (p_resolved_id r) (score_expr l r)] /\
            comparisons blocking_key score_expr md5
                        (p_resolved_id r) (p_resolved_id l) profile = [] /\
            (forall s,
                In (mk_fuzzy_edge (p_resolved_id l) (p_resolved_id r) s)
                   (new_fuzzy_edges blocking_key score_expr md5 threshold profile)
                <-> score_expr l r = Some s /\ (threshold <= s)%Q) /\
            (forall s,
                ~ In (mk_fuzzy_edge (p_resolved_id r) (p_resolved_id l) s)
                     (new_fuzzy_edges blocking_key score_expr md5 threshold profile))).
  { intros l r Hl Hr Hlt.
    assert (C1 : comparisons blocking_key score_expr md5
                   (p_resolved_id l) (p_resolved_id r) profile
                 = [mk_scored_pair (p_resolved_id l) (p_resolved_id r) (score_expr l r)]).
    { rewrite (comparisons_of_pair blocking_key score_expr md5 profile l r k k Hd Hl Hr).
      now rewrite String.eqb_refl, Hlt, Hvalid. }
    assert (C2 : comparisons blocking_key score_expr md5
                   (p_resolved_id r) (p_resolved_id l) profile = []).
    { rewrite (comparisons_of_pair blocking_key score_expr md5 profile r l k k Hd Hr Hl).
      unfold id_compare in *. rewrite (ltb_asym _ _ Hlt).
      now rewrite andb_false_r. }
    split; [assumption|]. split; [exact C1|]. split; [exact C2|]. split.
    - intros s. rewrite new_fuzzy_edges_In, C1. simpl. split.
      + intros [[[= E]|[]] Hle]. auto.
      + intros [E Hle]. rewrite E. auto.
    - intros s H. apply new_fuzzy_edges_In in H as [H _]. rewrite C2 in H.
      contradiction. }
  destruct (ltb_total _ _ Hmd5) as [Hlt|Hlt].
  - exists a, b. split; [auto|]. now apply Hgen.
  - exists b, a. split; [auto|]. now apply Hgen.
Qed.

Lemma fuzzy_pair_compared_once_threshold_inclusive_witness :
  In (mk_fuzzy_edge "A:1" "B:7" (85 # 100)%Q)
     (new_fuzzy_edges FuzzyExamples.sample_blocking_key FuzzyExamples.sample_score
                      FuzzyExamples.sample_md5 (85 # 100)%Q
                      FuzzyExamples.sample_profile) /\
  ~ In (mk_fuzzy_edge "A:1" "B:7" (85 # 100)%Q)
       (new_fuzzy_edges FuzzyExamples.sample_blocking_key FuzzyExamples.sample_score
                        FuzzyExamples.sample_md5 (86 # 100)%Q
                        FuzzyExamples.sample_profile).
Proof.
  assert (Ha : In (mk_profile "A:1" [Some "90210"%string]) FuzzyExamples.sample_profile)
    by (vm_compute; auto).
  assert (Hb : In (mk_profile "B:7" [Some "90210"%string]) FuzzyExamples.sample_profile)
    by (vm_compute; auto).
  assert (Hsize : (Z.of_nat (block_size "90210"
                     (profile_with_bk FuzzyExamples.sample_blocking_key
                                      FuzzyExamples.sample_profile))
                   <= max_block_size)%Z) by (vm_compute; discriminate).
  assert (H : forall threshold,
             In (mk_fuzzy_edge "A:1" "B:7" (85 # 100)%Q)
                (new_fuzzy_edges FuzzyExamples.sample_blocking_key
                                 FuzzyExamples.sample_score
                                 FuzzyExamples.sample_md5 threshold
                                 FuzzyExamples.sample_profile)
             <-> (threshold <= 85 # 100)%Q).
  { intros threshold.
    destruct (fuzzy_pair_compared_once_threshold_inclusive
                FuzzyExamples.sample_blocking_key FuzzyExamples.sample_score
                FuzzyExamples.sample_md5 threshold ["zip"%string]
                FuzzyExamples.sample_cluster_attributes
                (mk_profile "A:1" [Some "90210"%string])
                (mk_profile "B:7" [Some "90210"%string]) "90210"%string
                Ha Hb ltac:(discriminate) eq_refl eq_refl Hsize ltac:(discriminate))
      as (l & r & Hlr & Hlt & _ & _ & Hiff & _).
    destruct Hlr as [[-> ->]|[-> ->]]; [|vm_compute in Hlt; discriminate].
    simpl in Hiff. rewrite (Hiff (85 # 100)%Q). unfold FuzzyExamples.sample_score.
    split; [tauto | auto]. }
  split.
  - apply H. apply Qle_refl.
  - intros Hin. apply H in Hin. revert Hin. unfold Qle. simpl. lia.
Defined.

End FuzzyCorrect.

(* ================================================================== *)
(** ** The run: frame lemmas *)

Module PipeFacts.
Import Pipe RunSpec.

Lemma production_unchanged_refl s : production_unchanged s s.
Proof. repeat split. Qed.

Lemma production_unchanged_trans s1 s2 s3 :
  production_unchanged s1 s2 -> production_unchanged s2 s3 ->
  production_unchanged s1 s3.
Proof.
  intros (A1 & A2 & A3 & A4 & A5) (B1 & B2 & B3 & B4 & B5).
  repeat split; congruence.
Qed.

Lemma work_only_refl s : work_only s s.
Proof. split; [apply production_unchanged_refl | reflexivity]. Qed.

Lemma work_only_trans s1 s2 s3 :
  work_only s1 s2 -> work_only s2 s3 -> work_only s1 s3.
Proof.
  intros [A1 A2] [B1 B2]. split; [|congruence].
  eapply production_unchanged_trans; eassumption.
Qed.

Lemma history_persists_refl run_id s : history_persists run_id s s.
Proof. split; intros x Hx; [auto | now apply in_map]. Qed.

Lemma history_persists_trans run_id s1 s2 s3 :
  history_persists run_id s1 s2 -> history_persists run_id s2 s3 ->
  history_persists run_id s1 s3.
Proof.
  intros [A1 A2] [B1 B2]. split.
  - intros x Hx Hne. apply B1; auto.
  - intros x Hx. apply A2 in Hx. apply in_map_iff in Hx as (y & <- & Hy).
    now apply B2.
Qed.

Lemma work_only_history run_id s s' : work_only s s' -> history_persists run_id s s'.
Proof.
  intros [_ H]. unfold history_persists. rewrite H.
  split; intros x Hx; [auto | now apply in_map].
Qed.

Section Frame.
Variable R : store -> store -> Prop.
Hypothesis R_refl : forall s, R s s.
Hypothesis R_trans : forall s1 s2 s3, R s1 s2 -> R s2 s3 -> R s1 s3.

Lemma keeps_ret {A} (a : A) : keeps R (ret a).
Proof. intros st. apply R_refl. Qed.

Lemma keeps_raise {A} (e : exn) : keeps R (@raise A e).
Proof. intros st. apply R_refl. Qed.

Lemma keeps_lift {A} (r : result A) : keeps R (lift r).
Proof. intros st. apply R_refl. Qed.

Lemma keeps_get_db : keeps R get_db.
Proof. intros st. apply R_refl. Qed.

Lemma keeps_warn msg : keeps R (warn msg).
Proof. intros st. apply R_refl. Qed.

Lemma keeps_update_metrics f : keeps R (update_metrics f).
Proof. intros st. apply R_refl. Qed.

Lemma keeps_execute (f : store -> store) :
  (forall s, R s (f s)) -> keeps R (execute f).
Proof. intros H st. apply H. Qed.

Lemma keeps_bind {A B} (m : M A) (f : A -> M B) :
  keeps R m -> (forall a, keeps R (f a)) -> keeps R (bind m f).
Proof.
  intros Hm Hf st. unfold bind. specialize (Hm st).
  destruct (m st) as [[a|e] st1]; simpl in *; [|exact Hm].
  eapply R_trans; [exact Hm | apply Hf].
Qed.

Lemma keeps_warn_all msgs : keeps R (Preflight.warn_all msgs).
Proof.
  induction msgs as [|m t IH]; simpl; [apply keeps_ret|].
  apply keeps_bind; [apply keeps_warn | intros _; exact IH].
Qed.

End Frame.

Lemma keeps_weaken {A} (R R' : store -> store -> Prop) (m : M A) :
  (forall s s', R s s' -> R' s s') -> keeps R m -> keeps R' m.
Proof. intros H Hm st. apply H, Hm. Qed.

Lemma ensures_bind {A B} (m : M A) (f : A -> M B) (Q : B -> state -> Prop) :
  (forall a, ensures (f a) Q) -> ensures (bind m f) Q.
Proof.
  intros Hf st b st' H. unfold bind in H.
  destruct (m st) as [[a|e] st1]; [|discriminate]. exact (Hf a st1 b st' H).
Qed.

Lemma ensures_ret {A} (a : A) (Q : A -> state -> Prop) :
  (forall st, Q a st) -> ensures (ret a) Q.
Proof. intros H st b st' [= <- <-]. apply H. Qed.

End PipeFacts.

(* ================================================================== *)
(** ** The run: what each stage writes *)

Module RunnerFacts.
Import Pipe RunSpec PipeFacts.

(** One step of the decomposition of a computation into its binds, for
    a reflexive and transitive frame. *)
Ltac keeps_step Hrefl Htrans :=
  first
    [ apply (keeps_ret _ Hrefl) | apply (keeps_raise _ Hrefl)
    | apply (keeps_lift _ Hrefl) | apply (keeps_get_db _ Hrefl)
    | apply (keeps_warn _ Hrefl) | apply (keeps_update_metrics _ Hrefl)
    | apply (keeps_warn_all _ Hrefl Htrans)
    | apply (keeps_bind _ Htrans); [|intros ?]
    | match goal with
      | |- keeps _ (match ?x with _ => _ end) => destruct x
      end ].

(** A statement that rewrites working or audit tables only. *)
Ltac work_write :=
  apply keeps_execute; intros ?; cbv beta;
  repeat match goal with
         | |- context [match ?x with _ => _ end] => destruct x
         end;
  repeat split.

Ltac work_only_tac :=
  repeat first [keeps_step work_only_refl work_only_trans | work_write].

Lemma ensure_schema_upgrades_work s :
  work_only s (Preflight.ensure_schema_upgrades s).
Proof.
  unfold Preflight.ensure_schema_upgrades.
  destruct (table_columns s "idr_out.run_history") as [cols|]; [|repeat split].
  destruct (existsb _ _); repeat split.
Qed.

(** Preflight writes the run history and nothing of the production
    output. *)
Lemma keeps_preflight now : keeps production_unchanged (Preflight.run now).
Proof.
  unfold Preflight.run.
  apply (keeps_bind _ production_unchanged_trans); [|intros _].
  - apply keeps_execute. intros s. apply ensure_schema_upgrades_work.
  - apply (keeps_bind _ production_unchanged_trans); [|intros _].
    + apply keeps_execute. intros s. repeat split.
    + repeat keeps_step production_unchanged_refl production_unchanged_trans.
Qed.

Lemma keeps_start_stage now name : keeps work_only (Runner.start_stage now name).
Proof. unfold Runner.start_stage. work_only_tac. Qed.

Lemma keeps_end_stage now name rows :
  keeps work_only (Runner.end_stage now name rows).
Proof. unfold Runner.end_stage. work_only_tac. Qed.

Section RunFacts.
Variable d : dialect.
Variable now : Z.
Variable uuid_hex : string.
Variable select_entities : string -> string -> store -> result (list entity_delta_row).
Variable select_identifiers : string -> store -> result (list identifier_row).
Variable select_attributes : store -> result (option (list entity_attribute_row)).
Variable run_fuzzy_matching :
  nat -> store -> result (list fuzzy_result_row * list string * nat).
Variable build_profiles : string -> store -> result (option (list unified_profile_row)).
Variable config_digest : store -> option string.
Variable config : RunConfig.

Local Abbreviation the_run_id := (Runner.run_id uuid_hex config).

Lemma keeps_extract_entities :
  keeps work_only (Runner.extract_entities uuid_hex select_entities config).
Proof. unfold Runner.extract_entities. work_only_tac. Qed.

Lemma keeps_extract_identifiers :
  keeps work_only (Runner.extract_identifiers uuid_hex select_identifiers config).
Proof. unfold Runner.extract_identifiers. work_only_tac. Qed.

Lemma keeps_extract_attributes :
  keeps work_only (Runner.extract_attributes select_attributes).
Proof. unfold Runner.extract_attributes. work_only_tac. Qed.

Lemma keeps_build_edges :
  keeps work_only (Runner.build_edges now uuid_hex config).
Proof.
  unfold Runner.build_edges.
  apply (keeps_bind _ work_only_trans); [apply (keeps_get_db _ work_only_refl)|].
  intros s. apply (keeps_bind _ work_only_trans).
  - apply keeps_execute. intros s0. repeat split.
  - intros _. apply (keeps_bind _ work_only_trans).
    + apply (keeps_warn_all _ work_only_refl work_only_trans).
    + intros _. apply (keeps_ret _ work_only_refl).
Qed.

Lemma keeps_label_propagation :
  keeps work_only (Runner.label_propagation uuid_hex config).
Proof.
  unfold Runner.label_propagation.
  apply (keeps_bind _ work_only_trans); [apply (keeps_get_db _ work_only_refl)|].
  intros s. apply (keeps_bind _ work_only_trans);
    [|intros _; apply (keeps_ret _ work_only_refl)].
  apply keeps_execute. intros s0. repeat split.
Qed.

Lemma keeps_fuzzy_step :
  keeps work_only (Runner.fuzzy_step now run_fuzzy_matching config).
Proof.
  unfold Runner.fuzzy_step. destruct (strict config).
  - work_only_tac.
  - apply (keeps_bind _ work_only_trans); [apply keeps_start_stage|]. intros _.
    apply (keeps_bind _ work_only_trans); [apply (keeps_get_db _ work_only_refl)|].
    intros s.
    apply (keeps_bind _ work_only_trans); [apply (keeps_lift _ work_only_refl)|].
    intros r.
    apply (keeps_bind _ work_only_trans);
      [apply keeps_execute; intros s0; repeat split|]. intros _.
    apply (keeps_bind _ work_only_trans);
      [apply (keeps_warn_all _ work_only_refl work_only_trans)|].
    intros _. apply keeps_end_stage.
Qed.

Lemma keeps_generate_dry_run_output :
  keeps work_only (OutputStage.generate_dry_run_output the_run_id now).
Proof.
  unfold OutputStage.generate_dry_run_output.
  apply (keeps_bind _ work_only_trans); [|intros _];
    apply keeps_execute; intros s; repeat split.
Qed.

(** With [dry_run] the output step is the dry-run analysis. *)
Lemma keeps_output_step_dry :
  dry_run config = true ->
  keeps work_only (Runner.output_step d now uuid_hex build_profiles config).
Proof.
  intros Hdry. unfold Runner.output_step. rewrite Hdry. simpl.
  apply (keeps_bind _ work_only_trans); [apply keeps_start_stage|]. intros _.
  apply (keeps_bind _ work_only_trans); [apply keeps_generate_dry_run_output|].
  intros _.
  apply (keeps_bind _ work_only_trans); [apply keeps_end_stage|]. intros _.
  apply (keeps_ret _ work_only_refl).
Qed.

(** The record of the run's start appends to the run history (and to the
    configuration snapshots). *)
Lemma keeps_record_run_start_production :
  keeps production_unchanged
        (Runner.record_run_start now uuid_hex config_digest config).
Proof.
  unfold Runner.record_run_start.
  repeat first [keeps_step production_unchanged_refl production_unchanged_trans
               | work_write].
Qed.

End RunFacts.
End RunnerFacts.

(* ================================================================== *)
(** ** The run: preflight, the dry run, and the run history *)

Module RunnerSteps.
Import Pipe RunSpec PipeFacts RunnerFacts.

Lemma same_history_refl s : same_history s s.
Proof. reflexivity. Qed.

Lemma same_history_trans s1 s2 s3 :
  same_history s1 s2 -> same_history s2 s3 -> same_history s1 s3.
Proof. unfold same_history. congruence. Qed.

Lemma work_only_same_history s s' : work_only s s' -> same_history s s'.
Proof. intros [_ H]. exact H. Qed.

Lemma work_only_production s s' : work_only s s' -> production_unchanged s s'.
Proof. intros [H _]. exact H. Qed.

Lemma interrupted_not_running r :
  Preflight.is_running (Preflight.mark_interrupted r) = false.
Proof. reflexivity. Qed.

(** After the reclamation the RUNNING rows are the live ones. *)
Lemma running_after_reclaim now history :
  filter Preflight.is_running (Preflight.reclaim_stale now history)
  = live_runs now history.
Proof.
  unfold live_runs, Preflight.reclaim_stale.
  induction history as [|r t IH]; simpl; [reflexivity|].
  destruct (Preflight.is_running r) eqn:Er, (Preflight.time_filter now r) eqn:Et;
    simpl; rewrite ?interrupted_not_running, ?Er, IH; reflexivity.
Qed.

Lemma reclaim_stale_ids now history :
  map rh_run_id (Preflight.reclaim_stale now history) = map rh_run_id history.
Proof.
  unfold Preflight.reclaim_stale. rewrite map_map. apply map_ext.
  intros r. destruct (_ && _); reflexivity.
Qed.

Lemma ensure_schema_upgrades_history s :
  run_history (Preflight.ensure_schema_upgrades s) = run_history s.
Proof. apply (ensure_schema_upgrades_work s). Qed.

Lemma preflight_refuses now st other rest :
  live_runs now (run_history (db st)) = other :: rest ->
  Preflight.run now st
  = (Raise (RuntimeError ("Concurrent run detected: " ++ rh_run_id other)),
     mk_state (after_reclaim now (db st)) (warnings st) (metrics st)).
Proof.
  intros Hlive. unfold Preflight.run, bind, execute, get_db. simpl.
  rewrite running_after_reclaim, ensure_schema_upgrades_history, Hlive.
  unfold raise, after_reclaim. reflexivity.
Qed.

Lemma warn_all_returns msgs st :
  exists st', Preflight.warn_all msgs st = (Ok tt, st') /\ db st' = db st.
Proof.
  revert st. induction msgs as [|m t IH]; intros st; simpl.
  - exists st. auto.
  - unfold bind, warn. simpl.
    destruct (IH (mk_state (db st) (warnings st ++ [m]) (metrics st)))
      as (st' & E & Hdb).
    exists st'. auto.
Qed.

(** Without a live run, preflight passes the concurrency check: it
    returns, or raises for a reason of the source tables. *)
Lemma preflight_passes now st :
  live_runs now (run_history (db st)) = [] ->
  db (snd (Preflight.run now st)) = after_reclaim now (db st) /\
  (fst (Preflight.run now st) = Ok tt \/
   fst (Preflight.run now st)
   = Raise (RuntimeError "No active source tables configured") \/
   exists src, In src (source_table (db st)) /\ st_is_active src = true /\
               Preflight.table_exists (db st) (st_table_fqn src) = false /\
               fst (Preflight.run now st)
               = Raise (RuntimeError ("Source table not found: " ++ st_table_fqn src))).
Proof.
  intros Hlive.
  assert (Hsrc : source_table (after_reclaim now (db st)) = source_table (db st)).
  { unfold after_reclaim, Preflight.ensure_schema_upgrades.
    destruct (table_columns (db st) "idr_out.run_history"); [|reflexivity].
    destruct (existsb _ _); reflexivity. }
  assert (Hex : forall t, Preflight.table_exists (after_reclaim now (db st)) t
                          = Preflight.table_exists (db st) t).
  { intros t. unfold Preflight.table_exists, after_reclaim,
      Preflight.ensure_schema_upgrades.
    destruct (table_columns (db st) "idr_out.run_history"); [|reflexivity].
    destruct (existsb (String.eqb "config_hash") _); reflexivity. }
  assert (Hrun : filter Preflight.is_running (run_history (after_reclaim now (db st)))
                 = []).
  { unfold after_reclaim. cbn [run_history Write.set_run_history].
    rewrite running_after_reclaim. exact Hlive. }
  cbv beta iota zeta delta [Preflight.run bind execute get_db].
  cbn [db warnings metrics].
  rewrite ensure_schema_upgrades_history.
  fold (after_reclaim now (db st)).
  rewrite Hrun, Hsrc.
  destruct (filter st_is_active (source_table (db st))) as [|src0 srcs] eqn:Eact.
  { cbn. auto. }
  match goal with
  | |- context [find ?f ?l] => destruct (find f l) as [src|] eqn:Efind
  end.
  - cbn. split; [reflexivity|]. right. right. exists src.
    apply find_some in Efind as [Hin Hnot]. rewrite <- Eact in Hin.
    apply filter_In in Hin as [Hin Hact]. apply negb_true_iff in Hnot.
    rewrite Hex in Hnot. auto.
  - match goal with
    | |- context [Preflight.warn_all ?msgs] => set (msgs0 := msgs)
    end.
    destruct (List.length (filter r_is_active (rule (after_reclaim now (db st)))) =? 0).
    + unfold warn at 1 2 3. cbv beta iota.
      match goal with
      | |- context [Preflight.warn_all msgs0 ?s0] =>
          destruct (warn_all_returns msgs0 s0) as (st' & E & Hdb)
      end.
      rewrite E. cbn [fst snd]. rewrite Hdb. cbn [db]. auto.
    + unfold ret at 1 2 3. cbv beta iota.
      match goal with
      | |- context [Preflight.warn_all msgs0 ?s0] =>
          destruct (warn_all_returns msgs0 s0) as (st' & E & Hdb)
      end.
      rewrite E. cbn [fst snd]. rewrite Hdb. cbn [db]. auto.
Qed.

End RunnerSteps.

(* ================================================================== *)
(** ** The run as a whole *)

Module RunnerCorrect.
Import Pipe RunSpec PipeFacts RunnerFacts RunnerSteps.

Lemma ensures_bind_with {A B} (m : M A) (f : A -> M B)
      (P : A -> state -> Prop) (Q : B -> state -> Prop) :
  ensures m P ->
  (forall a st b st', P a st -> f a st = (Ok b, st') -> Q b st') ->
  ensures (bind m f) Q.
Proof.
  intros Hm Hf st b st' H. unfold bind in H.
  destruct (m st) as [[a|e] st1] eqn:E; [|discriminate].
  exact (Hf a st1 b st' (Hm st a st1 E) H).
Qed.

(** *** The LEFT JOIN of the dry-run analysis *)

Lemma filter_nil_forallb {A} (f : A -> bool) l :
  filter f l = [] <-> forallb (fun x => negb (f x)) l = true.
Proof.
  induction l as [|x t IH]; simpl; [tauto|].
  destruct (f x); simpl; [split; discriminate | exact IH].
Qed.

Lemma in_left_join {A B} (on : A -> B -> bool) l r a ob :
  In (a, ob) (OutputStage.left_join on l r) <->
  In a l /\ match ob with
            | Some b => In b r /\ on a b = true
            | None => forallb (fun b => negb (on a b)) r = true
            end.
Proof.
  unfold OutputStage.left_join. rewrite in_flat_map. split.
  - intros (a0 & Ha0 & Hin).
    destruct (filter (on a0) r) as [|b0 ms] eqn:E.
    + destruct Hin as [[= <- <-]|[]]. split; [exact Ha0|].
      now apply filter_nil_forallb.
    + apply in_map_iff in Hin as (b & [= <- <-] & Hb).
      rewrite <- E in Hb. apply filter_In in Hb. auto.
  - intros [Ha Hob]. exists a. split; [exact Ha|].
    destruct ob as [b|].
    + destruct Hob as [Hb Hon].
      assert (Hf : In b (filter (on a) r)) by (apply filter_In; auto).
      destruct (filter (on a) r) as [|b0 ms]; [destruct Hf|].
      apply in_map_iff. exists b. auto.
    + apply filter_nil_forallb in Hob. rewrite Hob. now left.
Qed.

(** Every row of the analysis classifies one label row, and every label
    row is classified: NEW without a membership row of its entity key,
    otherwise once per such row, MOVED when the persisted resolved id is
    not the label and UNCHANGED when it is. *)
Lemma dry_run_rows_classified run_id s row :
  In row (OutputStage.dry_run_rows run_id s) <->
  exists lp, In lp (lp_labels s) /\
    dr_entity_key row = l_entity_key lp /\
    dr_new_resolved_id row = l_label lp /\
    dr_run_id row = run_id /\
    ((dr_change_type row = "NEW" /\ dr_current_resolved_id row = None /\
      forall m, In m (membership s) -> m_entity_key m <> l_entity_key lp)
     \/
     exists m, In m (membership s) /\ m_entity_key m = l_entity_key lp /\
       dr_current_resolved_id row = Some (m_resolved_id m) /\
       ((m_resolved_id m <> l_label lp /\ dr_change_type row = "MOVED") \/
        (m_resolved_id m = l_label lp /\ dr_change_type row = "UNCHANGED"))).
Proof.
  unfold OutputStage.dry_run_rows. rewrite in_map_iff. split.
  - intros ([lp om] & <- & Hin). apply in_left_join in Hin as [Hlp Hom].
    exists lp. cbn. repeat (split; [auto; fail|]).
    destruct om as [m|]; cbn.
    + right. destruct Hom as [Hm Hon]. apply String.eqb_eq in Hon.
      exists m. repeat (split; [auto; fail|]).
      destruct (String.eqb (m_resolved_id m) (l_label lp)) eqn:E; cbn.
      * right. apply String.eqb_eq in E. auto.
      * left. apply String.eqb_neq in E. auto.
    + left. repeat (split; [auto; fail|]).
      intros m Hm Heq. rewrite forallb_forall in Hom. specialize (Hom m Hm).
      apply negb_true_iff, String.eqb_neq in Hom. congruence.
  - intros (lp & Hlp & Hk & Hn & Hr & Hcase).
    destruct row as [k cur new ct rid]. cbn in *. subst k new rid.
    destruct Hcase as [(Hct & Hcur & Hno) | (m & Hm & Hkey & Hcur & Hct)].
    + exists (lp, None). cbn. subst. split; [reflexivity|].
      apply in_left_join. split; [exact Hlp|].
      apply forallb_forall. intros m Hm. apply negb_true_iff, String.eqb_neq.
      intros Heq. exact (Hno m Hm (eq_sym Heq)).
    + exists (lp, Some m). cbn. subst cur. split.
      * destruct Hct as [[Hne ->] | [Heq ->]].
        -- apply String.eqb_neq in Hne. now rewrite Hne.
        -- apply String.eqb_eq in Heq. now rewrite Heq.
      * apply in_left_join. split; [exact Hlp|]. split; [exact Hm|].
        apply String.eqb_eq. auto.
Qed.

Section RunCorrect.
Variable d : dialect.
Variable now : Z.
Variable uuid_hex : string.
Variable select_entities : string -> string -> store -> result (list entity_delta_row).
Variable select_identifiers : string -> store -> result (list identifier_row).
Variable select_attributes : store -> result (option (list entity_attribute_row)).
Variable run_fuzzy_matching :
  nat -> store -> result (list fuzzy_result_row * list string * nat).
Variable build_profiles : string -> store -> result (option (list unified_profile_row)).
Variable config_digest : store -> option string.
Variable config : RunConfig.

Local Abbreviation the_run_id := (Runner.run_id uuid_hex config).
Local Abbreviation the_output_step :=
  (Runner.output_step d now uuid_hex build_profiles config).
Local Abbreviation the_pipeline :=
  (Runner.pipeline d now uuid_hex select_entities select_identifiers
                   select_attributes run_fuzzy_matching build_profiles config).
Local Abbreviation the_try_body :=
  (Runner.try_body d now uuid_hex select_entities select_identifiers
                   select_attributes run_fuzzy_matching build_profiles
                   config_digest config).
Local Abbreviation the_run :=
  (Runner.run d now uuid_hex select_entities select_identifiers
              select_attributes run_fuzzy_matching build_profiles
              config_digest config).
Local Abbreviation complete := (Runner.complete_run uuid_hex config).
Local Abbreviation finish := (Runner.finish_row uuid_hex config).

(** *** What the steps may touch *)

Lemma keeps_generate_output_history :
  keeps same_history
        (OutputStage.generate_output d the_run_id now config build_profiles).
Proof.
  unfold OutputStage.generate_output.
  repeat first [ keeps_step same_history_refl same_history_trans
               | (apply keeps_execute; intros ?; reflexivity) ].
Qed.

Lemma keeps_output_step_history : keeps same_history the_output_step.
Proof.
  unfold Runner.output_step. destruct (negb (dry_run config)).
  - apply (keeps_bind _ same_history_trans);
      [apply (keeps_weaken work_only _ _ work_only_same_history), keeps_start_stage|].
    intros _. apply (keeps_bind _ same_history_trans);
      [apply keeps_generate_output_history|].
    intros _. apply (keeps_bind _ same_history_trans);
      [apply (keeps_weaken work_only _ _ work_only_same_history), keeps_end_stage|].
    intros _. apply (keeps_ret _ same_history_refl).
  - apply (keeps_bind _ same_history_trans);
      [apply (keeps_weaken work_only _ _ work_only_same_history), keeps_start_stage|].
    intros _. apply (keeps_bind _ same_history_trans);
      [apply (keeps_weaken work_only _ _ work_only_same_history),
         keeps_generate_dry_run_output|].
    intros _. apply (keeps_bind _ same_history_trans);
      [apply (keeps_weaken work_only _ _ work_only_same_history), keeps_end_stage|].
    intros _. apply (keeps_ret _ same_history_refl).
Qed.

(** The steps stay within any frame that allows the working tables to
    change, if the output step does. *)
Lemma keeps_pipeline (R : store -> store -> Prop) :
  (forall s, R s s) ->
  (forall s1 s2 s3, R s1 s2 -> R s2 s3 -> R s1 s3) ->
  (forall s s', work_only s s' -> R s s') ->
  keeps R the_output_step ->
  keeps R the_pipeline.
Proof.
  intros Hrefl Htrans Hsub Hout. unfold Runner.pipeline.
  repeat first
    [ exact Hout
    | apply (keeps_weaken work_only R _ Hsub);
      first [ apply keeps_start_stage | apply keeps_end_stage
            | apply keeps_extract_entities | apply keeps_extract_identifiers
            | apply keeps_extract_attributes | apply keeps_build_edges
            | apply keeps_label_propagation | apply keeps_fuzzy_step ]
    | apply (keeps_ret _ Hrefl)
    | apply (keeps_bind _ Htrans); [|intros ?]
    | match goal with
      | |- keeps _ (if ?x then _ else _) => destruct x
      end ].
Qed.

Lemma keeps_pipeline_history : keeps same_history the_pipeline.
Proof.
  apply keeps_pipeline.
  - exact same_history_refl.
  - exact same_history_trans.
  - exact work_only_same_history.
  - exact keeps_output_step_history.
Qed.

Lemma keeps_pipeline_dry :
  dry_run config = true -> keeps production_unchanged the_pipeline.
Proof.
  intros Hdry. apply keeps_pipeline.
  - exact production_unchanged_refl.
  - exact production_unchanged_trans.
  - exact work_only_production.
  - apply (keeps_weaken work_only _ _ work_only_production).
    now apply keeps_output_step_dry.
Qed.

Lemma keeps_try_body_dry :
  dry_run config = true -> keeps production_unchanged the_try_body.
Proof.
  intros Hdry. unfold Runner.try_body.
  apply (keeps_bind _ production_unchanged_trans);
    [apply (keeps_weaken work_only _ _ work_only_production), keeps_start_stage|].
  intros _. apply (keeps_bind _ production_unchanged_trans);
    [apply keeps_preflight|].
  intros _. apply (keeps_bind _ production_unchanged_trans);
    [apply (keeps_weaken work_only _ _ work_only_production), keeps_end_stage|].
  intros _. apply (keeps_bind _ production_unchanged_trans);
    [apply keeps_record_run_start_production|].
  intros _. now apply keeps_pipeline_dry.
Qed.

(** *** The end of the run *)

Lemma complete_run_production c e st :
  production_unchanged (db st) (snd (complete c e st)).
Proof. repeat split. Qed.

Lemma complete_run_analysis c e st :
  dry_run_analysis the_run_id now (db st) ->
  dry_run_analysis the_run_id now (snd (complete c e st)).
Proof. intros H. exact H. Qed.

Lemma finish_fresh c e history :
  fresh_run_id the_run_id history = true ->
  map (finish c e) history = history.
Proof.
  unfold fresh_run_id. rewrite negb_true_iff.
  induction history as [|r t IH]; cbn [map existsb]; [reflexivity|].
  intros H. apply orb_false_iff in H as [Hr Ht].
  rewrite (IH Ht). unfold Runner.finish_row at 1. now rewrite Hr.
Qed.

Lemma fresh_reclaim run_id history :
  fresh_run_id run_id (Preflight.reclaim_stale now history)
  = fresh_run_id run_id history.
Proof.
  unfold fresh_run_id, Preflight.reclaim_stale. f_equal.
  induction history as [|r t IH]; cbn [map existsb]; [reflexivity|].
  rewrite IH. destruct (Preflight.is_running r && Preflight.time_filter now r);
    reflexivity.
Qed.

(** *** The dry-run analysis *)

Lemma generate_dry_run_output_returns st :
  OutputStage.generate_dry_run_output the_run_id now st
  = (Ok tt,
     mk_state
       (Write.set_dry_run_summary
          (OutputStage.dry_run_summary_rows the_run_id now
             (Write.set_dry_run_results
                (OutputStage.dry_run_rows the_run_id (db st)) (db st)))
          (Write.set_dry_run_results
             (OutputStage.dry_run_rows the_run_id (db st)) (db st)))
       (warnings st) (metrics st)).
Proof. reflexivity. Qed.

Lemma output_step_dry :
  dry_run config = true ->
  ensures the_output_step
          (fun status st => status = "DRY_RUN_COMPLETE" /\
                            dry_run_analysis the_run_id now (db st)).
Proof.
  intros Hdry st status st' H. unfold Runner.output_step in H.
  rewrite Hdry in H. cbn [negb] in H.
  unfold bind, Runner.start_stage, Runner.end_stage, update_metrics, ret in H.
  rewrite generate_dry_run_output_returns in H. cbn [db warnings metrics] in H.
  injection H as <- <-. split; [reflexivity|]. split; reflexivity.
Qed.

Lemma pipeline_dry :
  dry_run config = true ->
  ensures the_pipeline
          (fun c st => Runner.cp_status c = "SUCCESS_NO_CHANGES" \/
                       (Runner.cp_status c = "DRY_RUN_COMPLETE" /\
                        dry_run_analysis the_run_id now (db st))).
Proof.
  intros Hdry. unfold Runner.pipeline.
  apply ensures_bind; intros _. apply ensures_bind; intros entities.
  apply ensures_bind; intros _.
  destruct (entities =? 0).
  - apply ensures_ret. intros st. now left.
  - do 13 (apply ensures_bind; intros ?).
    apply ensures_bind_with with (1 := output_step_dry Hdry).
    intros status st c st' [-> Han] [= <- <-]. right. auto.
Qed.

Lemma try_body_dry :
  dry_run config = true ->
  ensures the_try_body
          (fun c st => Runner.cp_status c = "SUCCESS_NO_CHANGES" \/
                       (Runner.cp_status c = "DRY_RUN_COMPLETE" /\
                        dry_run_analysis the_run_id now (db st))).
Proof.
  intros Hdry. unfold Runner.try_body.
  do 4 (apply ensures_bind; intros _). now apply pipeline_dry.
Qed.

(** *** Preflight inside the run *)

Local Abbreviation started s :=
  (mk_state s [] [mk_StageMetric "preflight" now None 0]).

Lemma try_body_preflight s :
  the_try_body (mk_state s [] [])
  = match Preflight.run now (started s) with
    | (Ok _, st) =>
        (Runner.end_stage now "preflight" 0 ;;;
         Runner.record_run_start now uuid_hex config_digest config ;;;
         the_pipeline) st
    | (Raise e, st) => (Raise e, st)
    end.
Proof. reflexivity. Qed.

Lemma record_run_start_history st :
  exists st' row,
    Runner.record_run_start now uuid_hex config_digest config st
    = (Ok tt, st') /\
    run_history (db st') = run_history (db st) ++ [row] /\
    rh_run_id row = the_run_id /\ rh_status row = "RUNNING" /\
    rh_started_at row = now.
Proof.
  unfold Runner.record_run_start, Runner.compute_config_hash, bind, get_db.
  destruct (config_digest (db st)) as [h|];
    unfold execute, ret; cbn [db warnings metrics]; eexists.
  - exists (mk_run_history the_run_id (run_mode config) "RUNNING" now now 0
                           (Some h) None None None None None None).
    split; [reflexivity|]. cbn [db]. split; [|cbn; auto].
    destruct (config_snapshot (db st)) as [rows|]; [|reflexivity].
    destruct (existsb _ rows); reflexivity.
  - exists (mk_run_history the_run_id (run_mode config) "RUNNING" now now 0
                           (Some "unknown") None None None None None None).
    split; [reflexivity|]. cbn [db]. split; [reflexivity | cbn; auto].
Qed.

(** Once preflight has passed, the run is recorded, and the record is
    there at the end of the steps whether they return or raise. *)
Lemma recorded_after_preflight st :
  exists row,
    run_history
      (db (snd ((Runner.end_stage now "preflight" 0 ;;;
                 Runner.record_run_start now uuid_hex config_digest config ;;;
                 the_pipeline) st)))
    = run_history (db st) ++ [row] /\
    rh_run_id row = the_run_id /\ rh_status row = "RUNNING" /\
    rh_started_at row = now.
Proof.
  unfold bind at 1. unfold Runner.end_stage at 1. unfold update_metrics at 1.
  cbv beta iota.
  match goal with
  | |- context [bind _ _ ?st1] =>
      destruct (record_run_start_history st1) as (st2 & row & E & Hh & Hrow)
  end.
  exists row. split; [|exact Hrow].
  unfold bind at 1. rewrite E. cbv beta iota.
  rewrite (keeps_pipeline_history st2). exact Hh.
Qed.

(** *** The run with [dry_run] *)

Lemma run_dry_production s :
  dry_run config = true -> production_unchanged s (snd (the_run s)).
Proof.
  intros Hdry. unfold Runner.run.
  pose proof (keeps_try_body_dry Hdry (mk_state s [] [])) as H.
  destruct (the_try_body (mk_state s [] [])) as [[c|e] st]; cbn [snd db] in H;
    (eapply production_unchanged_trans; [exact H | apply complete_run_production]).
Qed.

Lemma run_dry_status s :
  dry_run config = true ->
  status (fst (the_run s)) = "FAILED" \/
  status (fst (the_run s)) = "SUCCESS_NO_CHANGES" \/
  (status (fst (the_run s)) = "DRY_RUN_COMPLETE" /\
   dry_run_analysis the_run_id now (snd (the_run s))).
Proof.
  intros Hdry. unfold Runner.run.
  pose proof (try_body_dry Hdry (mk_state s [] [])) as H.
  destruct (the_try_body (mk_state s [] [])) as [[c|e] st].
  - destruct (H c st eq_refl) as [Hs | [Hs Han]]; cbn [fst snd].
    + right. left. exact Hs.
    + right. right. split; [exact Hs|]. now apply complete_run_analysis.
  - left. reflexivity.
Qed.

(** *** The run against the run history *)

Lemma live_run_running other rest history :
  live_runs now history = other :: rest ->
  In other history /\ rh_status other = "RUNNING" /\
  (age now other <= Preflight.four_hours)%Z.
Proof.
  intros H.
  assert (Hin : In other (live_runs now history)) by (rewrite H; now left).
  apply filter_In in Hin as [Hin Hb]. apply andb_true_iff in Hb as [Hr Ht].
  split; [exact Hin|]. split; [now apply String.eqb_eq|].
  apply negb_true_iff in Ht. unfold Preflight.time_filter in Ht.
  apply Z.ltb_ge in Ht. unfold age. lia.
Qed.

Lemma no_live_run_stale r history :
  live_runs now history = [] ->
  In r history -> rh_status r = "RUNNING" ->
  (age now r > Preflight.four_hours)%Z /\
  In (Preflight.mark_interrupted r) (Preflight.reclaim_stale now history).
Proof.
  intros Hlive Hin Hrun.
  assert (Hr : Preflight.is_running r = true) by now apply String.eqb_eq.
  assert (Ht : Preflight.time_filter now r = true).
  { destruct (Preflight.time_filter now r) eqn:Et; [reflexivity|].
    assert (Hl : In r (live_runs now history)).
    { apply filter_In. split; [exact Hin|]. now rewrite Hr, Et. }
    rewrite Hlive in Hl. destruct Hl. }
  split.
  - unfold Preflight.time_filter in Ht. apply Z.ltb_lt in Ht. unfold age. lia.
  - unfold Preflight.reclaim_stale. apply in_map_iff. exists r.
    split; [|exact Hin]. now rewrite Hr, Ht.
Qed.

(** With a live run in the history the run is refused. *)
Lemma run_refused s other rest :
  fresh_run_id the_run_id (run_history s) = true ->
  live_runs now (run_history s) = other :: rest ->
  status (fst (the_run s)) = "FAILED" /\
  error (fst (the_run s))
  = Some ("Concurrent run detected: " ++ rh_run_id other)%string /\
  production_unchanged s (snd (the_run s)) /\
  run_history (snd (the_run s)) = Preflight.reclaim_stale now (run_history s).
Proof.
  intros Hfresh Hlive. unfold Runner.run. rewrite try_body_preflight.
  rewrite (preflight_refuses now (started s) other rest Hlive).
  cbn [fst snd status error Runner.complete_run Runner.exn_message].
  split; [reflexivity|]. split; [reflexivity|]. split.
  - pose proof (ensure_schema_upgrades_work s) as [Hp _].
    destruct Hp as (A1 & A2 & A3 & A4 & A5). repeat split; assumption.
  - cbn. apply finish_fresh.
    now rewrite fresh_reclaim.
Qed.

(** Without a live run the run passes the concurrency check: it is
    recorded, unless preflight rejects the source tables. *)
Lemma run_proceeds s :
  fresh_run_id the_run_id (run_history s) = true ->
  live_runs now (run_history s) = [] ->
  (status (fst (the_run s)) = "FAILED" /\
   run_history (snd (the_run s)) = Preflight.reclaim_stale now (run_history s) /\
   (error (fst (the_run s)) = Some "No active source tables configured" \/
    exists src, In src (source_table s) /\ st_is_active src = true /\
                Preflight.table_exists s (st_table_fqn src) = false /\
                error (fst (the_run s))
                = Some ("Source table not found: " ++ st_table_fqn src)%string))
  \/
  (exists row,
      run_history (snd (the_run s))
      = Preflight.reclaim_stale now (run_history s) ++ [row] /\
      rh_run_id row = the_run_id /\
      rh_status row = status (fst (the_run s)) /\
      rh_started_at row = now).
Proof.
  intros Hfresh Hlive.
  assert (Hfresh' : fresh_run_id the_run_id
                      (Preflight.reclaim_stale now (run_history s)) = true)
    by now rewrite fresh_reclaim.
  destruct (preflight_passes now (started s) Hlive) as [Hdb Hres].
  cbn [db] in Hdb, Hres.
  unfold Runner.run. rewrite try_body_preflight.
  destruct (Preflight.run now (started s)) as [[[]|e] st] eqn:E;
    cbn [fst snd] in Hdb, Hres.
  - right.
    destruct (recorded_after_preflight st) as (row & Hh & Hid & Hst & Hat).
    rewrite Hdb in Hh. cbn [after_reclaim run_history Write.set_run_history] in Hh.
    match goal with
    | |- context [bind ?m ?f st] => destruct (bind m f st) as [[c|e] st'] eqn:E'
    end; cbn [snd] in Hh.
    + exists (finish c None row). cbn [fst snd status Runner.complete_run].
      cbn [run_history Write.set_run_history Write.set_stage_metrics].
      rewrite Hh, map_app, (finish_fresh _ _ _ Hfresh'). cbn [map].
      unfold Runner.finish_row.
      rewrite (proj2 (String.eqb_eq _ _) Hid). cbn. auto.
    + exists (finish (Runner.mk_completion 0 0 0 0 0 "FAILED")
                     (Some (Runner.exn_message e)) row).
      cbn [fst snd status Runner.complete_run].
      cbn [run_history Write.set_run_history Write.set_stage_metrics].
      rewrite Hh, map_app, (finish_fresh _ _ _ Hfresh'). cbn [map].
      unfold Runner.finish_row.
      rewrite (proj2 (String.eqb_eq _ _) Hid). cbn. auto.
  - left. cbn [fst snd status error Runner.complete_run].
    split; [reflexivity|]. split.
    + cbn [run_history Write.set_run_history Write.set_stage_metrics].
      rewrite Hdb. cbn [after_reclaim run_history Write.set_run_history].
      now apply finish_fresh.
    + destruct Hres as [Hres | [Hres | (src & Hin & Hact & Hex & Hres)]].
      * discriminate.
      * injection Hres as ->. now left.
      * injection Hres as ->. right. exists src. auto.
Qed.

End RunCorrect.

(** *** Claims C7 and C8 *)

(** C7 (as the code has it).  A run whose id is not yet in the run
    history, started while another row of the history is RUNNING and
    started no more than four hours ago (the first such row is [other]),
    fails with the error [Concurrent run detected: <run id of other>];
    the production tables (membership, clusters, edges, watermarks,
    golden profile) are as before, and the run history is the old one
    with the stale rows reclaimed: there is no row of the new run, and
    [other] is still RUNNING.  When every RUNNING row started more than
    four hours ago, each is marked INTERRUPTED and the run passes the
    concurrency check: either preflight rejects the source tables, or the
    run is recorded in the history with the status it returns. *)
Theorem concurrent_run_refused_stale_run_reclaimed
  (d : dialect) (now : Z) (uuid_hex : string)
  (select_entities : string -> string -> store -> result (list entity_delta_row))
  (select_identifiers : string -> store -> result (list identifier_row))
  (select_attributes : store -> result (option (list entity_attribute_row)))
  (run_fuzzy_matching :
     nat -> store -> result (list fuzzy_result_row * list string * nat))
  (build_profiles : string -> store -> result (option (list unified_profile_row)))
  (config_digest : store -> option string)
  (config : RunConfig) (s : store) :
  let run_id := Runner.run_id uuid_hex config in
  let out := Runner.run d now uuid_hex select_entities select_identifiers
                        select_attributes run_fuzzy_matching build_profiles
                        config_digest config s in
  let reclaimed := Preflight.reclaim_stale now (run_history s) in
  fresh_run_id run_id (run_history s) = true ->
  match live_runs now (run_history s) with
  | other :: _ =>
      In other (run_history s) /\ rh_status other = "RUNNING" /\
      (age now other <= Preflight.four_hours)%Z /\
      status (fst out) = "FAILED" /\
      error (fst out) = Some ("Concurrent run detected: " ++ rh_run_id other)%string /\
      production_unchanged s (snd out) /\
      run_history (snd out) = reclaimed /\
      fresh_run_id run_id (run_history (snd out)) = true /\
      In other (run_history (snd out))
  | [] =>
      (forall r, In r (run_history s) -> rh_status r = "RUNNING" ->
                 (age now r > Preflight.four_hours)%Z /\
                 In (Preflight.mark_interrupted r) (run_history (snd out))) /\
      (forall r, In r (run_history (snd out)) -> rh_status r = "RUNNING" ->
                 rh_run_id r = run_id) /\
      ((status (fst out) = "FAILED" /\
        run_history (snd out) = reclaimed /\
        (error (fst out) = Some "No active source tables configured" \/
         exists src, In src (source_table s) /\ st_is_active src = true /\
                     Preflight.table_exists s (st_table_fqn src) = false /\
                     error (fst out)
                     = Some ("Source table not found: " ++ st_table_fqn src)%string))
       \/
       (exists row, run_history (snd out) = reclaimed ++ [row] /\
                    rh_run_id row = run_id /\
                    rh_status row = status (fst out) /\
                    rh_started_at row = now))
  end.
Proof.
  intros run_id out reclaimed Hfresh.
  destruct (live_runs now (run_history s)) as [|other rest] eqn:Hlive.
  - pose proof (run_proceeds d now uuid_hex select_entities select_identifiers
                  select_attributes run_fuzzy_matching build_profiles
                  config_digest config s Hfresh Hlive) as Hrun.
    fold out in Hrun. fold reclaimed in Hrun.
    assert (Hsub : forall r, In r reclaimed -> In r (run_history (snd out))).
    { intros r Hr.
      destruct Hrun as [(_ & -> & _) | (row & -> & _)];
        [exact Hr | apply in_or_app; now left]. }
    assert (Hnone : forall r, In r reclaimed -> rh_status r = "RUNNING" -> False).
    { intros r Hr Hst.
      assert (Hin : In r (filter Preflight.is_running reclaimed)).
      { apply filter_In. split; [exact Hr | now apply String.eqb_eq]. }
      unfold reclaimed in Hin. rewrite running_after_reclaim, Hlive in Hin.
      destruct Hin. }
    split; [|split; [|exact Hrun]].
    + intros r Hin Hst.
      destruct (no_live_run_stale now r (run_history s) Hlive Hin Hst) as [Hage Hm].
      split; [exact Hage | now apply Hsub].
    + intros r Hin Hst.
      destruct Hrun as [(_ & Hh & _) | (row & Hh & Hid & _)]; rewrite Hh in Hin.
      * destruct (Hnone r Hin Hst).
      * apply in_app_or in Hin as [Hin | [<- | []]];
          [destruct (Hnone r Hin Hst) | exact Hid].
  - destruct (live_run_running now other rest (run_history s) Hlive)
      as (Hin & Hst & Hage).
    destruct (run_refused d now uuid_hex select_entities select_identifiers
                select_attributes run_fuzzy_matching build_profiles
                config_digest config s other rest Hfresh Hlive)
      as (H1 & H2 & H3 & H4).
    fold out in H1, H2, H3, H4. fold reclaimed in H4.
    repeat (split; [assumption|]). split.
    + rewrite H4. unfold reclaimed. now rewrite fresh_reclaim.
    + rewrite H4.
      assert (Hl : In other (live_runs now (run_history s)))
        by (rewrite Hlive; now left).
      rewrite <- running_after_reclaim in Hl. apply filter_In in Hl. tauto.
Qed.

(** The refusal, with a run started an hour ago beside one started
    five hours ago: the latter is reclaimed, the former named. *)
Lemma concurrent_run_refused_stale_run_reclaimed_witness :
  fresh_run_id (Runner.run_id RunExamples.uuid_hex RunExamples.full_run)
    (run_history (RunExamples.warehouse
                    [RunExamples.five_hours_ago; RunExamples.one_hour_ago]))
  = true /\
  status (fst (Runner.run duckdb RunExamples.noon RunExamples.uuid_hex
                 RunExamples.select_entities RunExamples.select_identifiers
                 RunExamples.select_attributes RunExamples.run_fuzzy_matching
                 RunExamples.build_profiles RunExamples.config_digest
                 RunExamples.full_run
                 (RunExamples.warehouse
                    [RunExamples.five_hours_ago; RunExamples.one_hour_ago])))
  = "FAILED" /\
  error (fst (Runner.run duckdb RunExamples.noon RunExamples.uuid_hex
                RunExamples.select_entities RunExamples.select_identifiers
                RunExamples.select_attributes RunExamples.run_fuzzy_matching
                RunExamples.build_profiles RunExamples.config_digest
                RunExamples.full_run
                (RunExamples.warehouse
                   [RunExamples.five_hours_ago; RunExamples.one_hour_ago])))
  = Some "Concurrent run detected: run_a" /\
  run_history (snd (Runner.run duckdb RunExamples.noon RunExamples.uuid_hex
                      RunExamples.select_entities RunExamples.select_identifiers
                      RunExamples.select_attributes RunExamples.run_fuzzy_matching
                      RunExamples.build_profiles RunExamples.config_digest
                      RunExamples.full_run
                      (RunExamples.warehouse
                         [RunExamples.five_hours_ago; RunExamples.one_hour_ago])))
  = [Preflight.mark_interrupted RunExamples.five_hours_ago;
     RunExamples.one_hour_ago].
Proof.
  split; [reflexivity|].
  pose proof (concurrent_run_refused_stale_run_reclaimed
                duckdb RunExamples.noon RunExamples.uuid_hex
                RunExamples.select_entities RunExamples.select_identifiers
                RunExamples.select_attributes RunExamples.run_fuzzy_matching
                RunExamples.build_profiles RunExamples.config_digest
                RunExamples.full_run
                (RunExamples.warehouse
                   [RunExamples.five_hours_ago; RunExamples.one_hour_ago])
                eq_refl) as H.
  assert (Hlive : live_runs RunExamples.noon
                    (run_history (RunExamples.warehouse
                       [RunExamples.five_hours_ago; RunExamples.one_hour_ago]))
                  = [RunExamples.one_hour_ago]) by reflexivity.
  rewrite Hlive in H.
  destruct H as (_ & _ & _ & Hs & He & _ & Hh & _).
  split; [exact Hs|]. split; [exact He | exact Hh].
Defined.

(** A RUNNING row that started exactly four hours ago is not reclaimed:
    the new run fails on it, and the row stays RUNNING. *)
Lemma concurrent_run_counterexample :
  age RunExamples.noon RunExamples.four_hours_ago = Preflight.four_hours /\
  rh_status RunExamples.four_hours_ago = "RUNNING" /\
  status (fst (RunExamples.run RunExamples.full_run [RunExamples.four_hours_ago]))
  = "FAILED" /\
  error (fst (RunExamples.run RunExamples.full_run [RunExamples.four_hours_ago]))
  = Some "Concurrent run detected: run_c" /\
  run_history (snd (RunExamples.run RunExamples.full_run
                                    [RunExamples.four_hours_ago]))
  = [RunExamples.four_hours_ago].
Proof. vm_compute. repeat split. Qed.

(** C8 (as the code has it).  A run with [dry_run] leaves the membership,
    cluster and edge output tables (and the watermarks and the golden
    profile) as they were.  Its analysis step returns and writes the
    dry-run detail and summary tables, and nothing else.  The run ends
    FAILED, SUCCESS_NO_CHANGES or DRY_RUN_COMPLETE, and in the last case
    the two tables hold the analysis of the labels: every label row is
    classified, NEW when no persisted membership row has its entity key,
    otherwise, per such row, MOVED when the persisted resolved id differs
    from the label and UNCHANGED when it does not. *)
Theorem dry_run_leaves_production_tables
  (d : dialect) (now : Z) (uuid_hex : string)
  (select_entities : string -> string -> store -> result (list entity_delta_row))
  (select_identifiers : string -> store -> result (list identifier_row))
  (select_attributes : store -> result (option (list entity_attribute_row)))
  (run_fuzzy_matching :
     nat -> store -> result (list fuzzy_result_row * list string * nat))
  (build_profiles : string -> store -> result (option (list unified_profile_row)))
  (config_digest : store -> option string)
  (config : RunConfig) (s : store) :
  let run_id := Runner.run_id uuid_hex config in
  let out := Runner.run d now uuid_hex select_entities select_identifiers
                        select_attributes run_fuzzy_matching build_profiles
                        config_digest config s in
  dry_run config = true ->
  production_unchanged s (snd out) /\
  (forall st,
      OutputStage.generate_dry_run_output run_id now st
      = (Ok tt,
         Pipe.mk_state
           (Write.set_dry_run_summary
              (OutputStage.dry_run_summary_rows run_id now
                 (Write.set_dry_run_results
                    (OutputStage.dry_run_rows run_id (Pipe.db st)) (Pipe.db st)))
              (Write.set_dry_run_results
                 (OutputStage.dry_run_rows run_id (Pipe.db st)) (Pipe.db st)))
           (Pipe.warnings st) (Pipe.metrics st))) /\
  (status (fst out) = "FAILED" \/ status (fst out) = "SUCCESS_NO_CHANGES" \/
   status (fst out) = "DRY_RUN_COMPLETE") /\
  (status (fst out) = "DRY_RUN_COMPLETE" ->
   dry_run_analysis run_id now (snd out) /\
   forall row,
     In row (dry_run_results (snd out)) <->
     exists lp, In lp (lp_labels (snd out)) /\
       dr_entity_key row = l_entity_key lp /\
       dr_new_resolved_id row = l_label lp /\
       dr_run_id row = run_id /\
       ((dr_change_type row = "NEW" /\ dr_current_resolved_id row = None /\
         forall m, In m (membership s) -> m_entity_key m <> l_entity_key lp)
        \/
        exists m, In m (membership s) /\ m_entity_key m = l_entity_key lp /\
          dr_current_resolved_id row = Some (m_resolved_id m) /\
          ((m_resolved_id m <> l_label lp /\ dr_change_type row = "MOVED") \/
           (m_resolved_id m = l_label lp /\ dr_change_type row = "UNCHANGED")))).
Proof.
  intros run_id out Hdry.
  pose proof (run_dry_production d now uuid_hex select_entities select_identifiers
                select_attributes run_fuzzy_matching build_profiles
                config_digest config s Hdry) as Hprod.
  pose proof (run_dry_status d now uuid_hex select_entities select_identifiers
                select_attributes run_fuzzy_matching build_profiles
                config_digest config s Hdry) as Hstat.
  fold out in Hprod, Hstat. fold run_id in Hstat.
  split; [exact Hprod|]. split; [intros st; reflexivity|]. split.
  - destruct Hstat as [H | [H | [H _]]]; auto.
  - intros Hdone.
    assert (Han : dry_run_analysis run_id now (snd out)).
    { destruct Hstat as [H | [H | [_ H]]];
        [rewrite H in Hdone; discriminate
        | rewrite H in Hdone; discriminate | exact H]. }
    split; [exact Han|]. intros row.
    destruct Han as [Hres _]. rewrite Hres, dry_run_rows_classified.
    destruct Hprod as (Hm & _). rewrite Hm. reflexivity.
Qed.

(** The dry run of the three customers over the membership of an earlier
    run. *)
Lemma dry_run_leaves_production_tables_witness :
  dry_run RunExamples.dry_run_config = true /\
  production_unchanged
    (RunExamples.warehouse [])
    (snd (Runner.run duckdb RunExamples.noon RunExamples.uuid_hex
            RunExamples.select_entities RunExamples.select_identifiers
            RunExamples.select_attributes RunExamples.run_fuzzy_matching
            RunExamples.build_profiles RunExamples.config_digest
            RunExamples.dry_run_config (RunExamples.warehouse []))) /\
  dry_run_analysis
    (Runner.run_id RunExamples.uuid_hex RunExamples.dry_run_config)
    RunExamples.noon
    (snd (Runner.run duckdb RunExamples.noon RunExamples.uuid_hex
            RunExamples.select_entities RunExamples.select_identifiers
            RunExamples.select_attributes RunExamples.run_fuzzy_matching
            RunExamples.build_profiles RunExamples.config_digest
            RunExamples.dry_run_config (RunExamples.warehouse []))).
Proof.
  split; [reflexivity|].
  pose proof (dry_run_leaves_production_tables
                duckdb RunExamples.noon RunExamples.uuid_hex
                RunExamples.select_entities RunExamples.select_identifiers
                RunExamples.select_attributes RunExamples.run_fuzzy_matching
                RunExamples.build_profiles RunExamples.config_digest
                RunExamples.dry_run_config (RunExamples.warehouse [])
                eq_refl) as H.
  cbv zeta in H. destruct H as (Hprod & _ & _ & Hdone).
  split; [exact Hprod|].
  assert (Hstatus :
            status (fst (Runner.run duckdb RunExamples.noon RunExamples.uuid_hex
                           RunExamples.select_entities RunExamples.select_identifiers
                           RunExamples.select_attributes
                           RunExamples.run_fuzzy_matching
                           RunExamples.build_profiles
                           RunExamples.config_digest
                           RunExamples.dry_run_config (RunExamples.warehouse [])))
            = "DRY_RUN_COMPLETE") by (vm_compute; reflexivity).
  exact (proj1 (Hdone Hstatus)).
Defined.

(** The dry run writes more than its two tables: it records itself in the
    run history and the stage metrics, and rewrites the working tables. *)
Lemma dry_run_counterexample :
  dry_run RunExamples.dry_run_config = true /\
  status (fst (RunExamples.run RunExamples.dry_run_config [])) = "DRY_RUN_COMPLETE" /\
  run_history (RunExamples.warehouse []) = [] /\
  map (fun r => (rh_run_id r, rh_status r))
      (run_history (snd (RunExamples.run RunExamples.dry_run_config [])))
  = [("dry_run_0123456789ab", "DRY_RUN_COMPLETE")] /\
  stage_metrics (RunExamples.warehouse []) = [] /\
  map sm_stage_name
      (stage_metrics (snd (RunExamples.run RunExamples.dry_run_config [])))
  = ["preflight"; "entity_extraction"; "identifier_extraction";
     "attribute_extraction"; "edge_building"; "label_propagation";
     "fuzzy_matching"; "dry_run_analysis"] /\
  lp_labels (RunExamples.warehouse []) = [] /\
  lp_labels (snd (RunExamples.run RunExamples.dry_run_config []))
  = [mk_label "customers:1" "customers:1";
     mk_label "customers:2" "customers:1";
     mk_label "customers:3" "customers:3"].
Proof. vm_compute. repeat split. Qed.

End RunnerCorrect.

(* ================================================================== *)
(** * Part III: the rest of the code *)

(* ================================================================== *)
(** ** Identifiers and qualified names *)

Module IdentifierFacts.
Import Chars Identifiers.

Lemma code_eqb_eq c n :
  (n < 256)%N -> ((code c =? n)%N = true <-> c = ascii_of_N n).
Proof.
  intros Hn. unfold code. rewrite N.eqb_eq. split.
  - intros <-. now rewrite ascii_N_embedding.
  - intros ->. now apply N_ascii_embedding.
Qed.

Lemma at_end_spec s : at_end s = true <-> optional_newline s.
Proof.
  unfold optional_newline. destruct s as [|c [|c' t]]; simpl.
  - split; auto.
  - rewrite (code_eqb_eq c 10) by reflexivity. split.
    + intros ->. now right.
    + intros [H|H]; [discriminate | now injection H].
  - split; [discriminate | intros [H|H]; discriminate].
Qed.

Lemma ident_chars_then_spec k s :
  ident_chars_then k s = true <->
  exists w r, s = (w ++ r)%string /\ all_chars is_ident_char w = true /\ k r = true.
Proof.
  induction s as [|c t IH]; simpl.
  - split.
    + intros H. exists ""%string, ""%string. auto.
    + intros (w & r & E & _ & Hk). destruct w; [|discriminate].
      simpl in E. now subst r.
  - rewrite orb_true_iff, andb_true_iff, IH. split.
    + intros [[Hc (w & r & -> & Hw & Hk)] | Hk].
      * exists (String c w), r. simpl. rewrite Hc. auto.
      * exists ""%string, (String c t). auto.
    + intros (w & r & E & Hw & Hk). destruct w as [|c' w']; simpl in *.
      * right. now subst r.
      * injection E as -> ->. apply andb_true_iff in Hw as [Hc Hw].
        left. split; [exact Hc|]. exists w', r. auto.
Qed.

Lemma ident_then_spec k s :
  ident_then k s = true <->
  exists w r, s = (w ++ r)%string /\ identifier w /\ k r = true.
Proof.
  unfold ident_then, identifier. destruct s as [|c t].
  - split; [discriminate|].
    intros (w & r & E & (c & t & -> & _) & _). discriminate.
  - rewrite andb_true_iff, ident_chars_then_spec. split.
    + intros (Hc & w & r & -> & Hw & Hk).
      exists (String c w), r. split; [reflexivity|]. split; [|exact Hk].
      exists c, w. auto.
    + intros (w & r & E & (c' & t' & -> & Hc & Hw) & Hk).
      injection E as -> ->. split; [exact Hc|]. exists t', r. auto.
Qed.

Lemma string_app_assoc (a b c : string) :
  ((a ++ b) ++ c)%string = (a ++ (b ++ c))%string.
Proof. induction a as [|x a IH]; simpl; [reflexivity | now rewrite IH]. Qed.

Lemma dotted_groups_then_spec n k s :
  dotted_groups_then n k s = true <->
  exists segs r, List.length segs <= n /\ Forall identifier segs /\
                 s = (dotted_tail segs ++ r)%string /\ k r = true.
Proof.
  revert s. induction n as [|n IH]; intros s.
  - simpl. split.
    + intros Hk. exists [], s. repeat split; auto.
    + intros (segs & r & Hlen & _ & -> & Hk).
      destruct segs; [exact Hk | simpl in Hlen; lia].
  - assert (Hskip : k s = true ->
                    exists segs r, List.length segs <= S n /\ Forall identifier segs /\
                                   s = (dotted_tail segs ++ r)%string /\ k r = true).
    { intros Hk. exists [], s. repeat split; auto. simpl. lia. }
    assert (Hback : forall segs r,
               List.length segs <= S n -> Forall identifier segs ->
               s = (dotted_tail segs ++ r)%string -> k r = true ->
               dotted_groups_then (S n) k s = true).
    { intros segs r Hlen Hall -> Hk. destruct segs as [|w segs].
      - simpl. destruct r; [exact Hk|]. rewrite Hk. apply orb_true_r.
      - cbn [dotted_tail append dotted_groups_then].
        apply orb_true_iff. left. apply andb_true_iff.
        split; [reflexivity|]. apply ident_then_spec.
        exists w, (dotted_tail segs ++ r)%string.
        split; [now rewrite string_app_assoc|]. inversion Hall; subst.
        split; [assumption|]. apply IH. exists segs, r.
        simpl in Hlen. repeat split; auto. lia. }
    split.
    + intros H. simpl in H. destruct s as [|c t]; [now apply Hskip|].
      apply orb_true_iff in H as [H | H]; [|now apply Hskip].
      apply andb_true_iff in H as [Hc H].
      apply (code_eqb_eq c 46) in Hc; [|reflexivity]. subst c.
      apply ident_then_spec in H as (w & r0 & -> & Hw & H).
      apply IH in H as (segs & r & Hlen & Hall & -> & Hk).
      exists (w :: segs), r. simpl. rewrite string_app_assoc.
      repeat split; auto. lia.
    + intros (segs & r & Hlen & Hall & E & Hk). now apply (Hback segs r).
Qed.

Lemma concat_dotted first rest :
  String.concat "." (first :: rest) = (first ++ dotted_tail rest)%string.
Proof.
  revert first. induction rest as [|w t IH]; intros first; simpl.
  - clear. induction first as [|c f IH]; simpl; [reflexivity | now rewrite <- IH].
  - f_equal. simpl. f_equal. apply IH.
Qed.

Lemma validate_identifier_accepts_text value name v :
  validate_identifier value name = Ok v <-> v = value /\ safe_identifier_match value = true.
Proof.
  unfold validate_identifier. destruct (String.eqb value "") eqn:E.
  - apply String.eqb_eq in E. subst. split; [discriminate | intros [_ H]; discriminate].
  - destruct (safe_identifier_match value); simpl.
    + split; [intros [= <-]; auto | intros [-> _]; reflexivity].
    + split; [discriminate | intros [_ H]; discriminate].
Qed.

Lemma validate_fqn_returns value name v :
  validate_fqn value name = Ok v -> v = value.
Proof.
  unfold validate_fqn. destruct (String.eqb value ""); [discriminate|].
  destruct (negb _); [discriminate|]. now intros [= <-].
Qed.

(** X1.  [validate_identifier] returns its argument, and only for a
    letter or underscore followed by letters, digits and underscores,
    possibly followed by one final newline (which [$] lets through). *)
Theorem validate_identifier_accepts :
  forall value name v : string,
    validate_identifier value name = Ok v <->
    v = value /\
    exists w r, value = (w ++ r)%string /\ identifier w /\ optional_newline r.
Proof.
  intros value name v. unfold validate_identifier.
  destruct (String.eqb value "") eqn:Hempty.
  - apply String.eqb_eq in Hempty. subst value. split; [discriminate|].
    intros (_ & w & r & E & (c & t & -> & _) & _). discriminate.
  - destruct (safe_identifier_match value) eqn:Hm; simpl.
    + apply ident_then_spec in Hm as (w & r & E & Hw & Hr).
      apply at_end_spec in Hr. split.
      * intros [= <-]. split; [reflexivity|]. exists w, r. auto.
      * intros [-> _]. reflexivity.
    + split; [discriminate|].
      intros (_ & w & r & E & Hw & Hr).
      assert (H : safe_identifier_match value = true).
      { apply ident_then_spec. exists w, r. split; [exact E|].
        split; [exact Hw | now apply at_end_spec]. }
      congruence.
Qed.

(** X2.  [validate_fqn] returns its argument as it was given, quotes
    included, and only when the argument with its backticks and double
    quotes removed is one to three identifiers joined by dots, possibly
    followed by one final newline. *)
Theorem validate_fqn_accepts :
  forall value name v : string,
    validate_fqn value name = Ok v <->
    v = value /\
    exists segs r,
      1 <= List.length segs <= 3 /\ Forall identifier segs /\
      clean_fqn value = (String.concat "." segs ++ r)%string /\
      optional_newline r.
Proof.
  intros value name v.
  assert (Hspec : safe_fqn_match (clean_fqn value) = true <->
                  exists segs r,
                    1 <= List.length segs <= 3 /\ Forall identifier segs /\
                    clean_fqn value = (String.concat "." segs ++ r)%string /\
                    optional_newline r).
  { unfold safe_fqn_match. rewrite ident_then_spec. split.
    - intros (w & r0 & E & Hw & H).
      apply dotted_groups_then_spec in H as (segs & r & Hlen & Hall & -> & Hr).
      exists (w :: segs), r. rewrite concat_dotted, string_app_assoc. simpl.
      repeat split; auto; try lia. now apply at_end_spec.
    - intros (segs & r & [Hlo Hhi] & Hall & E & Hr).
      destruct segs as [|w segs]; [simpl in Hlo; lia|].
      rewrite concat_dotted, string_app_assoc in E. inversion Hall; subst.
      exists w, (dotted_tail segs ++ r)%string. split; [exact E|].
      split; [assumption|]. apply dotted_groups_then_spec.
      exists segs, r. simpl in Hhi. repeat split; auto; try lia.
      now apply at_end_spec. }
  unfold validate_fqn. destruct (String.eqb value "") eqn:Hempty.
  - apply String.eqb_eq in Hempty. subst value. split; [discriminate|].
    intros (_ & H). apply Hspec in H. discriminate.
  - destruct (safe_fqn_match (clean_fqn value)) eqn:Hm; simpl.
    + split.
      * intros [= <-]. split; [reflexivity | now apply Hspec].
      * intros [-> _]. reflexivity.
    + split; [discriminate|]. intros (_ & H). apply Hspec in H. discriminate.
Qed.

End IdentifierFacts.

(* ================================================================== *)
(** ** The utility functions of config.py *)

Module ConfigUtilFacts.
Import Identifiers ConfigUtil.

Lemma find_first {A} (f : A -> bool) l x :
  find f l = Some x ->
  exists before after,
    l = before ++ x :: after /\ f x = true /\
    forall y, In y before -> f y = false.
Proof.
  induction l as [|a t IH]; simpl; [discriminate|].
  destruct (f a) eqn:Ha.
  - intros [= ->]. exists [], t. repeat split; auto. intros y [].
  - intros H. destruct (IH H) as (before & after & -> & Hx & Hb).
    exists (a :: before), after. repeat split; auto.
    intros y [<- | Hy]; auto.
Qed.

Lemma find_none {A} (f : A -> bool) l :
  find f l = None -> forall y, In y l -> f y = false.
Proof.
  induction l as [|a t IH]; simpl; [intros _ y []|].
  destruct (f a) eqn:Ha; [discriminate|].
  intros H y [<- | Hy]; auto.
Qed.

Lemma mem_string x l : existsb (String.eqb x) l = true <-> In x l.
Proof.
  rewrite existsb_exists. split.
  - intros (y & Hy & E). apply String.eqb_eq in E. now subst.
  - intros H. exists x. split; [exact H | apply String.eqb_refl].
Qed.

Lemma not_mem_string x l : existsb (String.eqb x) l = false <-> ~ In x l.
Proof.
  rewrite <- mem_string. destruct (existsb (String.eqb x) l).
  - split; [discriminate | intros H; exfalso; now apply H].
  - split; [intros _ H; discriminate | reflexivity].
Qed.

(** X3.  [get_attr_expr] trusts a mapped expression that is not a bare
    name; a mapped bare name is used only when it is a column of the
    table (compared in lower case); otherwise the first fallback column
    that is a column of the table is used, and [NULL] when there is
    none.  So a bare column the table lacks is never selected. *)
Theorem get_attr_expr_resolves :
  forall (py_lower : string -> string) (table_attrs : string -> option string)
         (attr_name : string) (fallback_cols available_cols : list string)
         (alias : string),
    let r := get_attr_expr py_lower table_attrs attr_name fallback_cols
                           available_cols alias in
    let available c := In (py_lower c) (map py_lower available_cols) in
    (forall e, table_attrs attr_name = Some e ->
               safe_identifier_match e = false -> r = e) /\
    (forall e, table_attrs attr_name = Some e ->
               safe_identifier_match e = true -> available e ->
               r = (alias ++ "." ++ e)%string) /\
    (table_attrs attr_name = None \/
     (exists e, table_attrs attr_name = Some e /\
                safe_identifier_match e = true /\ ~ available e) ->
     (exists before col after,
         fallback_cols = before ++ col :: after /\
         (forall c, In c before -> ~ available c) /\
         available col /\ r = (alias ++ "." ++ col)%string)
     \/
     ((forall c, In c fallback_cols -> ~ available c) /\ r = "NULL"%string)).
Proof.
  intros py_lower table_attrs attr_name fallback_cols available_cols alias r available.
  unfold r, get_attr_expr. split; [|split].
  - intros e -> He. now rewrite He.
  - intros e -> He Ha. rewrite He. apply mem_string in Ha. now rewrite Ha.
  - intros Hcase.
    assert (Hauto :
      (exists before col after,
          fallback_cols = before ++ col :: after /\
          (forall c, In c before -> ~ available c) /\
          available col /\
          match find (fun col => existsb (String.eqb (py_lower col))
                                         (map py_lower available_cols))
                     fallback_cols with
          | Some col => (alias ++ "." ++ col)%string
          | None => "NULL"%string
          end = (alias ++ "." ++ col)%string)
      \/
      ((forall c, In c fallback_cols -> ~ available c) /\
       match find (fun col => existsb (String.eqb (py_lower col))
                                      (map py_lower available_cols))
                  fallback_cols with
       | Some col => (alias ++ "." ++ col)%string
       | None => "NULL"%string
       end = "NULL"%string)).
    { destruct (find _ fallback_cols) as [col|] eqn:Ef.
      - left. apply find_first in Ef as (before & after & E & Hc & Hb).
        exists before, col, after. split; [exact E|]. split.
        + intros c Hin. apply not_mem_string. now apply Hb.
        + split; [now apply mem_string | reflexivity].
      - right. split; [|reflexivity]. intros c Hin.
        apply not_mem_string. now apply (find_none _ _ Ef). }
    destruct Hcase as [-> | (e & -> & He & Hna)]; [exact Hauto|].
    rewrite He. apply not_mem_string in Hna. rewrite Hna. exact Hauto.
Qed.

Lemma string_length_append (a b : string) :
  String.length (a ++ b) = String.length a + String.length b.
Proof. induction a as [|c a IH]; simpl; [reflexivity | now rewrite IH]. Qed.

(** X4.  [build_where_clause] gives the filter [1=1], which keeps every
    row, exactly when the mode is FULL, or there is no last watermark, or
    no watermark column; in every other case, and for every dialect, the
    clause compares the watermark column with a bound. *)
Theorem build_where_clause_full_scan :
  forall (watermark_column : string) (last_watermark : option string)
         (lookback_minutes : Z) (run_mode dialect : string),
    let clause := build_where_clause watermark_column last_watermark
                                     lookback_minutes run_mode dialect in
    (clause = "1=1"%string <->
     run_mode = "FULL"%string \/ last_watermark = None \/
     last_watermark = Some ""%string \/ watermark_column = ""%string) /\
    (clause <> "1=1"%string ->
     exists bound, clause = (watermark_column ++ " > " ++ bound)%string).
Proof.
  intros wc last lookback mode dialect clause.
  assert (Hlong : forall bound,
             wc <> ""%string -> (wc ++ " > " ++ bound)%string <> "1=1"%string).
  { intros bound Hwc E. apply (f_equal String.length) in E.
    rewrite string_length_append in E. destruct wc; [congruence|].
    simpl in E. lia. }
  assert (Hcase :
    (clause = "1=1"%string /\
     (mode = "FULL"%string \/ last = None \/ last = Some ""%string
      \/ wc = ""%string))
    \/
    (wc <> ""%string /\ mode <> "FULL"%string /\
     (exists l, last = Some l /\ l <> ""%string) /\
     exists bound, clause = (wc ++ " > " ++ bound)%string)).
  { unfold clause, build_where_clause. destruct last as [l|]; [|left; auto].
    destruct (String.eqb mode "FULL") eqn:Em.
    { left. apply String.eqb_eq in Em. auto. }
    destruct (String.eqb l "") eqn:El.
    { left. apply String.eqb_eq in El. subst. auto. }
    destruct (String.eqb wc "") eqn:Ew.
    { left. apply String.eqb_eq in Ew. auto. }
    right. apply String.eqb_neq in Em, El, Ew.
    split; [exact Ew|]. split; [exact Em|]. split; [eauto|].
    cbn [orb].
    destruct (String.eqb dialect "snowflake"), (String.eqb dialect "bigquery"),
      (String.eqb dialect "databricks"), (0 <? lookback)%Z;
      eexists; reflexivity. }
  split.
  - split.
    + intros E. destruct Hcase as [[_ H] | (Hwc & _ & _ & bound & Hb)]; [exact H|].
      rewrite Hb in E. destruct (Hlong bound Hwc E).
    + intros H. destruct Hcase as [[E _] | (Hwc & Hm & (l & Hl & Hne) & _)];
        [exact E|].
      destruct H as [H | [H | [H | H]]]; try congruence.
  - intros Hne. destruct Hcase as [[E _] | (_ & _ & _ & H)]; [congruence | exact H].
Qed.

End ConfigUtilFacts.

(* ================================================================== *)
(** ** Metadata values before interpolation *)

Module BaseStageFacts.
Import Chars Identifiers Validators BaseStage.

Lemma raise_inj {A} (e1 e2 : exn) : @Raise A e1 = Raise e2 -> e1 = e2.
Proof. now intros [= ->]. Qed.

Lemma within_sanity_bound f :
  float_lt (Finite (- sanity_bound)) f && float_lt f (Finite sanity_bound) = true ->
  exists q, f = Finite q /\ (- sanity_bound < q)%Q /\ (q < sanity_bound)%Q.
Proof.
  destruct f as [q| | |]; simpl; try discriminate.
  intros H. apply andb_true_iff in H as [H1 H2]. exists q.
  split; [reflexivity|]. unfold Qlt_bool in *.
  apply negb_true_iff in H1, H2. split.
  - apply Qnot_le_lt. intros Hle. apply Qle_bool_iff in Hle. congruence.
  - apply Qnot_le_lt. intros Hle. apply Qle_bool_iff in Hle. congruence.
Qed.

(** X5.  [_validate_metadata_value] never lets a ValueError or TypeError
    out: every failure of a check is a RuntimeError that names the field,
    except the OverflowError of [int()] or [float()] on an infinite or
    huge number, which passes through unwrapped.  What it returns is,
    by type: the text itself for [identifier], [fqn] and [expr], accepted
    by the respective validator; the integer for [integer]; a finite
    float strictly within the sanity bound for [float]; one of the four
    enum texts for [enum].  Every other type name is refused. *)
Theorem validate_metadata_value_wraps :
  forall (int_of_str : string -> option Z)
         (float_of_str : string -> option pyfloat)
         (float_repr : pyfloat -> string)
         (value : pyvalue) (value_type field_name : string),
    let r := validate_metadata_value int_of_str float_of_str float_repr
                                     value value_type field_name in
    let text := py_str float_repr value in
    (forall e, r = Raise e ->
       (exists cause,
           e = RuntimeError
                 ("Metadata validation failed for " ++ field_name ++ ": " ++ cause
                  ++ ". Check your idr_meta configuration for unsafe values."))
       \/
       (exists msg, e = OverflowError msg /\
                    (value_type = "integer"%string \/ value_type = "float"%string))) /\
    (forall v, r = Ok v ->
       (value_type = "identifier"%string /\ v = PyStr text /\
        validate_identifier text field_name = Ok text) \/
       (value_type = "fqn"%string /\ v = PyStr text /\
        validate_fqn text field_name = Ok text) \/
       (value_type = "expr"%string /\ v = PyStr text /\
        validate_sql_expr text field_name = Ok text) \/
       (value_type = "integer"%string /\
        exists n, v = PyInt n /\ py_int int_of_str value = Ok n) \/
       (value_type = "float"%string /\
        exists q, v = PyFloat (Finite q) /\
                  (- sanity_bound < q)%Q /\ (q < sanity_bound)%Q) \/
       (value_type = "enum"%string /\
        exists mode, v = PyStr mode /\ In mode ExtractionStage.CANONICALIZE_ENUM)) /\
    validate_metadata_value int_of_str float_of_str float_repr
                            (PyFloat PosInf) "integer" field_name
    = Raise (OverflowError "cannot convert float infinity to integer").
Proof.
  intros int_of_str float_of_str float_repr value value_type field_name r text.
  split; [|split; [|reflexivity]].
  - intros e. unfold r, validate_metadata_value, checked_value.
    destruct (String.eqb value_type "identifier") eqn:T1.
    { unfold validate_identifier.
      destruct (String.eqb _ ""); [|destruct (negb _)]; cbn [result_map].
      all: first [intros H; discriminate H | intros H; apply raise_inj in H; subst e; left; eexists; reflexivity]. }
    destruct (String.eqb value_type "fqn") eqn:T2.
    { unfold validate_fqn.
      destruct (String.eqb _ ""); [|destruct (negb _)]; cbn [result_map];
        first [intros H; discriminate H | intros H; apply raise_inj in H; subst e; left; eexists; reflexivity]. }
    destruct (String.eqb value_type "expr") eqn:T3.
    { unfold validate_sql_expr.
      destruct (String.eqb _ ""); [|destruct (dangerous_sql_search _)];
        cbn [result_map];
        first [intros H; discriminate H | intros H; apply raise_inj in H; subst e; left; eexists; reflexivity]. }
    destruct (String.eqb value_type "integer") eqn:T4.
    { apply String.eqb_eq in T4. unfold validate_integer.
      destruct value as [n|[q| | |]|s|]; cbn [py_int];
        try destruct (int_of_str s); cbn [result_map];
        first [intros H; discriminate H
              | intros H; apply raise_inj in H; subst e; left; eexists; reflexivity
              | intros H; apply raise_inj in H; subst e; right; eexists; split; [reflexivity | auto]]. }
    destruct (String.eqb value_type "float") eqn:T5.
    { apply String.eqb_eq in T5. unfold validate_float.
      destruct value as [n|f|s|]; cbn [py_float];
        try destruct (Z.abs n <? float_overflow_threshold)%Z;
        try destruct (float_of_str s);
        try destruct (negb _); cbn [result_map];
        first [intros H; discriminate H
              | intros H; apply raise_inj in H; subst e; left; eexists; reflexivity
              | intros H; apply raise_inj in H; subst e; right; eexists; split; [reflexivity | auto]]. }
    destruct (String.eqb value_type "enum") eqn:T6.
    { destruct (existsb _ _);
        first [intros H; discriminate H | intros H; apply raise_inj in H; subst e; left; eexists; reflexivity]. }
    intros H. apply raise_inj in H. subst e. left. eexists. reflexivity.
  - intros v. unfold r, validate_metadata_value, checked_value. fold text.
    destruct (String.eqb value_type "identifier") eqn:T1.
    { apply String.eqb_eq in T1.
      destruct (validate_identifier text field_name) as [x|[m|m|m|m]] eqn:E;
        simpl; try discriminate.
      intros [= <-]. left. split; [exact T1|].
      destruct (proj1 (IdentifierFacts.validate_identifier_accepts_text _ _ _) E)
        as [-> _]. auto. }
    destruct (String.eqb value_type "fqn") eqn:T2.
    { apply String.eqb_eq in T2.
      destruct (validate_fqn text field_name) as [x|[m|m|m|m]] eqn:E;
        simpl; try discriminate.
      intros [= <-]. right. left. split; [exact T2|].
      pose proof (IdentifierFacts.validate_fqn_returns _ _ _ E) as ->. auto. }
    destruct (String.eqb value_type "expr") eqn:T3.
    { apply String.eqb_eq in T3.
      destruct (validate_sql_expr text field_name) as [x|[m|m|m|m]] eqn:E;
        simpl; try discriminate.
      intros [= <-]. right. right. left. split; [exact T3|].
      assert (x = text) as ->.
      { unfold validate_sql_expr in E.
        destruct (String.eqb text ""); [discriminate|].
        destruct (dangerous_sql_search text); [discriminate|]. now injection E. }
      auto. }
    destruct (String.eqb value_type "integer") eqn:T4.
    { apply String.eqb_eq in T4. unfold validate_integer.
      destruct (py_int int_of_str value) as [n|[m|m|m|m]]; simpl; try discriminate.
      intros [= <-]. do 3 right. left. eauto. }
    destruct (String.eqb value_type "float") eqn:T5.
    { apply String.eqb_eq in T5. unfold validate_float.
      destruct (py_float float_of_str value) as [f|[m|m|m|m]];
        cbn [result_map]; try discriminate.
      destruct (float_lt (Finite (- sanity_bound)) f
                && float_lt f (Finite sanity_bound)) eqn:E;
        cbn [negb result_map]; [|discriminate].
      intros [= <-]. do 4 right. left. split; [exact T5|].
      destruct (within_sanity_bound f E) as (q & -> & H1 & H2). eauto. }
    destruct (String.eqb value_type "enum") eqn:T6.
    { apply String.eqb_eq in T6.
      destruct (existsb _ ExtractionStage.CANONICALIZE_ENUM) eqn:E; [|discriminate].
      intros [= <-]. do 5 right. split; [exact T6|].
      eexists. split; [reflexivity|]. now apply ConfigUtilFacts.mem_string. }
    discriminate.
Qed.

End BaseStageFacts.

(* ================================================================== *)
(** ** The run configuration *)

Module RunConfigFacts.
Import Chars RunConfigInit.

Lemma post_init_again mode k dr st :
  mode = "FULL"%string \/ mode = "INCR"%string -> 1 <= k ->
  post_init (to_raw (mk_RunConfig mode k dr st)) = Ok (mk_RunConfig mode k dr st).
Proof.
  intros Hmode Hk. unfold post_init, to_raw.
  cbn [run_mode max_iters dry_run strict raw_run_mode raw_max_iters
       raw_dry_run raw_strict].
  assert (En : (Z.of_nat k <? 1)%Z = false) by (apply Z.ltb_ge; lia).
  rewrite En, Nat2Z.id. destruct Hmode as [-> | ->]; reflexivity.
Qed.

(** X6.  [RunConfig.__post_init__] accepts FULL, INCR and INCREMENTAL in
    any letter case with an iteration bound of at least 1, and nothing
    else; an accepted configuration has the mode FULL or INCR and keeps
    the bound and the two flags; constructing a configuration again from
    an accepted one gives the same configuration. *)
Theorem post_init_normalizes :
  forall c : raw_config,
    let mode := str_upper (raw_run_mode c) in
    let known := mode = "FULL"%string \/ mode = "INCR"%string
                 \/ mode = "INCREMENTAL"%string in
    match post_init c with
    | Ok cfg =>
        known /\ (1 <= raw_max_iters c)%Z /\
        (run_mode cfg = "FULL"%string <-> mode = "FULL"%string) /\
        (run_mode cfg = "INCR"%string <-> mode <> "FULL"%string) /\
        Z.of_nat (max_iters cfg) = raw_max_iters c /\
        1 <= max_iters cfg /\
        dry_run cfg = raw_dry_run c /\ strict cfg = raw_strict c /\
        post_init (to_raw cfg) = Ok cfg
    | Raise e =>
        (exists msg, e = ValueError msg) /\ (~ known \/ (raw_max_iters c < 1)%Z)
    end.
Proof.
  intros [m n dr st] mode known. unfold known, mode, post_init.
  cbn [raw_run_mode raw_max_iters raw_dry_run raw_strict].
  destruct (String.eqb (str_upper m) "FULL"
            || String.eqb (str_upper m) "INCR"
            || String.eqb (str_upper m) "INCREMENTAL") eqn:Ek.
  - assert (Hknown : str_upper m = "FULL"%string \/ str_upper m = "INCR"%string
                     \/ str_upper m = "INCREMENTAL"%string).
    { apply orb_true_iff in Ek as [Ek | Ek];
        [apply orb_true_iff in Ek as [Ek | Ek]|];
        apply String.eqb_eq in Ek; auto. }
    destruct (n <? 1)%Z eqn:En.
    { apply Z.ltb_lt in En. split; [eauto | right; exact En]. }
    apply Z.ltb_ge in En.
    cbn [run_mode max_iters dry_run strict].
    split; [exact Hknown|]. split; [lia|].
    destruct (String.eqb (str_upper m) "FULL") eqn:E1.
    + apply String.eqb_eq in E1.
      split; [tauto|]. split; [split; [discriminate | tauto]|].
      split; [apply Z2Nat.id; lia|]. split; [lia|].
      split; [reflexivity|]. split; [reflexivity|].
      apply post_init_again; [auto | lia].
    + apply String.eqb_neq in E1.
      split; [split; [discriminate | tauto]|]. split; [tauto|].
      split; [apply Z2Nat.id; lia|]. split; [lia|].
      split; [reflexivity|]. split; [reflexivity|].
      apply post_init_again; [auto | lia].
  - split; [eauto|]. left.
    apply orb_false_iff in Ek as [Ek E3]. apply orb_false_iff in Ek as [E1 E2].
    apply String.eqb_neq in E1, E2, E3. intros [H | [H | H]]; congruence.
Qed.

End RunConfigFacts.

(* ================================================================== *)
(** ** Edges, labels and fuzzy pairs: what is never produced *)

Module BuildEdgesExtra.
Import StrOrd Sql BuildEdges SqlFacts BuildEdgesFacts.

(** X7.  Every edge [build_edges] creates is justified by a shared
    identifier: its two ends are entity keys of two rows of
    [identifiers_all] that carry the edge's identifier type and value;
    the right end is the smaller key (the anchor) and differs from the
    left end, so no edge is a self-loop.  The count returned is the
    number of edge rows. *)
Theorem build_edges_justified :
  forall (run_id : string) (current_timestamp : Z) (generate_evidence : bool)
         (t : tables),
    let t' := fst (build_edges run_id current_timestamp generate_evidence t) in
    Forall
      (fun e =>
         exists i j,
           In i (identifiers_all t) /\ In j (identifiers_all t) /\
           i_entity_key i = left_entity_key e /\
           i_entity_key j = right_entity_key e /\
           group_key i = (e_identifier_type e, e_identifier_value_norm e) /\
           group_key j = (e_identifier_type e, e_identifier_value_norm e) /\
           le (right_entity_key e) (left_entity_key e) /\
           right_entity_key e <> left_entity_key e)
      (t_edges_new t') /\
    snd (build_edges run_id current_timestamp generate_evidence t)
    = List.length (t_edges_new t').
Proof.
  intros run_id ts gen t t'. unfold t'.
  rewrite build_edges_edges, build_edges_count. split; [|reflexivity].
  apply Forall_forall. intros e He. unfold edges_new in He.
  apply in_flat_map in He as (i & Hi & He).
  apply in_flat_map in He as (g & Hg & He).
  destruct (String.eqb (i_identifier_type i) (g_identifier_type g)) eqn:Et;
    [|contradiction].
  destruct (String.eqb (i_identifier_value_norm i) (g_identifier_value_norm g))
    eqn:Ev; [|contradiction].
  destruct (String.eqb (i_entity_key i) (g_anchor_key g)) eqn:Ek; [contradiction|].
  destruct He as [<-|[]]. cbn [left_entity_key right_entity_key e_identifier_type
                                e_identifier_value_norm].
  apply String.eqb_eq in Et, Ev. apply String.eqb_neq in Ek.
  unfold valid_groups in Hg. apply filter_In in Hg as [Hg _].
  unfold identifier_groups in Hg. apply in_flat_map in Hg as (k & _ & Hg).
  cbv zeta in Hg.
  destruct (1 <? List.length (group_rows k (identifiers_all t))); [|contradiction].
  destruct (sql_min (map i_entity_key (group_rows k (identifiers_all t))))
    as [a|] eqn:Hmin; [|contradiction].
  destruct (sql_max (map i_max_group_size (group_rows k (identifiers_all t))));
    [|contradiction].
  destruct Hg as [<-|[]].
  cbn [g_identifier_type g_identifier_value_norm g_anchor_key] in *.
  apply sql_min_Some in Hmin as [Hin Hle].
  apply in_map_iff in Hin as (j & Hja & Hj). apply group_rows_In in Hj as [Hj Hjk].
  assert (Hik : group_key i = k).
  { unfold group_key. destruct k as [k1 k2]. simpl in *. congruence. }
  exists i, j. split; [exact Hi|]. split; [exact Hj|]. split; [reflexivity|].
  split; [exact Hja|]. split; [reflexivity|]. split.
  { rewrite Hjk, <- Hik. reflexivity. }
  split.
  - apply Hle. apply in_map. apply group_rows_In. auto.
  - congruence.
Qed.

End BuildEdgesExtra.

Module FuzzyExtra.
Import Sql Fuzzy SqlFacts FuzzyFacts.

(** X8.  Every fuzzy edge kept for a rule joins two different clusters
    of the rule's profile that have the same blocking key, in a block
    within the ceiling of 10000 rows; the left end has the smaller
    digest; and the edge carries the score of the pair, which is at least
    the threshold.  Nothing is kept from an oversized block, from a NULL
    blocking key or from a NULL score. *)
Theorem fuzzy_edges_sound :
  forall (blocking_key : profile_row -> option string)
         (score_expr : profile_row -> profile_row -> option Q)
         (md5 : string -> string) (threshold : Q)
         (profile : list profile_row),
    Forall
      (fun e =>
         exists a b k,
           In a profile /\ In b profile /\
           p_resolved_id a = left_create_id e /\
           p_resolved_id b = right_create_id e /\
           blocking_key a = Some k /\ blocking_key b = Some k /\
           (Z.of_nat (block_size k (profile_with_bk blocking_key profile))
            <= max_block_size)%Z /\
           String.ltb (md5 (left_create_id e)) (md5 (right_create_id e)) = true /\
           score_expr a b = Some (fe_score e) /\
           (threshold <= fe_score e)%Q /\
           left_create_id e <> right_create_id e)
      (new_fuzzy_edges blocking_key score_expr md5 threshold profile).
Proof.
  intros blocking_key score_expr md5 threshold profile.
  apply Forall_forall. intros e He. unfold new_fuzzy_edges in He.
  apply in_flat_map in He as (sp & Hsp & He).
  destruct (sp_score sp) as [s|] eqn:Es; [|contradiction].
  destruct (Qle_bool threshold s) eqn:Et; [|contradiction].
  destruct He as [<-|[]]. apply Qle_bool_iff in Et.
  unfold scored_pairs in Hsp. cbv zeta in Hsp.
  apply in_flat_map in Hsp as ([a ka] & Ha & Hsp).
  apply in_flat_map in Hsp as ([b kb] & Hb & Hsp).
  cbn [fst snd] in Hsp.
  destruct (String.eqb ka kb) eqn:Ek; [|contradiction].
  destruct (id_compare md5 a b) eqn:Ec; [|contradiction].
  cbn [andb] in Hsp.
  apply in_flat_map in Hsp as (vb & Hvb & Hsp).
  destruct (String.eqb ka vb) eqn:Ev; [|contradiction].
  destruct Hsp as [<-|[]]. cbn [sp_score left_id right_id] in *.
  apply String.eqb_eq in Ek, Ev. subst kb vb.
  apply profile_with_bk_In in Ha as [Ha Hka], Hb as [Hb Hkb].
  unfold valid_blocks in Hvb. apply filter_In in Hvb as [_ Hsize].
  apply Z.leb_le in Hsize.
  exists a, b, ka. cbn [left_create_id right_create_id fe_score].
  repeat (split; [assumption || reflexivity|]).
  intros E. unfold id_compare in Ec. rewrite E in Ec.
  pose proof (ltb_asym _ _ Ec). congruence.
Qed.

End FuzzyExtra.

Module LabelPropagationExtra.
Import StrOrd Sql LabelPropagation GraphSpec.
Import SqlFacts LabelPropagationFacts LabelPropagationInvariant.

Lemma filter_length_bound {A} (f : A -> bool) l :
  List.length (filter f l) <= List.length l.
Proof.
  induction l as [|x t IH]; simpl; [lia|]. destruct (f x); simpl; lia.
Qed.

Lemma distinct_length_bound {A} (eqb : A -> A -> bool) l :
  List.length (distinct eqb l) <= List.length l.
Proof.
  induction l as [|x t IH]; simpl; [lia|].
  pose proof (filter_length_bound (fun y => negb (eqb y x)) (distinct eqb t)). lia.
Qed.

Lemma count_clusters_bounds labels :
  count_clusters labels <= List.length labels /\
  (labels <> [] -> 1 <= count_clusters labels).
Proof.
  unfold count_clusters. split.
  - pose proof (distinct_length_bound String.eqb (map l_label labels)) as H.
    now rewrite length_map in H.
  - destruct labels as [|r t]; [congruence|]. intros _. simpl. lia.
Qed.

(** X9.  With the ends of every edge among the entities of the run,
    [label_propagation] returns an iteration count between 1 and
    [max_iters] (0 only when [max_iters] is 0) and a cluster count
    between 1 and the number of entities (0 only without entities); the
    label table it leaves has one row per entity. *)
Theorem label_propagation_bounds :
  forall (max_iters : nat) (run_id : string)
         (entities_delta : list entity_delta_row) (edges_new : list edge_row),
    edges_over_entities run_id entities_delta edges_new ->
    let s := run_loop max_iters run_id entities_delta edges_new in
    let r := label_propagation max_iters run_id entities_delta edges_new in
    fst r = iterations s /\
    iterations s <= max_iters /\
    (1 <= max_iters -> 1 <= iterations s) /\
    map l_entity_key (lp_labels s) = entity_keys run_id entities_delta /\
    snd r <= List.length (entity_keys run_id entities_delta) /\
    (entity_keys run_id entities_delta <> [] -> 1 <= snd r).
Proof.
  intros max_iters run_id ed en closed s r.
  destruct (lp_loop_invariant run_id ed en closed max_iters 0
              (init_labels run_id ed) (init_invariant run_id ed en))
    as [[HK _] _].
  fold (run_loop max_iters run_id ed en) in HK. fold s in HK.
  destruct (lp_loop_labels_after en max_iters 0 (init_labels run_id ed))
    as [[_ Hi] _].
  fold (run_loop max_iters run_id ed en) in Hi. fold s in Hi.
  destruct (count_clusters_bounds (lp_labels s)) as [Hc1 Hc2].
  assert (Hlen : List.length (lp_labels s)
                 = List.length (entity_keys run_id ed)).
  { rewrite <- HK. now rewrite length_map. }
  split; [reflexivity|]. split; [simpl in Hi; lia|]. split.
  { intros Hm. unfold s, run_loop. destruct max_iters as [|n]; [lia|].
    cbn [lp_loop].
    destruct (count_changes _ _ =? 0); [simpl; lia|].
    destruct (lp_loop_labels_after en n 1
                (propagate (build_lp_edges en) (init_labels run_id ed)))
      as [[Hlo _] _].
    exact Hlo. }
  split; [exact HK|]. split.
  { unfold r, label_propagation. fold s. cbn [snd]. lia. }
  intros Hne. unfold r, label_propagation. fold s. cbn [snd]. apply Hc2.
  intros E. rewrite E in HK. simpl in HK. now symmetry in HK.
Qed.

Lemma sample_edges_closed :
  edges_over_entities "run_1" Examples.sample_entities
    (BuildEdges.edges_new Examples.sample_identifiers).
Proof.
  intros e He. vm_compute in He.
  destruct He as [<-|[<-|[]]]; split; vm_compute; tauto.
Qed.

Lemma label_propagation_bounds_witness :
  edges_over_entities "run_1" Examples.sample_entities
    (BuildEdges.edges_new Examples.sample_identifiers) /\
  iterations (run_loop 30 "run_1" Examples.sample_entities
                       (BuildEdges.edges_new Examples.sample_identifiers)) <= 30 /\
  snd (label_propagation 30 "run_1" Examples.sample_entities
                         (BuildEdges.edges_new Examples.sample_identifiers))
  <= List.length (entity_keys "run_1" Examples.sample_entities).
Proof.
  split; [exact sample_edges_closed|].
  pose proof (label_propagation_bounds 30 "run_1" Examples.sample_entities
                (BuildEdges.edges_new Examples.sample_identifiers)
                sample_edges_closed) as H.
  cbv zeta in H. destruct H as (_ & H1 & _ & _ & H2 & _).
  split; [exact H1 | exact H2].
Defined.

(** X10.  Without edges, and with at least one iteration allowed, label
    propagation stops after its first iteration because no label
    changed; every entity keeps its own key as label, and the cluster
    count is the number of entities. *)
Theorem label_propagation_without_edges :
  forall (n : nat) (run_id : string) (entities_delta : list entity_delta_row),
    let s := run_loop (S n) run_id entities_delta [] in
    iterations s = 1 /\ stopped s = NoLabelChanged /\
    lp_labels s = init_labels run_id entities_delta /\
    label_propagation (S n) run_id entities_delta []
    = (1, List.length (entity_keys run_id entities_delta)).
Proof.
  intros n run_id ed s.
  assert (closed : edges_over_entities run_id ed []) by (intros e []).
  pose proof (init_invariant run_id ed []) as [HK0 _].
  assert (Hself : forall r, In r (init_labels run_id ed) ->
                            l_label r = l_entity_key r).
  { intros r Hr. now apply init_labels_In in Hr as [Hr _]. }
  assert (Hfix : propagate (build_lp_edges []) (init_labels run_id ed)
                 = init_labels run_id ed).
  { apply same_keys_same_labels.
    - rewrite (propagate_keys run_id ed [] closed _ HK0). now rewrite HK0.
    - intros p c Hp Hc Hk. apply In_propagate in Hp as [Hcand _].
      destruct Hcand as [Hin | (e & _ & [] & _)].
      apply Hself in Hin. cbn in Hin. rewrite Hin, Hk. symmetry. now apply Hself. }
  assert (Hzero : count_changes (init_labels run_id ed) (init_labels run_id ed) = 0).
  { apply count_changes_zero. intros p c Hp Hc Hk.
    rewrite (Hself p Hp), (Hself c Hc). exact Hk. }
  assert (Hs : s = mk_lp_state 1 (init_labels run_id ed) NoLabelChanged).
  { unfold s, run_loop. cbn [lp_loop]. rewrite Hfix, Hzero. reflexivity. }
  rewrite Hs. cbn [iterations stopped lp_labels].
  repeat split. unfold label_propagation. fold s. rewrite Hs.
  cbn [iterations lp_labels]. f_equal.
  unfold count_clusters, entity_keys, init_labels.
  rewrite !map_map. cbn [l_label l_entity_key]. rewrite !map_id.
  rewrite distinct_NoDup_id.
  - reflexivity.
  - apply String.eqb_eq.
  - apply str_NoDup_distinct.
Qed.

End LabelPropagationExtra.

(* ================================================================== *)
(** ** The super clusters of fuzzy matching *)

Module SuperClustersFacts.
Import StrOrd Sql Fuzzy LabelPropagation GraphSpec SuperClusters.
Import SqlFacts LabelPropagationFacts LabelPropagationInvariant.

(** The clusters as the entities of a run with the empty id. *)
Local Abbreviation as_entity :=
  (fun a : cluster_attribute_row =>
     mk_entity_delta EmptyString EmptyString (ca_resolved_id a) 0%Z).











(** The sample: [B:7] joins the super cluster of [A:1]. *)
Lemma super_clusters_sample :
  super_clusters 30 FuzzyExamples.sample_cluster_attributes
                 SuperClustersExamples.sample_fuzzy_edges
  = ([mk_fuzzy_result "A:1" "A:1"; mk_fuzzy_result "B:7" "A:1";
      mk_fuzzy_result "C:9" "C:9"], 2).
Proof. vm_compute. reflexivity. Qed.

End SuperClustersFacts.

(* ================================================================== *)
(** ** The upsert *)

Module UpsertFacts.
Import OutputStage.

Section Keyed.
Variable R : Type.
Variable key : R -> string.
Variable update : R -> R -> R.
Variable insert : R -> R.
Hypothesis update_key : forall r s, key s = key r -> key (update r s) = key r.
Hypothesis insert_key : forall s, key (insert s) = key s.

Local Abbreviation same_key := (fun a b : R => String.eqb (key a) (key b)).
Local Abbreviation updated source :=
  (fun r => match find (fun s => String.eqb (key s) (key r)) source with
            | Some s => update r s
            | None => r
            end).
Local Abbreviation unmatched target :=
  (fun s => negb (existsb (same_key s) target)).

Lemma find_absent k source :
  ~ In k (map key source) ->
  find (fun s => String.eqb (key s) k) source = None.
Proof.
  induction source as [|s t IH]; simpl; [reflexivity|]. intros Hn.
  destruct (String.eqb (key s) k) eqn:E.
  - apply String.eqb_eq in E. exfalso. apply Hn. now left.
  - apply IH. intros H. apply Hn. now right.
Qed.

Lemma existsb_same_keys (g : R -> R) x target :
  (forall r, key (g r) = key r) ->
  existsb (same_key x) (map g target) = existsb (same_key x) target.
Proof.
  intros Hg. induction target as [|r t IH]; simpl; [reflexivity|].
  now rewrite Hg, IH.
Qed.

Lemma existsb_none x target :
  existsb (same_key x) target = false ->
  forall r, In r target -> String.eqb (key x) (key r) = false.
Proof.
  induction target as [|a t IH]; simpl; [intros _ r []|].
  intros H r [<- | Hr]; apply orb_false_iff in H as [H1 H2]; auto.
Qed.

Lemma upsert_unfolded :
  forall target source : list R,
    NoDup (map key source) ->
    upsert same_key update insert target source
    = map (updated source) target
      ++ map insert (filter (unmatched target) source).
Proof.
  intros target source. revert target.
  induction source as [|s rest IH]; intros target Hd.
  - simpl. rewrite app_nil_r. symmetry. apply map_id.
  - inversion Hd as [|? ? Hn Hd']; subst.
    unfold upsert. cbn [fold_left]. fold (upsert same_key update insert).
    destruct (existsb (same_key s) target) eqn:Ex.
    + change (upsert same_key update insert
                (map (fun r => if String.eqb (key s) (key r) then update r s else r)
                     target) rest
              = map (updated (s :: rest)) target
                ++ map insert (filter (unmatched target) (s :: rest))).
      rewrite (IH _ Hd'). cbn [filter]. rewrite Ex. cbn [negb]. f_equal.
      * rewrite map_map. apply map_ext. intros r. cbn [find].
        destruct (String.eqb (key s) (key r)) eqn:E; [|reflexivity].
        apply String.eqb_eq in E.
        rewrite (update_key r s E), find_absent; [reflexivity|].
        now rewrite <- E.
      * f_equal. apply filter_ext. intros x. f_equal.
        apply existsb_same_keys. intros r.
        destruct (String.eqb (key s) (key r)) eqn:E; [|reflexivity].
        apply String.eqb_eq in E. now apply update_key.
    + change (upsert same_key update insert (target ++ [insert s]) rest
              = map (updated (s :: rest)) target
                ++ map insert (filter (unmatched target) (s :: rest))).
      rewrite (IH _ Hd'). cbn [filter]. rewrite Ex. cbn [negb map].
      rewrite map_app. cbn [map]. rewrite <- app_assoc. cbn [app]. f_equal.
      * apply map_ext_in. intros r Hr. cbn [find].
        now rewrite (existsb_none s target Ex r Hr).
      * rewrite insert_key, find_absent by exact Hn. f_equal. f_equal.
        apply filter_ext_in. intros x Hx. f_equal.
        rewrite existsb_app. cbn [existsb]. rewrite insert_key.
        assert (E : String.eqb (key x) (key s) = false).
        { apply String.eqb_neq. intros E. apply Hn. rewrite <- E.
          now apply in_map. }
        rewrite E. now rewrite !orb_false_r.
Qed.

(** X12.  An upsert whose source has one row per key updates in place
    every target row whose key is in the source, keeps every other target
    row as it is and in its place, and appends, in source order, one
    inserted row for each source row whose key is not in the target. *)
Theorem upsert_closed_form :
  forall target source : list R,
    NoDup (map key source) ->
    upsert same_key update insert target source
    = map (updated source) target
      ++ map insert (filter (unmatched target) source).
Proof. exact upsert_unfolded. Qed.

Lemma upsert_keeps_keys target source k :
  In k (map key target) ->
  In k (map key (upsert same_key update insert target source)).
Proof.
  revert target. induction source as [|s rest IH]; intros target Hk.
  - exact Hk.
  - unfold upsert. cbn [fold_left]. fold (upsert same_key update insert).
    apply IH. destruct (existsb (same_key s) target).
    + rewrite map_map. apply in_map_iff in Hk as (r & <- & Hr).
      apply in_map_iff. exists r. split; [|exact Hr].
      destruct (String.eqb (key s) (key r)) eqn:E; [|reflexivity].
      apply String.eqb_eq in E. now apply update_key.
    + rewrite map_app. apply in_or_app. now left.
Qed.

Lemma key_unique source a b :
  NoDup (map key source) -> In a source -> In b source ->
  key a = key b -> a = b.
Proof.
  induction source as [|s t IH]; simpl; [intros _ []|].
  intros Hd Ha Hb E. inversion Hd as [|? ? Hn Hd']; subst.
  destruct Ha as [<- | Ha], Hb as [<- | Hb]; [reflexivity| | |now apply IH].
  - exfalso. apply Hn. rewrite E. now apply in_map.
  - exfalso. apply Hn. rewrite <- E. now apply in_map.
Qed.

End Keyed.

Lemma upsert_closed_form_witness :
  (forall r s : membership_row,
      m_entity_key s = m_entity_key r ->
      m_entity_key (replace_row r s) = m_entity_key r) /\
  (forall s : membership_row, m_entity_key ((fun r => r) s) = m_entity_key s) /\
  NoDup (map m_entity_key OutputSpec.sample_source) /\
  upsert (fun a b => String.eqb (m_entity_key a) (m_entity_key b))
         replace_row (fun r => r)
         OutputSpec.sample_target OutputSpec.sample_source
  = [ mk_membership "customers:1" "customers:1" 0 "run_0" None;
      mk_membership "customers:2" "customers:1" 5 "run_1" None;
      mk_membership "customers:3" "customers:3" 5 "run_1" None ].
Proof.
  assert (H1 : forall r s : membership_row,
             m_entity_key s = m_entity_key r ->
             m_entity_key (replace_row r s) = m_entity_key r)
    by (intros r s H; exact H).
  assert (H2 : forall s : membership_row,
             m_entity_key ((fun r => r) s) = m_entity_key s)
    by reflexivity.
  assert (H3 : NoDup (map m_entity_key OutputSpec.sample_source)).
  { simpl. repeat constructor; simpl; intuition discriminate. }
  split; [exact H1|]. split; [exact H2|]. split; [exact H3|].
  rewrite (upsert_closed_form membership_row m_entity_key replace_row
             (fun r => r) H1 H2 OutputSpec.sample_target
             OutputSpec.sample_source H3).
  reflexivity.
Defined.

End UpsertFacts.

(* ================================================================== *)
(** ** generate_output: what the output tables hold afterwards *)

Module OutputFacts.
Import Pipe OutputStage UpsertFacts.

Section Replace.
Variable R : Type.
Variable key : R -> string.

Local Abbreviation same_key := (fun a b : R => String.eqb (key a) (key b)).
Local Abbreviation replaced target source :=
  (upsert same_key replace_row (fun r : R => r) target source).

Lemma find_key_some source k s :
  find (fun x => String.eqb (key x) k) source = Some s ->
  In s source /\ key s = k.
Proof.
  intros H. apply find_some in H as [Hin E]. split; [exact Hin|].
  now apply String.eqb_eq.
Qed.

Lemma find_key_none source k :
  find (fun x => String.eqb (key x) k) source = None ->
  ~ In k (map key source).
Proof.
  intros H Hin. apply in_map_iff in Hin as (s & E & Hs).
  pose proof (find_none _ _ H s Hs) as Hf. cbv beta in Hf.
  rewrite E, String.eqb_refl in Hf. discriminate.
Qed.

Lemma replaced_unfolded target source :
  NoDup (map key source) ->
  replaced target source
  = map (fun r => match find (fun s => String.eqb (key s) (key r)) source with
                  | Some s => s
                  | None => r
                  end) target
    ++ filter (fun s => negb (existsb (same_key s) target)) source.
Proof.
  intros Hd.
  rewrite (upsert_unfolded R key replace_row (fun r => r)
             (fun r s E => E) (fun s => eq_refl) target source Hd).
  now rewrite map_id.
Qed.

(** The rows after a replacing upsert: the target rows whose key the
    source does not have, and the source rows. *)
Lemma replaced_rows target source m :
  NoDup (map key source) ->
  In m (replaced target source) <->
  (In m target /\ ~ In (key m) (map key source)) \/ In m source.
Proof.
  intros Hd. rewrite (replaced_unfolded target source Hd), in_app_iff.
  rewrite in_map_iff, filter_In. split.
  - intros [(r & E & Hr) | [Hm _]]; [|now right].
    destruct (find (fun s => String.eqb (key s) (key r)) source) as [s|] eqn:F.
    + subst m. apply find_key_some in F as [Hs _]. now right.
    + subst m. left. split; [exact Hr|]. now apply find_key_none.
  - intros [[Hm Hn] | Hm].
    + left. exists m. split; [|exact Hm].
      now rewrite (find_absent R key (key m) source Hn).
    + destruct (existsb (same_key m) target) eqn:Ex.
      * left. apply existsb_exists in Ex as (r & Hr & E).
        apply String.eqb_eq in E. exists r. split; [|exact Hr].
        destruct (find (fun s => String.eqb (key s) (key r)) source) as [s|] eqn:F.
        -- apply find_key_some in F as [Hs Hk].
           apply (key_unique R key source s m Hd Hs Hm). congruence.
        -- exfalso. apply find_key_none in F. apply F. rewrite <- E.
           now apply in_map.
      * right. split; [exact Hm|reflexivity].
Qed.

(** A replacing upsert invents no row. *)
Lemma replaced_from target source m :
  In m (replaced target source) -> In m target \/ In m source.
Proof.
  revert target. induction source as [|s rest IH]; intros target H.
  - now left.
  - unfold upsert in H. cbn [fold_left] in H.
    fold (upsert same_key (@replace_row R) (fun r : R => r)) in H.
    apply IH in H as [H | H]; [|right; now right].
    destruct (existsb (same_key s) target).
    + apply in_map_iff in H as (r & E & Hr).
      destruct (String.eqb (key s) (key r)).
      * right. left. exact E.
      * left. now subst m.
    + apply in_app_or in H as [H | [H | []]]; [now left|].
      right. now left.
Qed.

(** Keys stay unique. *)
Lemma replaced_keys_unique target source :
  NoDup (map key source) -> NoDup (map key target) ->
  NoDup (map key (replaced target source)).
Proof.
  intros Hs Ht. rewrite (replaced_unfolded target source Hs), map_app.
  assert (Hk : map key
                 (map (fun r => match find (fun s => String.eqb (key s) (key r)) source with
                                | Some s => s
                                | None => r
                                end) target) = map key target).
  { rewrite map_map. apply map_ext. intros r.
    destruct (find (fun s => String.eqb (key s) (key r)) source) as [s|] eqn:F;
      [|reflexivity].
    now apply find_key_some in F as [_ E]. }
  rewrite Hk. clear Hk.
  assert (Hf : forall l, NoDup (map key l) ->
                         NoDup (map key (filter (fun s => negb (existsb (same_key s) target)) l))).
  { induction l as [|a l IH]; simpl; [constructor|]. intros Hd.
    inversion Hd as [|? ? Hn Hd']; subst.
    destruct (negb (existsb (same_key a) target)); [|now apply IH].
    simpl. constructor; [|now apply IH].
    intros Hin. apply Hn. apply in_map_iff in Hin as (x & E & Hx).
    apply filter_In in Hx as [Hx _]. rewrite <- E. now apply in_map. }
  apply NoDup_app; [exact Ht|now apply Hf|].
  intros k Hk1 Hk2. apply in_map_iff in Hk2 as (s & E & Hsf).
  apply filter_In in Hsf as [_ Hex]. apply negb_true_iff in Hex.
  apply in_map_iff in Hk1 as (r & Er & Hr).
  pose proof (existsb_none R key s target Hex r Hr) as Hne.
  apply String.eqb_neq in Hne. congruence.
Qed.

End Replace.

Section Tables.
Variable d : dialect.
Variable run_id : string.
Variable now : Z.
Variable config : RunConfig.
Variable build_profiles : string -> store -> result (option (list unified_profile_row)).

Local Abbreviation output := (generate_output d run_id now config build_profiles).

Ltac run_output :=
  unfold generate_output, bind, execute, get_db, ret, warn; cbv beta iota;
  cbn [db warnings metrics fst snd];
  destruct (is_full config); cbv beta iota; cbn [db warnings metrics fst snd];
  match goal with
  | |- context [build_profiles ?a ?b] =>
      destruct (build_profiles a b) as [[?|]|?]
  end; cbv beta iota; cbn [db warnings metrics fst snd].

Lemma output_returns st : fst (output st) = Ok tt.
Proof. run_output; reflexivity. Qed.

Lemma output_membership st :
  membership (db (snd (output st)))
  = upsert (fun a b => String.eqb (m_entity_key a) (m_entity_key b))
           replace_row (fun r => r)
           (membership (db st)) (membership_source run_id now (db st)).
Proof. run_output; reflexivity. Qed.

Lemma output_edges st :
  edges_current (db (snd (output st)))
  = if is_full config
    then filter (fun e => String.eqb (ce_run_id e) run_id)
                (upsert_edges d run_id now (db st))
    else upsert_edges d run_id now (db st).
Proof. run_output; reflexivity. Qed.

Lemma output_run_state st :
  run_state (db (snd (output st)))
  = upsert (fun a b => String.eqb (rs_table_id a) (rs_table_id b))
           replace_row (fun r => r)
           (run_state (db st)) (run_state_source run_id now (db st)).
Proof. run_output; reflexivity. Qed.

Lemma output_clusters_full st :
  is_full config = true ->
  exists rows,
    clusters (db (snd (output st)))
    = filter (fun c => String.eqb (c_run_id c) run_id) rows.
Proof.
  intros Hf. unfold generate_output, bind, execute, get_db, ret, warn.
  cbv beta iota. cbn [db warnings metrics fst snd]. rewrite Hf.
  cbv beta iota. cbn [db warnings metrics fst snd].
  match goal with
  | |- context [build_profiles ?a ?b] =>
      destruct (build_profiles a b) as [[?|]|?]
  end; cbv beta iota; cbn [db warnings metrics fst snd];
    eexists; reflexivity.
Qed.

End Tables.

End OutputFacts.

Module OutputCorrect.
Import Pipe OutputStage UpsertFacts OutputFacts OutputSpec.

(** In a table keyed by [key], a left join on the key finds at most one
    row. *)
Lemma filter_key_find {B} (key : B -> string) (k : string) (r : list B) :
  NoDup (map key r) ->
  filter (fun b => String.eqb k (key b)) r
  = match find (fun b => String.eqb k (key b)) r with
    | Some b => [b]
    | None => []
    end.
Proof.
  induction r as [|x t IH]; simpl; [reflexivity|]. intros Hd.
  inversion Hd as [|? ? Hn Hd']; subst.
  destruct (String.eqb k (key x)) eqn:E.
  - f_equal. apply SqlFacts.filter_none. intros b Hb.
    apply String.eqb_eq in E. apply String.eqb_neq. intros E'.
    apply Hn. rewrite <- E, E'. now apply in_map.
  - now apply IH.
Qed.

Lemma left_join_unique {A B} (ka : A -> string) (key : B -> string) l r :
  NoDup (map key r) ->
  left_join (fun a b => String.eqb (ka a) (key b)) l r
  = map (fun a => (a, find (fun b => String.eqb (ka a) (key b)) r)) l.
Proof.
  intros Hd. unfold left_join.
  rewrite (flat_map_ext _
             (fun a => [(a, find (fun b => String.eqb (ka a) (key b)) r)])).
  - induction l as [|a t IH]; simpl; [reflexivity|now f_equal].
  - intros a. rewrite (filter_key_find key (ka a) r Hd).
    destruct (find (fun b => String.eqb (ka a) (key b)) r); reflexivity.
Qed.

Lemma membership_source_rows run_id now s :
  NoDup (map fr_resolved_id (fuzzy_results s)) ->
  membership_source run_id now s
  = map (membership_of_label run_id now (fuzzy_results s)) (lp_labels s).
Proof.
  intros Hd. unfold membership_source.
  rewrite (left_join_unique l_label fr_resolved_id (lp_labels s)
             (fuzzy_results s) Hd), map_map.
  reflexivity.
Qed.

Lemma membership_source_keys run_id now s :
  NoDup (map fr_resolved_id (fuzzy_results s)) ->
  map m_entity_key (membership_source run_id now s)
  = map l_entity_key (lp_labels s).
Proof.
  intros Hd. rewrite (membership_source_rows run_id now s Hd), map_map.
  reflexivity.
Qed.

Section Tables.
Variable d : dialect.
Variable run_id : string.
Variable now : Z.
Variable config : RunConfig.
Variable build_profiles : string -> store -> result (option (list unified_profile_row)).

Local Abbreviation output := (generate_output d run_id now config build_profiles).

(** X13.  With one label per entity and one fuzzy result per cluster,
    the membership table after [generate_output] holds, for every label
    row, the row of that entity with the label as resolved id, this run
    and the super cluster of the label, and beside these exactly the
    earlier rows of the entities the run did not label; an entity that
    had one row has one row. *)
Theorem generate_output_membership :
  forall st,
    let after := db (snd (generate_output d run_id now config build_profiles st)) in
    NoDup (map l_entity_key (lp_labels (db st))) ->
    NoDup (map fr_resolved_id (fuzzy_results (db st))) ->
    (forall m,
        In m (membership after) <->
        (In m (membership (db st))
         /\ ~ In (m_entity_key m) (map l_entity_key (lp_labels (db st))))
        \/ exists l, In l (lp_labels (db st))
                     /\ m = membership_of_label run_id now (fuzzy_results (db st)) l)
    /\ (NoDup (map m_entity_key (membership (db st))) ->
        NoDup (map m_entity_key (membership after))).
Proof.
  intros st after Hl Hf. subst after.
  pose proof (membership_source_keys run_id now (db st) Hf) as Hk.
  assert (Hs : NoDup (map m_entity_key (membership_source run_id now (db st))))
    by now rewrite Hk.
  rewrite (output_membership d run_id now config build_profiles st). split.
  - intros m.
    rewrite (replaced_rows membership_row m_entity_key (membership (db st))
               (membership_source run_id now (db st)) m Hs).
    rewrite Hk, (membership_source_rows run_id now (db st) Hf).
    split; (intros [H | H]; [now left|right]).
    + apply in_map_iff in H as (l & E & Hin). exists l. auto.
    + destruct H as (l & Hin & E). apply in_map_iff. exists l. auto.
  - intros Hm.
    now apply (replaced_keys_unique membership_row m_entity_key).
Qed.

(** X14.  After [generate_output] of a FULL run every row of the edge
    table and of the cluster table carries the id of this run, the rows
    of earlier runs being deleted; the membership table is not pruned,
    in any mode: an entity that had a row has one. *)
Theorem generate_output_full_cleanup :
  forall st,
    let after := db (snd (generate_output d run_id now config build_profiles st)) in
    (run_mode config = "FULL" ->
     Forall (fun e => ce_run_id e = run_id) (edges_current after)
     /\ Forall (fun c => c_run_id c = run_id) (clusters after))
    /\ (forall k, In k (map m_entity_key (membership (db st))) ->
                  In k (map m_entity_key (membership after))).
Proof.
  intros st after. subst after. split.
  - intros Hmode.
    assert (Hf : is_full config = true)
      by (unfold is_full; rewrite Hmode; reflexivity).
    split.
    + rewrite (output_edges d run_id now config build_profiles st), Hf.
      apply Forall_forall. intros e He. apply filter_In in He as [_ He].
      now apply String.eqb_eq.
    + destruct (output_clusters_full d run_id now config build_profiles st Hf)
        as [rows ->].
      apply Forall_forall. intros c Hc. apply filter_In in Hc as [_ Hc].
      now apply String.eqb_eq.
  - intros k Hk.
    rewrite (output_membership d run_id now config build_profiles st).
    apply (upsert_keeps_keys membership_row m_entity_key replace_row (fun r => r)
             (fun r s E => E)); exact Hk.
Qed.

Lemma run_state_source_keys s :
  NoDup (map rs_table_id (run_state_source run_id now s)).
Proof.
  unfold run_state_source.
  pose proof (SqlFacts.str_NoDup_distinct (map ed_table_id (entities_delta s))) as Hd.
  induction (Sql.distinct String.eqb (map ed_table_id (entities_delta s)))
    as [|t ts IH]; [constructor|].
  inversion Hd as [|? ? Hn Hd']; subst. cbn [flat_map]. rewrite map_app.
  apply NoDup_app.
  - destruct (Sql.sql_max _); simpl; repeat constructor. intros [].
  - now apply IH.
  - intros k Hk Hin. apply Hn.
    assert (E : k = t).
    { destruct (Sql.sql_max _); simpl in Hk; [|contradiction].
      now destruct Hk as [<- | []]. }
    subst k. apply in_map_iff in Hin as (r & E & Hr).
    apply in_flat_map in Hr as (t' & Ht' & Hr).
    destruct (Sql.sql_max _); simpl in Hr; [|contradiction].
    destruct Hr as [<- | []]. simpl in E. now subst t'.
Qed.

(** X15.  After [generate_output] the watermark table has, for every
    source table with rows in this run's delta, a row with this run's id
    whose watermark is the largest of the table's delta rows; the rows of
    the source tables without delta rows are as before. *)
Theorem generate_output_watermarks :
  forall st,
    let after := db (snd (generate_output d run_id now config build_profiles st)) in
    (forall e, In e (entities_delta (db st)) ->
       exists w,
         In (mk_run_state (ed_table_id e) w run_id now)
            (run_state after)
         /\ (ed_watermark_value e <= w)%Z
         /\ exists e', In e' (entities_delta (db st))
                       /\ ed_table_id e' = ed_table_id e
                       /\ ed_watermark_value e' = w)
    /\ (forall r, In r (run_state (db st)) ->
          ~ In (rs_table_id r) (map ed_table_id (entities_delta (db st))) ->
          In r (run_state after)).
Proof.
  intros st after. subst after.
  rewrite (output_run_state d run_id now config build_profiles st).
  pose proof (run_state_source_keys (db st)) as Hd.
  split.
  - intros e He.
    set (group := filter (fun x => String.eqb (ed_table_id x) (ed_table_id e))
                         (entities_delta (db st))).
    assert (Hg : In e group)
      by (apply filter_In; split; [exact He|apply String.eqb_refl]).
    destruct (Sql.sql_max (map ed_watermark_value group)) as [w|] eqn:Hmax.
    + exists w. apply SqlFacts.sql_max_Some in Hmax as [Hin Hle]. split; [|split].
      * apply (replaced_rows run_state_row rs_table_id (run_state (db st))
                 (run_state_source run_id now (db st)) _ Hd).
        right. unfold run_state_source. apply in_flat_map.
        exists (ed_table_id e). split.
        -- apply SqlFacts.str_distinct_In. now apply in_map.
        -- fold group.
           destruct (Sql.sql_max (map ed_watermark_value group)) as [w'|] eqn:H2.
           ++ apply SqlFacts.sql_max_Some in H2 as [Hin' Hle'].
              assert (w' = w) by (apply Z.le_antisymm; auto). subst w'.
              now left.
           ++ apply SqlFacts.sql_max_None in H2.
              apply map_eq_nil in H2. rewrite H2 in Hg. contradiction.
      * apply Hle. now apply in_map.
      * apply in_map_iff in Hin as (e' & Ew & He').
        apply filter_In in He' as [He' Et]. apply String.eqb_eq in Et.
        exists e'. auto.
    + apply SqlFacts.sql_max_None in Hmax. apply map_eq_nil in Hmax.
      rewrite Hmax in Hg. contradiction.
  - intros r Hr Hn.
    apply (replaced_rows run_state_row rs_table_id (run_state (db st))
             (run_state_source run_id now (db st)) r Hd).
    left. split; [exact Hr|]. intros Hin. apply Hn.
    apply in_map_iff in Hin as (x & E & Hx).
    unfold run_state_source in Hx. apply in_flat_map in Hx as (t & Ht & Hx).
    apply (proj1 (SqlFacts.str_distinct_In _ _)) in Ht.
    destruct (Sql.sql_max _); simpl in Hx; [|contradiction].
    destruct Hx as [<- | []]. simpl in E. now subst t.
Qed.

End Tables.

Lemma generate_output_membership_witness :
  NoDup (map l_entity_key (lp_labels (db (mk_state sample_store [] [])))) /\
  NoDup (map fr_resolved_id (fuzzy_results (db (mk_state sample_store [] [])))) /\
  In (mk_membership "customers:2" "customers:1" 5 "run_1" None)
     (membership
        (db (snd (generate_output duckdb "run_1" 5 RunExamples.full_run
                    RunExamples.build_profiles (mk_state sample_store [] []))))).
Proof.
  assert (H1 : NoDup (map l_entity_key
                          (lp_labels (db (mk_state sample_store [] []))))).
  { simpl. repeat constructor; simpl; intuition discriminate. }
  assert (H2 : NoDup (map fr_resolved_id
                          (fuzzy_results (db (mk_state sample_store [] []))))).
  { simpl. constructor. }
  split; [exact H1|]. split; [exact H2|].
  apply (proj1 (generate_output_membership duckdb "run_1" 5 RunExamples.full_run
                  RunExamples.build_profiles (mk_state sample_store [] []) H1 H2)).
  right. exists (mk_label "customers:2" "customers:1"). split.
  - simpl. auto.
  - reflexivity.
Defined.

End OutputCorrect.

(* ================================================================== *)
(** ** generate_dry_run_output: the summary *)

Module DryRunFacts.
Import Pipe OutputStage.

Lemma count_type_app t a b :
  count_type t (a ++ b) = count_type t a + count_type t b.
Proof. unfold count_type. now rewrite filter_app, length_app. Qed.

Lemma existsb_filter_nil {A} (f : A -> bool) l :
  existsb f l = false <-> filter f l = [].
Proof.
  induction l as [|x t IH]; simpl; [tauto|].
  destruct (f x); simpl; [|exact IH]. split; discriminate.
Qed.

Section Rows.
Variable run_id : string.

Local Abbreviation row := (fun j : label_row * option membership_row =>
  mk_dry_run_result (l_entity_key (fst j)) (option_map m_resolved_id (snd j))
    (l_label (fst j))
    (change_type (option_map m_resolved_id (snd j)) (l_label (fst j))) run_id).

Local Abbreviation has_row membership :=
  (fun l : label_row =>
     existsb (fun m => String.eqb (l_entity_key l) (m_entity_key m)) membership).

(** The rows of one entity: one NEW row, or one MOVED or UNCHANGED row
    for each of its membership rows. *)
Lemma counts_matched l (ms : list membership_row) :
  count_type "NEW" (map row (map (fun b => (l, Some b)) ms)) = 0
  /\ count_type "MOVED" (map row (map (fun b => (l, Some b)) ms))
     + count_type "UNCHANGED" (map row (map (fun b => (l, Some b)) ms))
     = List.length ms.
Proof.
  unfold count_type. induction ms as [|m t [IH1 IH2]]; [split; reflexivity|].
  cbn [map filter fst snd option_map dr_change_type change_type].
  destruct (String.eqb (m_resolved_id m) (l_label l)); cbn [negb];
    cbn [String.eqb Ascii.eqb Bool.eqb andb].
  - cbn [List.length]. split; [exact IH1|]. cbn [List.length] in *. lia.
  - cbn [List.length]. split; [exact IH1|]. cbn [List.length] in *. lia.
Qed.

Lemma dry_run_counts labels membership :
  let rows := map row (left_join (fun lp m => String.eqb (l_entity_key lp) (m_entity_key m))
                                 labels membership) in
  count_type "NEW" rows
  = List.length (filter (fun l => negb (has_row membership l)) labels)
  /\ count_type "NEW" rows + count_type "MOVED" rows + count_type "UNCHANGED" rows
     = List.length rows
  /\ List.length labels <= List.length rows.
Proof.
  cbv zeta. unfold left_join.
  induction labels as [|l t (IH1 & IH2 & IH3)]; [repeat split; reflexivity|].
  cbn [flat_map]. rewrite map_app, !count_type_app, length_app.
  set (rest := map _ (flat_map _ t)) in *. clearbody rest.
  cbn [filter].
  destruct (filter (fun m => String.eqb (l_entity_key l) (m_entity_key m)) membership)
    as [|m ms] eqn:F.
  - rewrite (proj2 (existsb_filter_nil _ _) F). cbn [negb].
    cbn [map List.length]. unfold count_type at 1 3 5 7.
    cbn [filter fst snd option_map dr_change_type change_type String.eqb
         Ascii.eqb Bool.eqb andb List.length].
    repeat split; lia.
  - assert (Hex : has_row membership l = true).
    { destruct (has_row membership l) eqn:Ex; [reflexivity|].
      apply existsb_filter_nil in Ex. rewrite Ex in F. discriminate. }
    rewrite Hex. cbn [negb].
    destruct (counts_matched l (m :: ms)) as [C1 C2].
    rewrite C1, !length_map. cbn [List.length] in *.
    repeat split; lia.
Qed.

End Rows.

(** X16.  [generate_dry_run_output] leaves one summary row, of this run:
    its total is the number of rows of the detail table and the sum of
    the three counts; the NEW count is the number of labelled entities
    without a membership row; the total is at least the number of label
    rows, and equal to it when the membership table has one row per
    entity. *)
Theorem dry_run_summary_counts :
  forall run_id now st,
  exists n m u,
    dry_run_summary (db (snd (generate_dry_run_output run_id now st)))
    = [mk_dry_run_summary run_id n m u (n + m + u) now]
    /\ n + m + u
       = List.length (dry_run_results (db (snd (generate_dry_run_output run_id now st))))
    /\ n = List.length
             (filter (fun l => negb (existsb (fun m => String.eqb (l_entity_key l)
                                                                   (m_entity_key m))
                                             (membership (db st))))
                     (lp_labels (db st)))
    /\ List.length (lp_labels (db st)) <= n + m + u
    /\ (NoDup (map m_entity_key (membership (db st))) ->
        n + m + u = List.length (lp_labels (db st))).
Proof.
  intros run_id now st.
  unfold generate_dry_run_output, bind, execute. cbv beta iota.
  cbn [db snd dry_run_summary dry_run_results Write.set_dry_run_summary
       Write.set_dry_run_results].
  unfold dry_run_summary_rows.
  cbn [dry_run_results Write.set_dry_run_results].
  assert (Hown : filter (fun r => String.eqb (dr_run_id r) run_id)
                        (dry_run_rows run_id (db st))
                 = dry_run_rows run_id (db st)).
  { apply SqlFacts.filter_all. intros r Hr. unfold dry_run_rows in Hr.
    apply in_map_iff in Hr as (j & <- & _). apply String.eqb_refl. }
  rewrite Hown.
  destruct (dry_run_counts run_id (lp_labels (db st)) (membership (db st)))
    as (C1 & C2 & C3).
  fold (dry_run_rows run_id (db st)) in C1, C2, C3.
  exists (count_type "NEW" (dry_run_rows run_id (db st))),
         (count_type "MOVED" (dry_run_rows run_id (db st))),
         (count_type "UNCHANGED" (dry_run_rows run_id (db st))).
  split; [now rewrite C2|]. split; [exact C2|]. split; [exact C1|].
  split; [now rewrite C2|].
  intros Hd. rewrite C2. unfold dry_run_rows.
  rewrite (OutputCorrect.left_join_unique l_entity_key m_entity_key
             (lp_labels (db st)) (membership (db st)) Hd).
  now rewrite !length_map.
Qed.

End DryRunFacts.

(* ================================================================== *)
(** ** compute_confidence_scores: the rows and the least score *)

Module ConfidenceExtra.
Import Confidence ConfidenceFacts.

Lemma filter_key_at_most_one {B} (key : B -> string) (k : string) (r : list B) :
  NoDup (map key r) ->
  filter (fun b => String.eqb (key b) k) r
  = match find (fun b => String.eqb (key b) k) r with
    | Some b => [b]
    | None => []
    end.
Proof.
  induction r as [|x t IH]; simpl; [reflexivity|]. intros Hd.
  inversion Hd as [|? ? Hn Hd']; subst.
  destruct (String.eqb (key x) k) eqn:E.
  - f_equal. apply SqlFacts.filter_none. intros b Hb.
    apply String.eqb_eq in E. apply String.eqb_neq. intros E'.
    apply Hn. rewrite E, <- E'. now apply in_map.
  - now apply IH.
Qed.

Lemma filter_implied {A} (f g : A -> bool) l :
  (forall x, In x l -> f x = true -> g x = true) ->
  filter f (filter g l) = filter f l.
Proof.
  intros H. induction l as [|x t IH]; simpl; [reflexivity|].
  assert (IH' : filter f (filter g t) = filter f t)
    by (apply IH; intros y Hy; apply H; now right).
  destruct (g x) eqn:G; simpl.
  - now rewrite IH'.
  - destruct (f x) eqn:F; [|exact IH'].
    rewrite (H x (or_introl eq_refl) F) in G. discriminate.
Qed.

Lemma edge_stats_keys membership edges impacted_resolved_ids :
  NoDup (map es_resolved_id
             (cluster_edge_stats membership edges impacted_resolved_ids)).
Proof.
  unfold cluster_edge_stats. cbv zeta. rewrite map_map. cbn [es_resolved_id].
  rewrite map_id. apply SqlFacts.str_NoDup_distinct.
Qed.

Lemma cluster_density_keys sizes stats :
  NoDup (map es_resolved_id stats) ->
  map (fun cd => (cd_resolved_id cd, cd_cluster_size cd)) (cluster_density sizes stats)
  = map (fun c => (cs_resolved_id c, cs_cluster_size c)) sizes.
Proof.
  intros Hd. unfold cluster_density.
  induction sizes as [|c t IH]; [reflexivity|].
  cbn [flat_map]. rewrite map_app, IH.
  rewrite (filter_key_at_most_one es_resolved_id (cs_resolved_id c) stats Hd).
  destruct (find (fun b => String.eqb (es_resolved_id b) (cs_resolved_id c)) stats);
    reflexivity.
Qed.

(** X17.  [compute_confidence_scores] scores each impacted cluster that
    has members once: the table has one row for each resolved id of the
    impacted membership rows, in order of first occurrence, and the
    row's cluster size is the number of membership rows of that
    cluster. *)
Theorem confidence_one_row_per_cluster :
  forall (membership : list membership_row) (edges : list current_edge_row)
         (impacted_resolved_ids : list string),
    map (fun r => (cc_resolved_id r, cc_cluster_size r))
        (compute_confidence_scores membership edges impacted_resolved_ids)
    = map (fun rid =>
             (rid,
              List.length
                (filter (fun m => String.eqb (m_resolved_id m) rid) membership)))
          (Sql.distinct String.eqb
             (map m_resolved_id
                  (filter (impacted impacted_resolved_ids) membership)))
    /\ NoDup (map cc_resolved_id
                  (compute_confidence_scores membership edges impacted_resolved_ids)).
Proof.
  intros membership edges ids.
  assert (E : map (fun r => (cc_resolved_id r, cc_cluster_size r))
                  (compute_confidence_scores membership edges ids)
              = map (fun rid =>
                       (rid,
                        List.length
                          (filter (fun m => String.eqb (m_resolved_id m) rid)
                                  membership)))
                    (Sql.distinct String.eqb
                       (map m_resolved_id (filter (impacted ids) membership)))).
  { unfold compute_confidence_scores, cluster_confidence. cbv zeta.
    rewrite map_map. cbn [cc_resolved_id cc_cluster_size].
    rewrite (cluster_density_keys _ _ (edge_stats_keys membership edges ids)).
    unfold cluster_sizes_updates. cbv zeta. rewrite map_map.
    cbn [cs_resolved_id cs_cluster_size].
    apply map_ext_in. intros rid Hrid. f_equal. f_equal.
    apply filter_implied. intros m _ Hm. apply String.eqb_eq in Hm.
    apply (proj1 (SqlFacts.str_distinct_In _ _)) in Hrid.
    apply in_map_iff in Hrid as (m' & E' & Hm').
    apply filter_In in Hm' as [_ Himp]. unfold impacted in *.
    now rewrite Hm, <- E'. }
  split; [exact E|].
  assert (K : map cc_resolved_id (compute_confidence_scores membership edges ids)
              = map fst (map (fun r => (cc_resolved_id r, cc_cluster_size r))
                             (compute_confidence_scores membership edges ids)))
    by (rewrite map_map; reflexivity).
  rewrite K, E, map_map. cbn [fst]. rewrite map_id.
  apply SqlFacts.str_NoDup_distinct.
Qed.



End ConfidenceExtra.

(* ================================================================== *)
(** ** Preflight: when it lets a run start *)

Module PreflightExtra.
Import Pipe Preflight RunSpec RunnerSteps.

Lemma after_reclaim_sources now s :
  source_table (after_reclaim now s) = source_table s.
Proof.
  unfold after_reclaim, ensure_schema_upgrades.
  destruct (table_columns s "idr_out.run_history"); [|reflexivity].
  destruct (existsb _ _); reflexivity.
Qed.

Lemma after_reclaim_tables now s t :
  table_exists (after_reclaim now s) t = table_exists s t.
Proof.
  unfold table_exists, after_reclaim, ensure_schema_upgrades.
  destruct (table_columns s "idr_out.run_history"); [|reflexivity].
  destruct (existsb (String.eqb "config_hash") _); reflexivity.
Qed.

Lemma filter_nonempty {A} (f : A -> bool) l :
  filter f l <> [] <-> exists x, In x l /\ f x = true.
Proof.
  split.
  - destruct (filter f l) as [|x t] eqn:E; [congruence|]. intros _.
    exists x. apply filter_In. rewrite E. now left.
  - intros (x & Hx & Hf) E.
    assert (Hin : In x (filter f l)) by (apply filter_In; auto).
    rewrite E in Hin. contradiction.
Qed.

(** X19.  Preflight lets a run start exactly when, after the stale runs
    are reclaimed, no run is RUNNING, at least one source table is
    active, and every active source table exists. *)
Theorem preflight_succeeds_iff :
  forall now st,
    fst (Preflight.run now st) = Ok tt <->
    live_runs now (run_history (db st)) = []
    /\ (exists src, In src (source_table (db st)) /\ st_is_active src = true)
    /\ (forall src, In src (source_table (db st)) -> st_is_active src = true ->
                    table_exists (db st) (st_table_fqn src) = true).
Proof.
  intros now st.
  destruct (live_runs now (run_history (db st))) as [|other rest] eqn:Hlive.
  2:{ rewrite (preflight_refuses now st other rest Hlive). cbn [fst].
      split; [discriminate|]. intros [H _]. discriminate. }
  assert (Hrun : filter is_running (run_history (after_reclaim now (db st))) = []).
  { unfold after_reclaim. cbn [run_history Write.set_run_history].
    rewrite running_after_reclaim. exact Hlive. }
  cbv beta iota zeta delta [Preflight.run bind execute get_db].
  cbn [db warnings metrics].
  rewrite ensure_schema_upgrades_history.
  fold (after_reclaim now (db st)).
  rewrite Hrun, after_reclaim_sources.
  pose proof (filter_nonempty st_is_active (source_table (db st))) as Hne.
  destruct (filter st_is_active (source_table (db st))) as [|src0 srcs] eqn:Eact.
  { cbn. split; [discriminate|]. intros (_ & Hex & _).
    exfalso. now apply (proj2 Hne). }
  assert (Hsome : exists src, In src (source_table (db st)) /\ st_is_active src = true)
    by (apply Hne; discriminate).
  match goal with
  | |- context [find ?f ?l] => destruct (find f l) as [src|] eqn:Efind
  end.
  - cbn. split; [discriminate|]. intros (_ & _ & Hall). exfalso.
    apply find_some in Efind as [Hin Hnot]. rewrite <- Eact in Hin.
    apply filter_In in Hin as [Hin Hact]. apply negb_true_iff in Hnot.
    rewrite after_reclaim_tables in Hnot. rewrite (Hall src Hin Hact) in Hnot.
    discriminate.
  - assert (Hall : forall src, In src (source_table (db st)) ->
                               st_is_active src = true ->
                               table_exists (db st) (st_table_fqn src) = true).
    { intros src Hin Hact.
      assert (Hf : In src (src0 :: srcs))
        by (rewrite <- Eact; apply filter_In; auto).
      pose proof (find_none _ _ Efind src Hf) as Hn. cbv beta in Hn.
      apply negb_false_iff in Hn. now rewrite after_reclaim_tables in Hn. }
    match goal with
    | |- context [warn_all ?msgs] => set (msgs0 := msgs)
    end.
    destruct (List.length (filter r_is_active (rule (after_reclaim now (db st)))) =? 0).
    + unfold warn at 1. cbv beta iota.
      match goal with
      | |- context [warn_all msgs0 ?s0] =>
          destruct (warn_all_returns msgs0 s0) as (st' & E & Hdb)
      end.
      rewrite E. cbn [fst]. split; auto.
    + unfold ret at 1. cbv beta iota.
      match goal with
      | |- context [warn_all msgs0 ?s0] =>
          destruct (warn_all_returns msgs0 s0) as (st' & E & Hdb)
      end.
      rewrite E. cbn [fst]. split; auto.
Qed.

(** X20.  Reclaiming stale runs twice, the second time no earlier than
    the first, is reclaiming once at the later time: a reclaimed run is
    INTERRUPTED and is not touched again, and a run that was stale stays
    stale. *)
Theorem reclaim_stale_later :
  forall now now' history,
    (now <= now')%Z ->
    reclaim_stale now' (reclaim_stale now history) = reclaim_stale now' history.
Proof.
  intros now now' history Hle. unfold reclaim_stale. rewrite map_map.
  apply map_ext. intros r.
  destruct (is_running r) eqn:Er; cbn [andb].
  - destruct (time_filter now r) eqn:Et.
    + rewrite interrupted_not_running. cbn [andb].
      assert (Et' : time_filter now' r = true).
      { unfold time_filter in *. apply Z.ltb_lt in Et. apply Z.ltb_lt. lia. }
      now rewrite Et'.
    + now rewrite Er.
  - now rewrite Er.
Qed.

Lemma reclaim_stale_later_witness :
  (RunExamples.noon <= RunExamples.noon + 1)%Z /\
  reclaim_stale (RunExamples.noon + 1)
    (reclaim_stale RunExamples.noon
       [RunExamples.one_hour_ago; RunExamples.five_hours_ago;
        RunExamples.four_hours_ago])
  = reclaim_stale (RunExamples.noon + 1)
      [RunExamples.one_hour_ago; RunExamples.five_hours_ago;
       RunExamples.four_hours_ago].
Proof.
  assert (H : (RunExamples.noon <= RunExamples.noon + 1)%Z) by lia.
  split; [exact H|].
  exact (reclaim_stale_later RunExamples.noon (RunExamples.noon + 1)
           [RunExamples.one_hour_ago; RunExamples.five_hours_ago;
            RunExamples.four_hours_ago] H).
Defined.

End PreflightExtra.

(* ================================================================== *)
(** ** The runner: stages, the result and the run history *)

Module RunnerExtra.
Import Pipe RunSpec PipeFacts RunnerFacts RunnerSteps RunnerCorrect.
Import Preflight Runner.

Local Abbreviation LF := (ascii_of_nat 10).
Local Abbreviation CR := (ascii_of_nat 13).

Lemma error_safe_fixed error :
  contains_char "'" error = false ->
  contains_char LF error = false ->
  contains_char CR error = false ->
  error_safe error = error.
Proof.
  induction error as [|c t IH]; [reflexivity|].
  cbn [contains_char error_safe]. intros H1 H2 H3.
  apply orb_false_iff in H1 as [E1 H1]. apply orb_false_iff in H2 as [E2 H2].
  apply orb_false_iff in H3 as [E3 H3].
  rewrite E1, E2, E3. f_equal. now apply IH.
Qed.

(** X21.  The error text the run history stores has no single quote, no
    newline and no carriage return, whatever the error was; escaping it
    again changes nothing. *)
Theorem error_safe_clean :
  forall error,
    contains_char "'" (error_safe error) = false
    /\ contains_char LF (error_safe error) = false
    /\ contains_char CR (error_safe error) = false
    /\ error_safe (error_safe error) = error_safe error.
Proof.
  intros error.
  assert (H : contains_char "'" (error_safe error) = false
              /\ contains_char LF (error_safe error) = false
              /\ contains_char CR (error_safe error) = false).
  { induction error as [|c t (IH1 & IH2 & IH3)]; [repeat split|].
    cbn [error_safe].
    destruct (Ascii.eqb c "'") eqn:E1;
      [cbn [contains_char]; rewrite IH1, IH2, IH3; repeat split|].
    destruct (Ascii.eqb c LF) eqn:E2;
      [cbn [contains_char]; rewrite IH1, IH2, IH3; repeat split|].
    destruct (Ascii.eqb c CR) eqn:E3; [auto|].
    cbn [contains_char]. rewrite E1, E2, E3, IH1, IH2, IH3. repeat split. }
  destruct H as (H1 & H2 & H3). repeat split; try assumption.
  now apply error_safe_fixed.
Qed.

Lemma end_first_closed now name rows ms :
  (forall m, In m ms -> stage_name m = name -> ended_at m <> None) ->
  end_first now name rows ms = ms.
Proof.
  induction ms as [|m t IH]; [reflexivity|]. intros H. cbn [end_first].
  destruct (String.eqb (stage_name m) name) eqn:E.
  - apply String.eqb_eq in E.
    pose proof (H m (or_introl eq_refl) E) as Hm.
    destruct (ended_at m); [|congruence]. cbn [andb]. f_equal.
    apply IH. intros x Hx. apply H. now right.
  - cbn [andb]. f_equal. apply IH. intros x Hx. apply H. now right.
Qed.

(** X22.  A stage that is started and then ended leaves one metric, at
    the end of the list, with its start, its end and its row count;
    ending a stage that is not open leaves the metrics as they are. *)
Theorem stage_metric_round_trip :
  forall now now' name rows st,
    metrics (snd ((start_stage now name ;;; end_stage now' name rows) st))
    = metrics st ++ [mk_StageMetric name now (Some now') rows]
    /\ ((forall m, In m (metrics st) -> stage_name m = name -> ended_at m <> None) ->
        metrics (snd (end_stage now' name rows st)) = metrics st).
Proof.
  intros now now' name rows st. split.
  - unfold start_stage, end_stage, update_metrics, bind. cbn [snd metrics].
    rewrite rev_app_distr. cbn [rev app end_first stage_name ended_at].
    rewrite String.eqb_refl. cbn [andb rev started_at].
    now rewrite rev_involutive.
  - intros H. unfold end_stage, update_metrics. cbn [snd metrics].
    rewrite end_first_closed; [apply rev_involutive|].
    intros m Hm. apply H. now apply in_rev.
Qed.

Section RunExtra.
Variable d : dialect.
Variable now : Z.
Variable uuid_hex : string.
Variable select_entities : string -> string -> store -> result (list entity_delta_row).
Variable select_identifiers : string -> store -> result (list identifier_row).
Variable select_attributes : store -> result (option (list entity_attribute_row)).
Variable run_fuzzy_matching :
  nat -> store -> result (list fuzzy_result_row * list string * nat).
Variable build_profiles : string -> store -> result (option (list unified_profile_row)).
Variable config_digest : store -> option string.
Variable config : RunConfig.

Local Abbreviation the_run_id := (Runner.run_id uuid_hex config).
Local Abbreviation the_output_step :=
  (Runner.output_step d now uuid_hex build_profiles config).
Local Abbreviation the_pipeline :=
  (Runner.pipeline d now uuid_hex select_entities select_identifiers
                   select_attributes run_fuzzy_matching build_profiles config).
Local Abbreviation the_try_body :=
  (Runner.try_body d now uuid_hex select_entities select_identifiers
                   select_attributes run_fuzzy_matching build_profiles
                   config_digest config).
Local Abbreviation the_run :=
  (Runner.run d now uuid_hex select_entities select_identifiers
              select_attributes run_fuzzy_matching build_profiles
              config_digest config).

(** How the steps can end. *)
Local Abbreviation quiet c :=
  (cp_status c = "SUCCESS_NO_CHANGES" /\ cp_entities c = 0 /\ cp_identifiers c = 0
   /\ cp_edges c = 0 /\ cp_clusters c = 0 /\ cp_iterations c = 0).
Local Abbreviation worked c :=
  (cp_entities c <> 0
   /\ ((cp_status c = "SUCCESS" /\ dry_run config = false)
       \/ (cp_status c = "DRY_RUN_COMPLETE" /\ dry_run config = true))).

Lemma output_step_status :
  ensures the_output_step
          (fun status _ =>
             (status = "SUCCESS" /\ dry_run config = false)
             \/ (status = "DRY_RUN_COMPLETE" /\ dry_run config = true)).
Proof.
  unfold Runner.output_step. destruct (dry_run config); cbn [negb];
    do 3 (apply ensures_bind; intros ?); apply ensures_ret; auto.
Qed.

Lemma pipeline_outcome st c st' :
  the_pipeline st = (Ok c, st') ->
  (quiet c /\ work_only (db st) (db st')) \/ worked c.
Proof.
  unfold Runner.pipeline. intros H.
  unfold bind at 1 in H.
  pose proof (keeps_start_stage now "entity_extraction" st) as K1.
  destruct (start_stage now "entity_extraction" st) as [[[]|e1] st1];
    [|discriminate].
  unfold bind at 1 in H.
  pose proof (keeps_extract_entities uuid_hex select_entities config st1) as K2.
  destruct (extract_entities uuid_hex select_entities config st1)
    as [[n|e2] st2]; [|discriminate].
  unfold bind at 1 in H.
  pose proof (keeps_end_stage now "entity_extraction" n st2) as K3.
  destruct (end_stage now "entity_extraction" n st2) as [[[]|e3] st3];
    [|discriminate].
  cbn [snd] in K1, K2, K3.
  destruct (n =? 0) eqn:En.
  - injection H as <- <-. left. split; [repeat split|].
    exact (work_only_trans _ _ _ (work_only_trans _ _ _ K1 K2) K3).
  - right. apply Nat.eqb_neq in En. revert H.
    match goal with
    | |- ?m st3 = _ -> _ =>
        assert (T : ensures m (fun c _ => worked c /\ cp_entities c = n))
    end.
    { do 13 (apply ensures_bind; intros ?).
      apply ensures_bind_with with (1 := output_step_status).
      intros status stx cx stx' Hst [= <- <-]. cbn [cp_entities cp_status].
      auto. }
    intros H. exact (proj1 (T st3 c st' H)).
Qed.

Lemma try_body_outcome s c st :
  the_try_body (mk_state s [] []) = (Ok c, st) ->
  (quiet c /\ production_unchanged s (db st)) \/ worked c.
Proof.
  unfold Runner.try_body. intros H.
  unfold bind at 1 in H.
  pose proof (keeps_start_stage now "preflight" (mk_state s [] [])) as K1.
  destruct (start_stage now "preflight" (mk_state s [] [])) as [[[]|e1] st1];
    [|discriminate].
  unfold bind at 1 in H.
  pose proof (keeps_preflight now st1) as K2.
  destruct (Preflight.run now st1) as [[[]|e2] st2]; [|discriminate].
  unfold bind at 1 in H.
  pose proof (keeps_end_stage now "preflight" 0 st2) as K3.
  destruct (end_stage now "preflight" 0 st2) as [[[]|e3] st3]; [|discriminate].
  unfold bind at 1 in H.
  pose proof (keeps_record_run_start_production now uuid_hex config_digest
                config st3) as K4.
  destruct (record_run_start now uuid_hex config_digest config st3)
    as [[[]|e4] st4]; [|discriminate].
  cbn [snd db] in K1, K2, K3, K4.
  destruct (pipeline_outcome st4 c st H) as [[Hq K5] | Hw]; [left|now right].
  split; [exact Hq|].
  apply work_only_production in K1, K3, K5.
  eauto using production_unchanged_trans.
Qed.

(** X23.  What a run returns hangs together.  It carries the run's id;
    its status is FAILED exactly when it carries an error, and then all
    its counts are zero; SUCCESS_NO_CHANGES comes with zero counts;
    SUCCESS comes only from a run that is not a dry run and
    DRY_RUN_COMPLETE only from a dry run, both with entities
    processed. *)
Theorem run_result_coherent :
  forall s,
    let out := fst (Runner.run d now uuid_hex select_entities select_identifiers
                               select_attributes run_fuzzy_matching build_profiles
                               config_digest config s) in
    result_run_id out = Runner.run_id uuid_hex config
    /\ ((status out = "FAILED"
         /\ error out <> None
         /\ entities_processed out = 0
         /\ identifiers_extracted out = 0
         /\ edges_created out = 0
         /\ clusters_impacted out = 0
         /\ lp_iterations out = 0)
        \/ (error out = None
            /\ ((status out = "SUCCESS_NO_CHANGES"
                 /\ entities_processed out = 0
                 /\ identifiers_extracted out = 0
                 /\ edges_created out = 0
                 /\ clusters_impacted out = 0
                 /\ lp_iterations out = 0)
                \/ (entities_processed out <> 0
                    /\ ((status out = "SUCCESS" /\ dry_run config = false)
                        \/ (status out = "DRY_RUN_COMPLETE"
                            /\ dry_run config = true)))))).
Proof.
  intros s out. subst out. unfold Runner.run.
  pose proof (try_body_outcome s) as H.
  destruct (the_try_body (mk_state s [] [])) as [[c|e] st].
  - cbn [fst complete_run result_run_id status error entities_processed
         identifiers_extracted edges_created clusters_impacted lp_iterations].
    split; [reflexivity|]. right. split; [reflexivity|].
    destruct (H c st eq_refl) as [[Hq _] | Hw]; [left|right]; tauto.
  - cbn [fst complete_run result_run_id status error entities_processed
         identifiers_extracted edges_created clusters_impacted lp_iterations
         cp_status cp_entities cp_identifiers cp_edges cp_clusters cp_iterations].
    split; [reflexivity|]. left. repeat split. discriminate.
Qed.

(** X24.  A run that ends SUCCESS_NO_CHANGES, dry or not, has left the
    production tables as they were: the output step is not reached, and
    with it neither the upserts nor the cleanup of a FULL run. *)
Theorem run_without_changes :
  forall s,
    status (fst (Runner.run d now uuid_hex select_entities select_identifiers
                            select_attributes run_fuzzy_matching build_profiles
                            config_digest config s))
    = "SUCCESS_NO_CHANGES" ->
    production_unchanged
      s (snd (Runner.run d now uuid_hex select_entities select_identifiers
                         select_attributes run_fuzzy_matching build_profiles
                         config_digest config s)).
Proof.
  intros s. unfold Runner.run.
  pose proof (try_body_outcome s) as H.
  destruct (the_try_body (mk_state s [] [])) as [[c|e] st].
  - cbn [fst complete_run status]. intros Hs.
    destruct (H c st eq_refl) as [[_ Hp] | (_ & [[E _] | [E _]])].
    + eapply production_unchanged_trans; [exact Hp|].
      apply complete_run_production.
    + rewrite Hs in E. discriminate.
    + rewrite Hs in E. discriminate.
  - cbn [fst complete_run status cp_status]. discriminate.
Qed.

(** X25.  The run history agrees with what the run returns: every row
    of the run's id has the returned status and counts, and the returned
    error text, escaped, when there is one. *)
Theorem run_history_agrees_with_result :
  forall s row,
    let out := Runner.run d now uuid_hex select_entities select_identifiers
                          select_attributes run_fuzzy_matching build_profiles
                          config_digest config s in
    In row (run_history (snd out)) ->
    rh_run_id row = Runner.run_id uuid_hex config ->
    rh_status row = status (fst out)
    /\ rh_entities_processed row = Some (entities_processed (fst out))
    /\ rh_edges_created row = Some (edges_created (fst out))
    /\ rh_clusters_impacted row = Some (clusters_impacted (fst out))
    /\ rh_lp_iterations row = Some (lp_iterations (fst out))
    /\ (forall text, error (fst out) = Some text -> text <> EmptyString ->
                     rh_error_message row = Some (error_safe text)).
Proof.
  intros s row out. subst out. unfold Runner.run.
  destruct (the_try_body (mk_state s [] [])) as [[c|e] st];
    cbn [fst snd complete_run run_history Write.set_stage_metrics
         Write.set_run_history status error entities_processed edges_created
         clusters_impacted lp_iterations];
    intros Hin Hid; apply in_map_iff in Hin as (r & <- & _);
    unfold finish_row in *;
    destruct (String.eqb (rh_run_id r) the_run_id) eqn:E;
    try (apply String.eqb_neq in E; contradiction);
    cbn [rh_status rh_entities_processed rh_edges_created rh_clusters_impacted
         rh_lp_iterations rh_error_message];
    repeat (split; [reflexivity|]).
  - intros text [=].
  - intros text [= <-] Hne.
    destruct (String.eqb (exn_message e) "") eqn:Em; [|reflexivity].
    apply String.eqb_eq in Em. contradiction.
Qed.

(** The membership rows a strict run may leave: the earlier ones, and
    rows of this run without a super cluster. *)
Local Abbreviation unclustered s s' :=
  (forall m, In m (membership s') ->
             In m (membership s)
             \/ (m_super_cluster_id m = None /\ m_run_id m = the_run_id)).

Lemma unclustered_refl (s : store) : unclustered s s.
Proof. intros m Hm. now left. Qed.

Lemma unclustered_trans (s1 s2 s3 : store) :
  unclustered s1 s2 -> unclustered s2 s3 -> unclustered s1 s3.
Proof.
  intros H12 H23 m Hm. destruct (H23 m Hm) as [H | H]; [|now right].
  exact (H12 m H).
Qed.

Lemma production_unclustered (s s' : store) :
  production_unchanged s s' -> unclustered s s'.
Proof. intros (E & _) m Hm. left. now rewrite <- E. Qed.

Lemma work_only_unclustered (s s' : store) :
  work_only s s' -> unclustered s s'.
Proof. intros [H _]. now apply production_unclustered. Qed.

Lemma membership_source_unclustered s m :
  fuzzy_results s = [] ->
  In m (OutputStage.membership_source the_run_id now s) ->
  m_super_cluster_id m = None /\ m_run_id m = the_run_id.
Proof.
  unfold OutputStage.membership_source. intros E H.
  apply in_map_iff in H as ([l fr] & <- & H).
  apply in_left_join in H as [_ H]. rewrite E in H.
  destruct fr as [fr|]; [destruct H as [[] _]|]. split; reflexivity.
Qed.

Lemma strict_tail (k : string -> M completion) :
  strict config = true ->
  (forall status, keeps (fun s s' => unclustered s s') (k status)) ->
  keeps (fun s s' => unclustered s s')
        (Runner.fuzzy_step now run_fuzzy_matching config ;;;
         status <- the_output_step ;; k status).
Proof.
  intros Hstrict Hk st. unfold Runner.fuzzy_step. rewrite Hstrict.
  unfold bind at 1. unfold bind at 1. unfold warn at 1. unfold execute at 1.
  cbv beta iota. cbn [db warnings metrics].
  set (st1 := mk_state (Write.set_fuzzy_results [] (db st))
                       (warnings st ++ ["Fuzzy matching skipped (--strict mode)"])
                       (metrics st)).
  assert (H1 : membership (db st1) = membership (db st)) by reflexivity.
  assert (F1 : fuzzy_results (db st1) = []) by reflexivity.
  clearbody st1.
  assert (Hout : forall status st2,
             the_output_step st1 = (Ok status, st2) ->
             unclustered (db st1) (db st2)).
  { unfold Runner.output_step. destruct (dry_run config) eqn:Hdry; cbn [negb].
    - intros status st2 H.
      pose proof (keeps_output_step_dry d now uuid_hex build_profiles config
                    Hdry st1) as K.
      unfold Runner.output_step in K. rewrite Hdry in K. cbn [negb] in K.
      rewrite H in K. cbn [snd] in K. now apply work_only_unclustered.
    - unfold bind, start_stage, end_stage, update_metrics, ret.
      cbv beta iota. cbn [db warnings metrics].
      set (st1' := mk_state (db st1) (warnings st1)
                            (metrics st1
                             ++ [mk_StageMetric "output_generation" now None 0])).
      pose proof (OutputFacts.output_membership d the_run_id now config
                    build_profiles st1') as Hm.
      destruct (OutputStage.generate_output d the_run_id now config
                                            build_profiles st1')
        as [[[]|e] st3]; [|discriminate].
      cbn [snd] in Hm. intros status st2 [= _ <-]. cbn [db].
      intros m Hin. rewrite Hm in Hin.
      apply (OutputFacts.replaced_from membership_row m_entity_key) in Hin
        as [Hin | Hin]; [now left|].
      right. apply (membership_source_unclustered (db st1') m F1 Hin). }
  unfold bind at 1.
  destruct (the_output_step st1) as [[status|e] st2] eqn:Eout.
  - cbv beta iota. pose proof (Hk status st2) as K2.
    intros m Hm. destruct (K2 m Hm) as [Hin | Hn]; [|now right].
    destruct (Hout status st2 eq_refl m Hin) as [Hin' | Hn]; [|now right].
    left. now rewrite <- H1.
  - cbv beta iota. cbn [snd].
    pose proof (keeps_output_step_history d now uuid_hex build_profiles config st1)
      as _.
    assert (Hraise : unclustered (db st1) (db st2)).
    { revert Eout. unfold Runner.output_step.
      destruct (dry_run config) eqn:Hdry; cbn [negb].
      - intros H.
        pose proof (keeps_output_step_dry d now uuid_hex build_profiles config
                      Hdry st1) as K.
        unfold Runner.output_step in K. rewrite Hdry in K. cbn [negb] in K.
        rewrite H in K. cbn [snd] in K. now apply work_only_unclustered.
      - unfold bind, start_stage, end_stage, update_metrics, ret.
        cbv beta iota. cbn [db warnings metrics].
        match goal with
        | |- context [OutputStage.generate_output ?a ?b ?c ?e ?f ?g] =>
            pose proof (OutputFacts.output_returns a b c e f g) as Hr;
            destruct (OutputStage.generate_output a b c e f g) as [[[]|e'] st3]
        end; [discriminate|cbn [fst] in Hr; discriminate]. }
    intros m Hm. destruct (Hraise m Hm) as [Hin | Hn]; [|now right].
    left. now rewrite <- H1.
Qed.

Lemma keeps_pipeline_strict :
  strict config = true -> keeps (fun s s' => unclustered s s') the_pipeline.
Proof.
  intros Hstrict. unfold Runner.pipeline.
  repeat first
    [ match goal with
      | |- keeps _ (Runner.fuzzy_step _ _ _ ;;; _) =>
          apply (strict_tail _ Hstrict); intros ?
      end
    | apply (keeps_weaken work_only _ _ work_only_unclustered);
      first [ apply keeps_start_stage | apply keeps_end_stage
            | apply keeps_extract_entities | apply keeps_extract_identifiers
            | apply keeps_extract_attributes | apply keeps_build_edges
            | apply keeps_label_propagation ]
    | apply (keeps_ret _ unclustered_refl)
    | apply (keeps_bind _ unclustered_trans); [|intros ?]
    | match goal with
      | |- keeps _ (if ?x then _ else _) => destruct x
      end ].
Qed.

(** X26.  A strict run assigns no super cluster: every membership row
    it leaves is a row that was there before, or a row of this run
    without a super cluster id. *)
Theorem strict_run_assigns_no_super_cluster :
  forall s m,
    strict config = true ->
    In m (membership
            (snd (Runner.run d now uuid_hex select_entities select_identifiers
                             select_attributes run_fuzzy_matching build_profiles
                             config_digest config s))) ->
    In m (membership s)
    \/ (m_super_cluster_id m = None
        /\ m_run_id m = Runner.run_id uuid_hex config).
Proof.
  intros s m Hstrict.
  assert (K : keeps (fun s s' => unclustered s s') the_try_body).
  { unfold Runner.try_body.
    apply (keeps_bind _ unclustered_trans);
      [apply (keeps_weaken work_only _ _ work_only_unclustered), keeps_start_stage|].
    intros _. apply (keeps_bind _ unclustered_trans);
      [apply (keeps_weaken production_unchanged _ _ production_unclustered),
         keeps_preflight|].
    intros _. apply (keeps_bind _ unclustered_trans);
      [apply (keeps_weaken work_only _ _ work_only_unclustered), keeps_end_stage|].
    intros _. apply (keeps_bind _ unclustered_trans);
      [apply (keeps_weaken production_unchanged _ _ production_unclustered),
         keeps_record_run_start_production|].
    intros _. now apply keeps_pipeline_strict. }
  specialize (K (mk_state s [] [])). cbn [db] in K. unfold Runner.run.
  destruct (the_try_body (mk_state s [] [])) as [[c|e] st]; cbn [snd] in K;
    cbn [snd complete_run membership Write.set_stage_metrics
         Write.set_run_history]; apply K.
Qed.

End RunExtra.

Lemma strict_run_assigns_no_super_cluster_witness :
  strict (mk_RunConfig "FULL" 30 false true) = true
  /\ In (mk_membership "customers:2" "customers:1" RunExamples.noon
                        "run_0123456789ab" None)
        (membership
           (snd (Runner.run duckdb RunExamples.noon RunExamples.uuid_hex
                   RunExamples.select_entities RunExamples.select_identifiers
                   RunExamples.select_attributes RunExamples.run_fuzzy_matching
                   RunExamples.build_profiles RunExamples.config_digest
                   (mk_RunConfig "FULL" 30 false true)
                   (RunExamples.warehouse []))))
  /\ (In (mk_membership "customers:2" "customers:1" RunExamples.noon
                         "run_0123456789ab" None)
         (membership (RunExamples.warehouse []))
      \/ (m_super_cluster_id
            (mk_membership "customers:2" "customers:1" RunExamples.noon
                           "run_0123456789ab" None) = None
          /\ m_run_id
               (mk_membership "customers:2" "customers:1" RunExamples.noon
                              "run_0123456789ab" None)
             = Runner.run_id RunExamples.uuid_hex
                             (mk_RunConfig "FULL" 30 false true))).
Proof.
  assert (H1 : strict (mk_RunConfig "FULL" 30 false true) = true) by reflexivity.
  assert (H2 : In (mk_membership "customers:2" "customers:1" RunExamples.noon
                                 "run_0123456789ab" None)
                  (membership
                     (snd (Runner.run duckdb RunExamples.noon RunExamples.uuid_hex
                             RunExamples.select_entities
                             RunExamples.select_identifiers
                             RunExamples.select_attributes
                             RunExamples.run_fuzzy_matching
                             RunExamples.build_profiles RunExamples.config_digest
                             (mk_RunConfig "FULL" 30 false true)
                             (RunExamples.warehouse []))))).
  { vm_compute. auto. }
  split; [exact H1|]. split; [exact H2|].
  exact (strict_run_assigns_no_super_cluster duckdb RunExamples.noon
           RunExamples.uuid_hex RunExamples.select_entities
           RunExamples.select_identifiers RunExamples.select_attributes
           RunExamples.run_fuzzy_matching RunExamples.build_profiles
           RunExamples.config_digest (mk_RunConfig "FULL" 30 false true)
           (RunExamples.warehouse []) _ H1 H2).
Defined.

Lemma run_history_agrees_with_result_witness :
  In (mk_run_history "run_0123456789ab" "FULL" "SUCCESS" RunExamples.noon
                     RunExamples.noon 0 (Some "0123456789abcdef") (Some 0%Z)
                     (Some 3) (Some 1) (Some 2) (Some 2) None)
     (run_history
        (snd (Runner.run duckdb RunExamples.noon RunExamples.uuid_hex
                RunExamples.select_entities RunExamples.select_identifiers
                RunExamples.select_attributes RunExamples.run_fuzzy_matching
                RunExamples.build_profiles RunExamples.config_digest
                RunExamples.full_run (RunExamples.warehouse []))))
  /\ rh_run_id
       (mk_run_history "run_0123456789ab" "FULL" "SUCCESS" RunExamples.noon
                       RunExamples.noon 0 (Some "0123456789abcdef") (Some 0%Z)
                       (Some 3) (Some 1) (Some 2) (Some 2) None)
     = Runner.run_id RunExamples.uuid_hex RunExamples.full_run
  /\ rh_status
       (mk_run_history "run_0123456789ab" "FULL" "SUCCESS" RunExamples.noon
                       RunExamples.noon 0 (Some "0123456789abcdef") (Some 0%Z)
                       (Some 3) (Some 1) (Some 2) (Some 2) None)
     = status
         (fst (Runner.run duckdb RunExamples.noon RunExamples.uuid_hex
                 RunExamples.select_entities RunExamples.select_identifiers
                 RunExamples.select_attributes RunExamples.run_fuzzy_matching
                 RunExamples.build_profiles RunExamples.config_digest
                 RunExamples.full_run (RunExamples.warehouse []))).
Proof.
  assert (H1 : In (mk_run_history "run_0123456789ab" "FULL" "SUCCESS"
                     RunExamples.noon RunExamples.noon 0
                     (Some "0123456789abcdef") (Some 0%Z)
                     (Some 3) (Some 1) (Some 2) (Some 2) None)
                  (run_history
                     (snd (Runner.run duckdb RunExamples.noon RunExamples.uuid_hex
                             RunExamples.select_entities
                             RunExamples.select_identifiers
                             RunExamples.select_attributes
                             RunExamples.run_fuzzy_matching
                             RunExamples.build_profiles RunExamples.config_digest
                             RunExamples.full_run (RunExamples.warehouse []))))).
  { vm_compute. auto. }
  assert (H2 : rh_run_id
                 (mk_run_history "run_0123456789ab" "FULL" "SUCCESS"
                    RunExamples.noon RunExamples.noon 0
                    (Some "0123456789abcdef") (Some 0%Z)
                    (Some 3) (Some 1) (Some 2) (Some 2) None)
               = Runner.run_id RunExamples.uuid_hex RunExamples.full_run)
    by reflexivity.
  split; [exact H1|]. split; [exact H2|].
  exact (proj1 (run_history_agrees_with_result duckdb RunExamples.noon
                  RunExamples.uuid_hex RunExamples.select_entities
                  RunExamples.select_identifiers RunExamples.select_attributes
                  RunExamples.run_fuzzy_matching RunExamples.build_profiles
                  RunExamples.config_digest RunExamples.full_run
                  (RunExamples.warehouse []) _ H1 H2)).
Defined.

Lemma run_without_changes_witness :
  status (fst QuietRun.run) = "SUCCESS_NO_CHANGES"
  /\ production_unchanged (RunExamples.warehouse []) (snd QuietRun.run).
Proof.
  assert (H : status (fst QuietRun.run) = "SUCCESS_NO_CHANGES") by reflexivity.
  split; [exact H|].
  exact (run_without_changes duckdb RunExamples.noon RunExamples.uuid_hex
           QuietRun.select_entities RunExamples.select_identifiers
           RunExamples.select_attributes RunExamples.run_fuzzy_matching
           RunExamples.build_profiles RunExamples.config_digest
           RunExamples.full_run (RunExamples.warehouse []) H).
Defined.

End RunnerExtra.

(* ================================================================== *)
(** ** get_source_fqn: only validated names reach the SQL text *)

Module ExtractionExtra.
Import Chars Identifiers IdentifierFacts Validators BaseStage ExtractionAccess.









End ExtractionExtra.
